(** * Kmart Stock Monitor: the monitoring engine

    A shallow embedding of the monitoring engine of the extension:
    the validity classifier, the per-product check ([checkProduct]), the
    add-to-cart automation ([triggerAddToCart]), the backoff policy
    ([jitter], [backoffDelay]), the rate limiter and the scheduler tick
    ([monitorTick]); around it the product and log store of [storage.js],
    the alarm ([ensureAlarmRunning]), the messages that steer the
    monitoring ([TOGGLE_MONITOR], [START_ALL], [STOP_ALL],
    [REMOVE_PRODUCT], [CHECK_NOW]) and the settings form of the options
    page.

    The repository holds two revisions of the background service worker.
    [Older] is [src/background/service-worker.js]; [Newer] is the service
    worker stored after the options page script in [src/options/options.js]
    (four-signal classifier, stored-name repair, add-to-bag retries).
    Definitions that differ between the two take the revision as an
    argument; everything else is shared.

    Conventions of the embedding:
    - JavaScript numbers that hold prices, percentages and random draws are
      exact rationals ([Q]); counters and millisecond timestamps are
      integers ([Z]).
    - Strings are sequences of code units in the Latin-1 range, one [ascii]
      per code unit.
    - Rendered message texts (template strings) are kept as structured
      values of type [Message]: the parts that are interpolated, not the
      final characters.
    - Everything the code obtains from outside (the fetched page, the
      replies of the content script, [Date.now()], [Math.random()]) is an
      explicit input. *)

From Stdlib Require Import ZArith QArith Qround Qpower Qabs String Ascii List Lia Lqa Bool.
From Stdlib Require Import DecimalString.
From stdpp Require Import base list strings.
Import ListNotations.

Local Open Scope string_scope.
Local Open Scope Z_scope.

(* ================================================================== *)
(** ** JavaScript string primitives *)
(* ================================================================== *)

Module JsString.

(** White space and line terminators of ECMAScript that lie in Latin-1:
    TAB, LF, VT, FF, CR, SPACE and NBSP. [String.prototype.trim] and the
    regular expression class [\s] use the same set. *)
Definition isWhiteSpace (c : ascii) : bool :=
  let n := N_of_ascii c in
  (n =? 9)%N || (n =? 10)%N || (n =? 11)%N || (n =? 12)%N ||
  (n =? 13)%N || (n =? 32)%N || (n =? 160)%N.

(** Lower-casing of one Latin-1 code unit: A-Z, and the accented capitals
    U+00C0-U+00DE except the multiplication sign U+00D7. *)
Definition lowerChar (c : ascii) : ascii :=
  let n := N_of_ascii c in
  if ((65 <=? n)%N && (n <=? 90)%N)
     || ((192 <=? n)%N && (n <=? 222)%N && negb (n =? 215)%N)
  then ascii_of_N (n + 32)
  else c.

Fixpoint toLowerCase (s : string) : string :=
  match s with
  | EmptyString => EmptyString
  | String c s' => String (lowerChar c) (toLowerCase s')
  end.

Fixpoint trimStart (s : string) : string :=
  match s with
  | EmptyString => EmptyString
  | String c s' => if isWhiteSpace c then trimStart s' else s
  end.

(** [trimEnd] drops the trailing white space: a character is kept when
    something other than white space follows it or it is not white space
    itself. *)
Fixpoint trimEnd (s : string) : string :=
  match s with
  | EmptyString => EmptyString
  | String c s' =>
      match trimEnd s' with
      | EmptyString => if isWhiteSpace c then EmptyString else String c EmptyString
      | rest => String c rest
      end
  end.

Definition trim (s : string) : string := trimEnd (trimStart s).

(** [s.includes(j)]: [j] occurs in [s] as a contiguous substring. *)
Fixpoint includes (s j : string) : bool :=
  if String.prefix j s then true
  else match s with
       | EmptyString => false
       | String _ s' => includes s' j
       end.

(** [s.split(/\s+/)]: the pieces between maximal runs of white space. A
    leading or trailing run yields an empty first or last piece, and the
    empty string splits into one empty piece. [inRun] tells whether the
    previous character was white space, [word] is the piece being read. *)
Fixpoint splitWhiteSpaceFrom (inRun : bool) (word : string) (s : string)
  : list string :=
  match s with
  | EmptyString => [word]
  | String c s' =>
      if isWhiteSpace c then
        if inRun then splitWhiteSpaceFrom true EmptyString s'
        else word :: splitWhiteSpaceFrom true EmptyString s'
      else splitWhiteSpaceFrom false (word ++ String c EmptyString)%string s'
  end.

Definition splitWhiteSpace (s : string) : list string :=
  splitWhiteSpaceFrom false EmptyString s.

(** [arr.includes(w)] on an array of strings. *)
Definition member (w : string) (l : list string) : bool :=
  existsb (String.eqb w) l.

End JsString.

(* ================================================================== *)
(** ** Rational comparisons as the code writes them *)
(* ================================================================== *)

Definition Qgtb (x y : Q) : bool := negb (Qle_bool x y).
Definition Qltb (x y : Q) : bool := negb (Qle_bool y x).
Definition Qgeb (x y : Q) : bool := Qle_bool y x.

(** [Math.round]: nearest integer, halves towards plus infinity. *)
Definition Math_round (x : Q) : Z := Qfloor (x + (1 # 2)).

(** [Math.min] and [Math.max] on rationals. *)
Definition Math_min (x y : Q) : Q := if Qle_bool x y then x else y.
Definition Math_max (x y : Q) : Q := if Qle_bool x y then y else x.

(* ================================================================== *)
(** ** Binary64 arithmetic *)
(* ================================================================== *)

(** A JavaScript number is a binary64 value: a rational [m * 2^e] with
    [|m| < 2^53] and [e >= -1074]. An arithmetic operator of the code
    gives the exact result rounded to the nearest such value, a tie going
    to the even [m]. Infinities and [NaN] are not represented: the
    quantities below stay far from the overflow threshold. Comparisons of
    binary64 values are exact. *)
Module Binary64.

(** The largest [k] with [2^k <= q], for a positive [q]. *)
Definition floorLog2 (q : Q) : Z :=
  let k := Z.log2 (Qnum q) - Z.log2 (Zpos (Qden q)) in
  if Qle_bool (2 ^ k) q then k else k - 1.

(** The nearest integer, a tie going to the even one. *)
Definition nearestEven (q : Q) : Z :=
  let f := Qfloor q in
  match (q - inject_Z f ?= 1 # 2)%Q with
  | Lt => f
  | Gt => f + 1
  | Eq => if Z.even f then f else f + 1
  end.

(** The exponent of the last place of the binary64 values next to [q]:
    53 significant bits, and no exponent below that of the subnormals. *)
Definition ulpExponent (q : Q) : Z :=
  Z.max (floorLog2 (Qabs q) - 52) (-1074).

(** The nearest binary64 value, in lowest terms. *)
Definition round (q : Q) : Q :=
  if Qeq_bool q 0 then 0%Q
  else Qred (inject_Z (nearestEven (q / 2 ^ ulpExponent q)) * 2 ^ ulpExponent q).

(** The operators [+], [-], [*] and [/] on binary64 values. *)
Definition add (x y : Q) : Q := round (x + y).
Definition sub (x y : Q) : Q := round (x - y).
Definition mul (x y : Q) : Q := round (x * y).
Definition div (x y : Q) : Q := round (x / y).

End Binary64.

(* ================================================================== *)
(** ** Data model *)
(* ================================================================== *)

Inductive Revision := Older | Newer.

Inductive StockStatus := InStock | OutOfStock | Limited | Unknown.

Inductive MonitorState := Active | Paused | Error.

Definition StockStatus_eqb (a b : StockStatus) : bool :=
  match a, b with
  | InStock, InStock | OutOfStock, OutOfStock
  | Limited, Limited | Unknown, Unknown => true
  | _, _ => false
  end.

Definition MonitorState_eqb (a b : MonitorState) : bool :=
  match a, b with
  | Active, Active | Paused, Paused | Error, Error => true
  | _, _ => false
  end.

(** One entry of a product's history. *)
Record Snapshot := {
  s_timestamp : Z;
  s_price : Q;
  s_stockStatus : StockStatus;
  s_variantsAvailable : list string;
}.

(** Texts that the engine renders into [lastError], log details and
    notifications, by the template that produces them. *)
Inductive Message :=
| Text (s : string)
    (* an error message coming from outside the engine *)
| InvalidDataMsg (shown : string)
    (* Page returned invalid data (possible 404 or taken down): <shown> *)
| NotFoundMsg (id : string)
    (* Product <id> not found. *)
| RecoveredMsg
    (* Product page recovered - monitoring resumed. *)
| BackInStockMsg (name : string) (price : Q)
| NowOutOfStockMsg (name : string)
| PriceDroppedMsg (dropPct oldPrice newPrice : Q)
| CheckedMsg (status : StockStatus) (price : Q)
| TakenDownMsg (failedChecks : Z)
| HittingErrorsMsg (soFar : Z) (cause : Message)
| CartTriggeredMsg (name : string)
    (* Auto add-to-cart triggered for <name> *)
| CartFailedMsg (cause : Message)
    (* Add-to-cart failed: <cause> *)
| BagSucceededMsg (name : string) (quantityRequested pageMax : option Z)
                  (warning : option string) (attempt : Z)
| BagFailedMsg (attempts : Z) (cause : Message)
    (* Add-to-bag failed after <attempts> attempts: <cause> *).

Record Product := {
  p_id : string;
  p_url : string;
  p_name : string;
  p_imageUrl : string;
  p_currentPrice : Q;
  p_previousPrice : option Q;
  p_stockStatus : StockStatus;
  p_monitorState : MonitorState;
  p_lastChecked : option Z;
  p_lastInStock : option Z;
  p_errorCount : Z;
  p_lastError : option Message;
  p_selectedVariants : list string;
  p_autoAddToCart : bool;
  p_maxQuantity : Z;
  p_maxPurchaseQty : option Z;
  p_history : list Snapshot;
}.

(** A partial update, the object literal handed to [updateProduct]: [None]
    is a key that is absent, [Some v] a key that is present. Keys whose
    value may be [null] carry an option of their own. *)
Record Updates := {
  u_currentPrice : option Q;
  u_previousPrice : option Q;
  u_stockStatus : option StockStatus;
  u_monitorState : option MonitorState;
  u_lastChecked : option Z;
  u_lastInStock : option Z;
  u_errorCount : option Z;
  u_lastError : option (option Message);
  u_history : option (list Snapshot);
  u_name : option string;
  u_imageUrl : option string;
  u_maxPurchaseQty : option (option Z);
}.

Definition noUpdates : Updates := {|
  u_currentPrice := None; u_previousPrice := None; u_stockStatus := None;
  u_monitorState := None; u_lastChecked := None; u_lastInStock := None;
  u_errorCount := None; u_lastError := None; u_history := None;
  u_name := None; u_imageUrl := None; u_maxPurchaseQty := None;
|}.

(** The spread [{ ...p, ...u }]: keys present in [u] win. *)
Definition merge (p : Product) (u : Updates) : Product := {|
  p_id := p_id p;
  p_url := p_url p;
  p_name := default (p_name p) (u_name u);
  p_imageUrl := default (p_imageUrl p) (u_imageUrl u);
  p_currentPrice := default (p_currentPrice p) (u_currentPrice u);
  p_previousPrice :=
    match u_previousPrice u with Some v => Some v | None => p_previousPrice p end;
  p_stockStatus := default (p_stockStatus p) (u_stockStatus u);
  p_monitorState := default (p_monitorState p) (u_monitorState u);
  p_lastChecked :=
    match u_lastChecked u with Some v => Some v | None => p_lastChecked p end;
  p_lastInStock :=
    match u_lastInStock u with Some v => Some v | None => p_lastInStock p end;
  p_errorCount := default (p_errorCount p) (u_errorCount u);
  p_lastError := default (p_lastError p) (u_lastError u);
  p_selectedVariants := p_selectedVariants p;
  p_autoAddToCart := p_autoAddToCart p;
  p_maxQuantity := p_maxQuantity p;
  p_maxPurchaseQty := default (p_maxPurchaseQty p) (u_maxPurchaseQty u);
  p_history := default (p_history p) (u_history u);
|}.

(** The settings the engine reads ([DEFAULT_SETTINGS] merged with the
    stored ones). The options page stores [priceDropThreshold] clamped to
    1..90 and [maxHistoryPerProduct] clamped to 10..2000, both parsed as
    integers; the history cap is therefore a natural number here. *)
Record Settings := {
  checkIntervalSeconds : Q;
  jitterPercent : Q;
  globalAutoAdd : bool;
  notificationsEnabled : bool;
  audioAlertEnabled : bool;
  audioVolume : Q;
  priceDropThreshold : Q;
  webhookUrl : string;
  webhookEnabled : bool;
  maxHistoryPerProduct : nat;
}.

Definition DEFAULT_SETTINGS : Settings := {|
  checkIntervalSeconds := 30;
  jitterPercent := 15;
  globalAutoAdd := false;
  notificationsEnabled := true;
  audioAlertEnabled := true;
  audioVolume := 7 # 10;
  priceDropThreshold := 10;
  webhookUrl := EmptyString;
  webhookEnabled := false;
  maxHistoryPerProduct := 500;
|}.

(** What the content script answers to [PARSE_PRODUCT_PAGE]. A field is
    [None] when the key is missing or does not have the JavaScript type the
    field name promises ([typeof data.price === 'number'] fails, ...). *)
Record Variant := { v_value : string; v_available : bool }.

Record Data := {
  d_name : option string;
  d_price : option Q;
  d_stockStatus : StockStatus;
  d_imageUrl : option string;
  d_variants : list Variant;
  d_maxPurchaseQty : option Z;
}.

Inductive LogEvent :=
| ev_check | ev_error | ev_in_stock | ev_out_of_stock | ev_price_change
| ev_add_to_cart.

Record LogEntry := {
  l_timestamp : Z;
  l_productId : string;
  l_event : LogEvent;
  l_details : Message;
  l_oldPrice : option Q;
  l_newPrice : option Q;
}.

Definition logEntry (t : Z) (id : string) (e : LogEvent) (m : Message) : LogEntry :=
  {| l_timestamp := t; l_productId := id; l_event := e; l_details := m;
     l_oldPrice := None; l_newPrice := None |}.

(** The log entry of a price drop: the one entry with [oldPrice] and
    [newPrice]. *)
Definition priceDropEntry (now : Z) (id : string) (dropPct oldPrice newPrice : Q)
  : LogEntry :=
  {| l_timestamp := now; l_productId := id; l_event := ev_price_change;
     l_details := PriceDroppedMsg dropPct oldPrice newPrice;
     l_oldPrice := Some oldPrice; l_newPrice := Some newPrice |}.

(** The reply of the content script to [ADD_TO_CART]. *)
Record Response := {
  r_success : bool;
  r_quantityRequested : option Z;
  r_pageMax : option Z;
  r_warning : option string;
  r_error : option string;
}.

Inductive WebhookKind := hook_in_stock | hook_price_drop.

(** Calls that leave the engine, in the order they are made. The calls into
    [notifications.js] do not throw: [showNotification] always resolves,
    [playAudioAlert] and [sendWebhook] catch their own failures. *)
Inductive Effect :=
| Logged (e : LogEntry)                              (* addLog *)
| NotifiedInStock (p : Product)                      (* notifyInStock *)
| NotifiedPriceDrop (p : Product) (oldPrice newPrice : Q)
| NotifiedError (p : Product) (m : Message)          (* notifyError *)
| AudioAlert (volume : Q)                            (* playAudioAlert *)
| Webhook (url : string) (p : Product) (k : WebhookKind) (oldPrice : option Q)
| Slept (ms : Z)                                     (* sleep *)
| TabsQueried (url : string)                         (* chrome.tabs.query *)
| TabNavigated (url : string)                        (* chrome.tabs.update *)
| TabCreated (url : string)                          (* chrome.tabs.create *)
| TabRemoved                                         (* chrome.tabs.remove *)
| CartRequested (id : string) (variants : list string) (quantity : Z)
                (maxOut : bool)                      (* ADD_TO_CART message *)
| UserAgentRotated
| MonitorTabClosed
| BadgeRefreshed (count : nat)
| ConsoleError (m : Message).

(* ================================================================== *)
(** ** Anti-detection utilities: jitter, backoff, rate limiter *)
(* ================================================================== *)

(** [jitter(baseMs, jitterPct)]. [rnd] is the value of [Math.random()],
    a number in the interval from 0 (included) to 1 (excluded). *)
Definition jitter (rnd : Q) (baseMs : Q) (jitterPct : Q) : Z :=
  let factor := (1 + (rnd * 2 - 1) * (jitterPct / 100))%Q in
  Math_round (baseMs * factor).

Definition backoff_base : Q := 1000.
Definition backoff_cap : Q := (5 * 60 * 1000)%Q.

(** [backoffDelay(errorCount)]; [Math.pow(2, errorCount)] is [Qpower]. *)
Definition backoffDelay (rnd : Q) (errorCount : Z) : Z :=
  let base := backoff_base in
  let cap := backoff_cap in
  let delay := Math_min (base * Qpower 2 errorCount)%Q cap in
  jitter rnd delay 20.

Module RateLimiter.

Record t := {
  timestamps : list Z;
  maxRequests : nat;
  windowMs : Z;
}.

Definition new (maxRequests : nat) (windowMs : Z) : t :=
  {| timestamps := []; maxRequests := maxRequests; windowMs := windowMs |}.

(** [canRequest()] first drops the expired time stamps, then answers. *)
Definition canRequest (now : Z) (r : t) : bool * t :=
  let kept := List.filter (fun t => (now - t <? windowMs r)%Z) (timestamps r) in
  ((length kept <? maxRequests r)%nat,
   {| timestamps := kept; maxRequests := maxRequests r; windowMs := windowMs r |}).

Definition record (now : Z) (r : t) : t :=
  {| timestamps := timestamps r ++ [now];
     maxRequests := maxRequests r; windowMs := windowMs r |}.

(** [waitTime()]. [timestamps[0]] exists whenever the request is denied
    and [maxRequests] is positive; for an empty array the code computes
    with [undefined], written 0 here. *)
Definition waitTime (now : Z) (r : t) : Z * t :=
  let '(ok, r') := canRequest now r in
  if ok then (0, r')
  else
    let oldest := List.hd 0 (timestamps r') in
    (oldest + windowMs r' - now, r').

End RateLimiter.

(* ================================================================== *)
(** ** The store and the effects of the engine *)
(* ================================================================== *)

Definition MAX_LOGS : nat := 5000.

(** The mutable state the service worker works on: the two storage keys it
    writes, the single-flight flag and the rate limiter. *)
Record World := {
  products : list Product;
  logs : list LogEntry;
  isChecking : bool;
  limiter : RateLimiter.t;
}.

Definition withProducts (ps : list Product) (w : World) : World :=
  {| products := ps; logs := logs w; isChecking := isChecking w; limiter := limiter w |}.
Definition withLogs (ls : list LogEntry) (w : World) : World :=
  {| products := products w; logs := ls; isChecking := isChecking w; limiter := limiter w |}.
Definition withChecking (b : bool) (w : World) : World :=
  {| products := products w; logs := logs w; isChecking := b; limiter := limiter w |}.
Definition withLimiter (r : RateLimiter.t) (w : World) : World :=
  {| products := products w; logs := logs w; isChecking := isChecking w; limiter := r |}.

(** The outcome of running a piece of the engine: it returned a value or
    threw, the state it left, and the outside calls it made, in order. *)
Record Run (A : Type) := MkRun {
  result : Message + A;
  final : World;
  trace : list Effect;
}.
Arguments MkRun {A} _ _ _.
Arguments result {A} _.
Arguments final {A} _.
Arguments trace {A} _.

Definition M (A : Type) : Type := World → Run A.

Global Instance M_ret : MRet M :=
  λ A a w, MkRun (inr a) w [].

Global Instance M_bind : MBind M :=
  λ A B f m w,
    let r := m w in
    match result r with
    | inl e => MkRun (inl e) (final r) (trace r)
    | inr a =>
        let r' := f a (final r) in
        MkRun (result r') (final r') (trace r ++ trace r')
    end.

Definition throw {A} (e : Message) : M A :=
  λ w, MkRun (inl e) w [].

(** [try { m } catch (err) { handler err }] *)
Definition tryCatch {A} (m : M A) (handler : Message → M A) : M A :=
  λ w,
    let r := m w in
    match result r with
    | inl e =>
        let r' := handler e (final r) in
        MkRun (result r') (final r') (trace r ++ trace r')
    | inr a => r
    end.

(** [try { m } finally { cleanup }], for a cleanup that cannot throw. *)
Definition tryFinally {A} (m : M A) (cleanup : World → World) : M A :=
  λ w, let r := m w in MkRun (result r) (cleanup (final r)) (trace r).

Definition emit (e : Effect) : M () :=
  λ w, MkRun (inr ()) w [e].

Definition when (b : bool) (m : M ()) : M () :=
  if b then m else mret ().

Definition sleep (ms : Z) : M () := emit (Slept ms).

(** *** storage.js *)

Definition getProducts : M (list Product) :=
  λ w, MkRun (inr (products w)) w [].

Definition saveProducts (ps : list Product) : M () :=
  λ w, MkRun (inr ()) (withProducts ps w) [].

(** [products.find(p => p.id === id)] *)
Definition findProduct (id : string) (ps : list Product) : option Product :=
  snd <$> list_find (λ p, p_id p = id) ps.

Definition getProduct (id : string) : M (option Product) :=
  ps ← getProducts; mret (findProduct id ps).

(** [updateProduct]: the first product with this id is replaced by its
    merge with the updates; an unknown id throws. *)
Definition updateProduct (id : string) (updates : Updates) : M Product :=
  ps ← getProducts;
  match list_find (λ p, p_id p = id) ps with
  | None => throw (NotFoundMsg id)
  | Some (idx, p) =>
      let ps' := <[idx := merge p updates]> ps in
      saveProducts ps';;
      mret (merge p updates)
  end.

(** [addLog]: newest first, capped at [MAX_LOGS]. *)
Definition addLog (entry : LogEntry) : M () :=
  λ w, MkRun (inr ()) (withLogs (take MAX_LOGS (entry :: logs w)) w) [Logged entry].

(* ================================================================== *)
(** ** The validity classifier *)
(* ================================================================== *)

(** The junk titles of the older service worker. *)
Definition junkNames : list string := [
  "page not found"; "not found"; "404"; "error"; "sorry"; "oops";
  "something went wrong"; "access denied"; "just a moment";
  "unknown product"
].

(** The junk phrases of the newer service worker. *)
Definition junkPhrases : list string := [
  "page not found"; "not found"; "404"; "error"; "sorry"; "oops";
  "something went wrong"; "access denied"; "just a moment";
  "unknown product"; "can't be found"; "cannot be found";
  "no longer available"; "doesn't exist"; "does not exist"; "unavailable";
  "we couldn't find"; "we could not find"; "kmart australia";
  "attention required"; "please verify"; "checking your browser"
].

Definition fillerWords : list string := [
  "the"; "you"; "your"; "this"; "that"; "for"; "are"; "was"; "were"; "our";
  "please"
].

(** [isValidProductData(data)]. [None] is a falsy [data]; a name is falsy
    when it is missing or empty. *)
Definition isValidProductData (rev : Revision) (data : option Data) : bool :=
  match rev with
  | Older =>
      match data with
      | None => false
      | Some data =>
          match d_name data with
          | None | Some EmptyString => false
          | Some dname =>
              let name := JsString.toLowerCase dname in
              if existsb (λ j, JsString.includes name j) junkNames then false
              else if (String.length (JsString.trim dname) <? 3)%nat then false
              else true
          end
      end
  | Newer =>
      match data with
      | None => false
      | Some data =>
          (* Signal 1: no name at all *)
          match d_name data with
          | None | Some EmptyString => false
          | Some dname =>
              if (String.length (JsString.trim dname) <? 3)%nat then false
              else
                let name := JsString.trim (JsString.toLowerCase dname) in
                (* Signal 2: known junk patterns *)
                if existsb (λ j, JsString.includes name j) junkPhrases then false
                else
                  (* Signal 3: no price and no image *)
                  let hasPrice :=
                    match d_price data with
                    | Some price => Qgtb price 0
                    | None => false
                    end in
                  let hasImage :=
                    match d_imageUrl data with
                    | Some imageUrl => (10 <? String.length imageUrl)%nat
                    | None => false
                    end in
                  if negb hasPrice && negb hasImage then false
                  else
                    (* Signal 4: a full sentence, not a product title *)
                    let wordCount := length (JsString.splitWhiteSpace name) in
                    let fillerCount :=
                      length (List.filter (λ w, JsString.member w fillerWords)
                                          (JsString.splitWhiteSpace name)) in
                    if (6 <=? wordCount)%nat && (3 <=? fillerCount)%nat then false
                    else true
          end
      end
  end.

(* ================================================================== *)
(** ** Inputs of one product check *)
(* ================================================================== *)

(** What one add-to-cart attempt meets. [existing] tells whether
    [chrome.tabs.query] found an open tab with a usable id; [rejection] is
    the first browser call of the attempt that rejects, if one does;
    [response] is what the content script replies when the message goes
    through ([None] for [undefined]). *)
Inductive CartStep := AtQuery | AtOpen | AtSend.

Definition CartStep_eqb (a b : CartStep) : bool :=
  match a, b with
  | AtQuery, AtQuery | AtOpen, AtOpen | AtSend, AtSend => true
  | _, _ => false
  end.

Record CartAttempt := {
  existing : bool;
  rejection : option (CartStep * Message);
  response : option Response;
}.

Record CartEnv := {
  attemptOutcome : Z → CartAttempt;   (* by attempt number, from 1 *)
  cartClock : Z → Z;                  (* Date.now() during that attempt; the
                                         read after the last attempt has the
                                         next number *)
}.

Record CheckEnv := {
  c_now : Z;                          (* Date.now() at the start of the check *)
  c_fetch : Message + Data;           (* fetchProductData: throws or returns *)
  c_cart : CartEnv;
}.

Definition fetchProductData (env : CheckEnv) : M Data :=
  match c_fetch env with
  | inl err => throw err
  | inr data => mret data
  end.

(* ================================================================== *)
(** ** Add-to-cart automation *)
(* ================================================================== *)

Definition ADD_CART_MAX_RETRIES : Z := 3.
Definition ADD_CART_BASE_DELAY : Z := 3000.

(** The browser call at [step] rejects when the attempt says so. *)
Definition rejects (step : CartStep) (o : CartAttempt) : M () :=
  match rejection o with
  | Some (s, err) => if CartStep_eqb s step then throw err else mret ()
  | None => mret ()
  end.

(** [await waitForTabLoad(tabId); await sleep(2000)]: the wait for the
    load event runs on timers of its own, the settle pause is a [sleep]. *)
Definition settle : M () := sleep 2000.

(** The local variable [createdTab] once the [try] block of an attempt is
    left: set when [chrome.tabs.create] was called and resolved. *)
Definition createdTab (o : CartAttempt) : bool :=
  negb (existing o) &&
  match rejection o with
  | Some (AtQuery, _) | Some (AtOpen, _) => false
  | _ => true
  end.

(** The [try] block of one attempt of the newer [triggerAddToCart] with its
    [catch]. It yields [None] when the block returns from the function and
    the new [lastError] otherwise. *)
Definition addToBagAttempt (product : Product) (cart : CartEnv) (attempt : Z)
  : M (option Message) :=
  let o := attemptOutcome cart attempt in
  tryCatch
    (emit (TabsQueried (p_url product ++ "*")%string);;
     rejects AtQuery o;;
     (if existing o then
        emit (TabNavigated (p_url product));;
        rejects AtOpen o;;
        settle
      else
        emit (TabCreated (p_url product));;
        rejects AtOpen o;;
        settle);;
     emit (CartRequested (p_id product) (p_selectedVariants product)
                         (p_maxQuantity product) true);;
     rejects AtSend o;;
     match response o with
     | Some resp =>
         if r_success resp then
           addLog (logEntry (cartClock cart attempt) (p_id product) ev_add_to_cart
                     (BagSucceededMsg (p_name product)
                        (r_quantityRequested resp) (r_pageMax resp)
                        (r_warning resp) attempt));;
           (* Update stored maxPurchaseQty if we learned it from the page *)
           when (match r_pageMax resp with Some m => 0 <? m | None => false end)
                (updateProduct (p_id product)
                   {| u_currentPrice := None; u_previousPrice := None;
                      u_stockStatus := None; u_monitorState := None;
                      u_lastChecked := None; u_lastInStock := None;
                      u_errorCount := None; u_lastError := None;
                      u_history := None; u_name := None; u_imageUrl := None;
                      u_maxPurchaseQty := Some (r_pageMax resp) |};;
                 mret ());;
           when (negb (existing o)) (emit TabRemoved);;
           mret None
         else
           mret (Some (match r_error resp with
                       | Some (String _ _ as e) => Text e
                       | _ => Text "Content script returned failure"
                       end))
     | None => mret (Some (Text "Content script returned failure"))
     end)
    (λ err, mret (Some err)).

(** The loop [for (attempt = 1; attempt <= ADD_CART_MAX_RETRIES; attempt++)]
    of the newer [triggerAddToCart] and the code after it. [attempts] lists
    the values the loop variable still takes. *)
Fixpoint addToBagAttempts (product : Product) (cart : CartEnv)
    (attempts : list Z) (lastError : Message) : M () :=
  match attempts with
  | [] =>
      emit (ConsoleError (BagFailedMsg ADD_CART_MAX_RETRIES lastError));;
      addLog (logEntry (cartClock cart (ADD_CART_MAX_RETRIES + 1)) (p_id product)
                ev_error (BagFailedMsg ADD_CART_MAX_RETRIES lastError))
  | attempt :: rest =>
      failed ← addToBagAttempt product cart attempt;
      match failed with
      | None => mret ()
      | Some lastError' =>
          when (createdTab (attemptOutcome cart attempt)) (emit TabRemoved);;
          when (attempt <? ADD_CART_MAX_RETRIES)
               (sleep (ADD_CART_BASE_DELAY * 2 ^ (attempt - 1)));;
          addToBagAttempts product cart rest lastError'
      end
  end.

(** The values of the loop variable: 1, 2, ..., [ADD_CART_MAX_RETRIES]. *)
Definition attemptNumbers : list Z :=
  List.map Z.of_nat (seq 1 (Z.to_nat ADD_CART_MAX_RETRIES)).

(** [triggerAddToCart(product)]. The older service worker makes one try
    and does not look at the reply. *)
Definition triggerAddToCart (rev : Revision) (product : Product) (cart : CartEnv)
  : M () :=
  match rev with
  | Older =>
      let o := attemptOutcome cart 1 in
      tryCatch
        (emit (TabsQueried (p_url product ++ "*")%string);;
         rejects AtQuery o;;
         (if existing o then mret ()
          else
            emit (TabCreated (p_url product));;
            rejects AtOpen o;;
            settle);;
         emit (CartRequested (p_id product) (p_selectedVariants product)
                             (p_maxQuantity product) false);;
         rejects AtSend o;;
         addLog (logEntry (cartClock cart 1) (p_id product) ev_add_to_cart
                   (CartTriggeredMsg (p_name product))))
        (λ err,
           emit (ConsoleError err);;
           addLog (logEntry (cartClock cart 1) (p_id product) ev_error
                     (CartFailedMsg err)))
  | Newer =>
      addToBagAttempts product cart attemptNumbers (Text EmptyString)
  end.

(* ================================================================== *)
(** ** Checking one product, and the scheduler tick *)
(* ================================================================== *)

Definition setMonitorState (s : MonitorState) (u : Updates) : Updates :=
  {| u_currentPrice := u_currentPrice u; u_previousPrice := u_previousPrice u;
     u_stockStatus := u_stockStatus u; u_monitorState := Some s;
     u_lastChecked := u_lastChecked u; u_lastInStock := u_lastInStock u;
     u_errorCount := u_errorCount u; u_lastError := u_lastError u;
     u_history := u_history u; u_name := u_name u; u_imageUrl := u_imageUrl u;
     u_maxPurchaseQty := u_maxPurchaseQty u |}.

Definition setLastInStock (t : Z) (u : Updates) : Updates :=
  {| u_currentPrice := u_currentPrice u; u_previousPrice := u_previousPrice u;
     u_stockStatus := u_stockStatus u; u_monitorState := u_monitorState u;
     u_lastChecked := u_lastChecked u; u_lastInStock := Some t;
     u_errorCount := u_errorCount u; u_lastError := u_lastError u;
     u_history := u_history u; u_name := u_name u; u_imageUrl := u_imageUrl u;
     u_maxPurchaseQty := u_maxPurchaseQty u |}.

Definition setPreviousPrice (x : Q) (u : Updates) : Updates :=
  {| u_currentPrice := u_currentPrice u; u_previousPrice := Some x;
     u_stockStatus := u_stockStatus u; u_monitorState := u_monitorState u;
     u_lastChecked := u_lastChecked u; u_lastInStock := u_lastInStock u;
     u_errorCount := u_errorCount u; u_lastError := u_lastError u;
     u_history := u_history u; u_name := u_name u; u_imageUrl := u_imageUrl u;
     u_maxPurchaseQty := u_maxPurchaseQty u |}.

(** The update both failure paths write: [{ lastChecked, errorCount,
    lastError, ...nameFix }]. *)
Definition failureUpdates (now : Z) (errorCount : Z) (msg : Message)
    (nameFix : option string) : Updates :=
  {| u_currentPrice := None; u_previousPrice := None; u_stockStatus := None;
     u_monitorState := None; u_lastChecked := Some now; u_lastInStock := None;
     u_errorCount := Some errorCount; u_lastError := Some (Some msg);
     u_history := None; u_name := nameFix; u_imageUrl := None;
     u_maxPurchaseQty := None |}.

(** Inputs of one iteration of the loop of [monitorTick]. *)
Record ItemEnv := {
  i_gateNow : Z;        (* Date.now() in the rate limiter calls *)
  i_backoffRnd : Q;     (* Math.random() inside backoffDelay *)
  i_backoffNow : Z;     (* Date.now() of the backoff gate *)
  i_check : CheckEnv;
  i_recordNow : Z;      (* Date.now() in RATE_LIMITER.record() *)
  i_pauseRnd : Q;       (* Math.random() of the pause between products *)
}.

Record TickEnv := {
  t_settings : Settings;   (* getSettings() *)
  t_rotateRnd : Q;         (* Math.random() of the user agent rotation *)
  t_item : nat → ItemEnv;  (* by position in the list of eligible products *)
}.

(** *** The paths of [checkProduct]

    [checkProduct] is long; its [catch] block and the code that follows the
    junk guard are written here as [failurePath] and [validPath], with the
    local constants of the source as definitions of their own. The object
    [updates], which the source extends in place, appears in its
    successive states. *)

Section Paths.

Variables (rev : Revision) (product : Product) (settings : Settings)
          (env : CheckEnv) (data : Data).

(** [newPrice]: the fetched price when it is above 0, else the old one. *)
Definition newPrice : Q :=
  match d_price data with
  | Some price => if Qgtb price 0 then price else p_currentPrice product
  | None => p_currentPrice product
  end.

Definition newSnapshot : Snapshot :=
  {| s_timestamp := c_now env; s_price := newPrice;
     s_stockStatus := d_stockStatus data;
     s_variantsAvailable :=
       List.map v_value (List.filter v_available (d_variants data)) |}.

Definition newHistory : list Snapshot :=
  let history := newSnapshot :: p_history product in
  if (maxHistoryPerProduct settings <? length history)%nat
  then take (maxHistoryPerProduct settings) history
  else history.

Definition recovered : bool := MonitorState_eqb (p_monitorState product) Error.

Definition restocked : bool :=
  StockStatus_eqb (d_stockStatus data) InStock &&
  (StockStatus_eqb (p_stockStatus product) OutOfStock
   || StockStatus_eqb (p_stockStatus product) Unknown).

Definition soldOut : bool :=
  StockStatus_eqb (d_stockStatus data) OutOfStock
  && StockStatus_eqb (p_stockStatus product) InStock.

Definition decreased : bool :=
  Qgtb newPrice 0 && Qgtb (p_currentPrice product) 0
  && Qltb newPrice (p_currentPrice product).

(** [((oldPrice - newPrice) / oldPrice) * 100], each operator rounding. *)
Definition dropPct : Q :=
  Binary64.mul
    (Binary64.div (Binary64.sub (p_currentPrice product) newPrice)
                  (p_currentPrice product))
    100.

Definition crossesThreshold : bool :=
  Qgeb dropPct (priceDropThreshold settings).

(** The object literal [updates] as first built. *)
Definition firstUpdates : Updates :=
  {| u_currentPrice := Some newPrice;
     u_previousPrice := None;
     u_stockStatus := Some (d_stockStatus data);
     u_monitorState := None;
     u_lastChecked := Some (c_now env);
     u_lastInStock := None;
     u_errorCount := Some 0;
     u_lastError := Some None;
     u_history := Some newHistory;
     u_name := Some (match d_name data with
                     | Some n => if (3 <? String.length n)%nat then n
                                 else p_name product
                     | None => p_name product
                     end);
     u_imageUrl := Some (match d_imageUrl data with
                         | Some (String _ _ as i) => i
                         | _ => p_imageUrl product
                         end);
     u_maxPurchaseQty :=
       match rev with
       | Older => None
       | Newer => Some (match d_maxPurchaseQty data with
                        | Some m => Some m
                        | None => p_maxPurchaseQty product
                        end)
       end |}.

(** [updates] after the recovery, the restock and the price-drop code
    have added their keys. *)
Definition updatesAfterRecovery : Updates :=
  if recovered then setMonitorState Active firstUpdates else firstUpdates.
Definition updatesAfterRestock : Updates :=
  if restocked then setLastInStock (c_now env) updatesAfterRecovery
  else updatesAfterRecovery.
Definition validUpdates : Updates :=
  if decreased then setPreviousPrice (p_currentPrice product) updatesAfterRestock
  else updatesAfterRestock.

(** If the product was in the error state and valid data came, it is
    restored to active. *)
Definition recoveryPart : M () :=
  when recovered
       (addLog (logEntry (c_now env) (p_id product) ev_check RecoveredMsg)).

(** Out of stock to in stock. *)
Definition restockPart : M () :=
  when restocked
       (addLog (logEntry (c_now env) (p_id product) ev_in_stock
                  (BackInStockMsg (p_name product) newPrice));;
        when (notificationsEnabled settings)
             (emit (NotifiedInStock (merge product updatesAfterRestock)));;
        when (audioAlertEnabled settings)
             (emit (AudioAlert (audioVolume settings)));;
        when (webhookEnabled settings
              && negb (String.eqb (webhookUrl settings) EmptyString))
             (emit (Webhook (webhookUrl settings)
                            (merge product updatesAfterRestock)
                            hook_in_stock None));;
        when (p_autoAddToCart product || globalAutoAdd settings)
             (triggerAddToCart rev product (c_cart env))).

(** In stock to out of stock. *)
Definition soldOutPart : M () :=
  when soldOut
       (addLog (logEntry (c_now env) (p_id product) ev_out_of_stock
                  (NowOutOfStockMsg (p_name product)))).

(** Price drop; [updates.previousPrice] is set for every decrease. *)
Definition priceDropPart : M () :=
  when (decreased && crossesThreshold)
       (addLog (priceDropEntry (c_now env) (p_id product) dropPct
                               (p_currentPrice product) newPrice);;
        when (notificationsEnabled settings)
             (emit (NotifiedPriceDrop (merge product validUpdates)
                                      (p_currentPrice product) newPrice));;
        when (audioAlertEnabled settings)
             (emit (AudioAlert (audioVolume settings)));;
        when (webhookEnabled settings
              && negb (String.eqb (webhookUrl settings) EmptyString))
             (emit (Webhook (webhookUrl settings) (merge product validUpdates)
                            hook_price_drop (Some (p_currentPrice product))))).

Definition persistPart : M () :=
  updateProduct (p_id product) validUpdates;;
  addLog (logEntry (c_now env) (p_id product) ev_check
            (CheckedMsg (d_stockStatus data) newPrice)).

Definition validPath : M () :=
  recoveryPart;; restockPart;; soldOutPart;; priceDropPart;; persistPart.

(** The [catch] block of [checkProduct]. *)
Definition failurePath (err : Message) : M () :=
  updateProduct (p_id product)
    (failureUpdates (c_now env) (p_errorCount product + 1) err None);;
  addLog (logEntry (c_now env) (p_id product) ev_error err);;
  when (p_errorCount product + 1 =? 5)
       (updateProduct (p_id product) (setMonitorState Error noUpdates);;
        when (notificationsEnabled settings)
             (emit (NotifiedError product
                      (HittingErrorsMsg (p_errorCount product + 1) err)))).

End Paths.

Section Engine.

(** [nameFromUrl] derives a display name from the slug of a product URL
    with the URL parser of the platform; the engine only stores what it
    returns. *)
Variable nameFromUrl : string → string.

(** The code behind the guard [if (!isValidProductData(data))]. *)
Definition junkPath (rev : Revision) (product : Product) (settings : Settings)
    (env : CheckEnv) (data : Data) : M () :=
  let now := c_now env in
  let errorMsg :=
    InvalidDataMsg (match d_name data with
                    | Some (String _ _ as n) => n
                    | _ => "empty"
                    end) in
  (* The stored name itself may be junk: repair it from the URL *)
  let nameFix :=
    match rev with
    | Older => None
    | Newer =>
        if negb (isValidProductData Newer
                   (Some {| d_name := Some (p_name product);
                            d_price := Some (p_currentPrice product);
                            d_stockStatus := Unknown;
                            d_imageUrl := Some (p_imageUrl product);
                            d_variants := [];
                            d_maxPurchaseQty := None |}))
        then Some (nameFromUrl (p_url product))
        else None
    end in
  updateProduct (p_id product)
    (failureUpdates now (p_errorCount product + 1) errorMsg nameFix);;
  addLog (logEntry now (p_id product) ev_error errorMsg);;
  (* After 10 junk responses, notify user but do not stop monitoring *)
  when (p_errorCount product + 1 =? 10)
       (when (notificationsEnabled settings)
             (emit (NotifiedError product
                      (TakenDownMsg (p_errorCount product + 1))))).

(** [checkProduct(product, settings)] *)
Definition checkProduct (rev : Revision) (product : Product) (settings : Settings)
    (env : CheckEnv) : M () :=
  tryCatch
    (data ← fetchProductData env;
     (* Guard: detect 404 / junk pages *)
     if negb (isValidProductData rev (Some data)) then
       junkPath rev product settings env data
     else
       (* Valid product data: proceed normally *)
       validPath rev product settings env data)
    (* Total failure (tab crash, network down, content script error) *)
    (failurePath product settings env).

(** The products a tick looks at. *)
Definition eligibleProduct (p : Product) : bool :=
  MonitorState_eqb (p_monitorState p) Active
  || MonitorState_eqb (p_monitorState p) Error.

Definition limiterCanRequest (now : Z) : M bool :=
  λ w, let '(ok, r) := RateLimiter.canRequest now (limiter w) in
       MkRun (inr ok) (withLimiter r w) [].

Definition limiterWaitTime (now : Z) : M Z :=
  λ w, let '(ms, r) := RateLimiter.waitTime now (limiter w) in
       MkRun (inr ms) (withLimiter r w) [].

Definition limiterRecord (now : Z) : M () :=
  λ w, MkRun (inr ()) (withLimiter (RateLimiter.record now (limiter w)) w) [].

(** One iteration of [for (const product of eligible)], for the product
    at position [i]; [continue] ends the iteration. *)
Definition tickItem (rev : Revision) (env : TickEnv) (i : nat)
    (product : Product) : M () :=
  let item := t_item env i in
  let settings := t_settings env in
  ok ← limiterCanRequest (i_gateNow item);
  when (negb ok)
       (wait ← limiterWaitTime (i_gateNow item); sleep wait);;
  (* Backoff: products with errors wait longer between retries *)
  let minDelay :=
    if MonitorState_eqb (p_monitorState product) Error
    then 5 * 60 * 1000 else 0 in
  let delay := Z.max (backoffDelay (i_backoffRnd item) (p_errorCount product))
                     minDelay in
  let since := i_backoffNow item - default 0 (p_lastChecked product) in
  if (0 <? p_errorCount product) && (since <? delay) then
    mret ()                                          (* continue *)
  else
    tryCatch
      (checkProduct rev product settings (i_check item);;
       limiterRecord (i_recordNow item))
      (λ err, emit (ConsoleError err));;
    sleep (jitter (i_pauseRnd item) 2000 (jitterPercent settings)).

Fixpoint tickLoop (rev : Revision) (env : TickEnv) (i : nat)
    (eligible : list Product) : M () :=
  match eligible with
  | [] => mret ()
  | product :: rest =>
      tickItem rev env i product;;
      tickLoop rev env (S i) rest
  end.

Definition refreshBadge : M () :=
  ps ← getProducts;
  emit (BadgeRefreshed
          (length (List.filter
                     (λ p, MonitorState_eqb (p_monitorState p) Active
                           && StockStatus_eqb (p_stockStatus p) InStock) ps))).

(** [monitorTick()] *)
Definition monitorTick (rev : Revision) (env : TickEnv) : M () :=
  λ w,
    if isChecking w then MkRun (inr ()) w []
    else
      tryFinally
        (ps ← getProducts;
         let eligible := List.filter eligibleProduct ps in
         if (length eligible =? 0)%nat then mret ()
         else
           when (negb (Qle_bool (1 # 10) (t_rotateRnd env))) (emit UserAgentRotated);;
           tickLoop rev env 0 eligible;;
           emit MonitorTabClosed;;
           refreshBadge)
        (withChecking false)
        (withChecking true w).

(** The message [CHECK_NOW]: the stored product is read and checked.
    The value tells whether the product was found. *)
Definition checkNow (rev : Revision) (id : string) (settings : Settings)
    (env : CheckEnv) : M bool :=
  product ← getProduct id;
  match product with
  | None => mret false
  | Some product =>
      checkProduct rev product settings env;;
      refreshBadge;;
      mret true
  end.

End Engine.

(* ================================================================== *)
(** ** The rest of storage.js *)
(* ================================================================== *)

(** A count as a template string renders it. *)
Definition decimal (n : nat) : string := NilZero.string_of_uint (Nat.to_uint n).

(** [addProduct(product)]. [maxProducts] is [settings.maxProducts], a
    count: the options page stores an integer from 1 to 100. *)
Definition addProduct (maxProducts : nat) (product : Product) : M () :=
  ps ← getProducts;
  if existsb (λ p, String.eqb (p_url p) (p_url product)) ps then
    throw (Text "Product URL is already being monitored.")
  else if (maxProducts <=? length ps)%nat then
    throw (Text ("Maximum product limit (" ++ decimal maxProducts ++ ") reached."))
  else
    saveProducts (ps ++ [product]).

(** [removeProduct(id)] *)
Definition removeProduct (id : string) : M () :=
  ps ← getProducts;
  saveProducts (List.filter (λ p, negb (String.eqb (p_id p) id)) ps).

(** [getLogs(limit, offset)] for a limit and an offset that are counts:
    [logs.slice(offset, offset + limit)]. *)
Definition getLogs (limit offset : nat) : M (list LogEntry) :=
  λ w, MkRun (inr (take limit (drop offset (logs w)))) w [].

Definition clearLogs : M () :=
  λ w, MkRun (inr ()) (withLogs [] w) [].

(* ================================================================== *)
(** ** The alarm and the messages that steer the monitoring *)
(* ================================================================== *)

(** [ensureAlarmRunning()]. [alarm] is the alarm of the monitor as
    [chrome.alarms.get] reports it: [None] when it is not set, else its
    [periodInMinutes]. The value is the alarm afterwards. *)
Definition ensureAlarmRunning (settings : Settings) (alarm : option Q)
  : M (option Q) :=
  ps ← getProducts;
  (* Keep alarm running for both active AND error products *)
  let hasMonitoring := existsb eligibleProduct ps in
  if negb hasMonitoring then
    mret None                                        (* chrome.alarms.clear *)
  else
    let periodInMinutes :=
      Math_max (checkIntervalSeconds settings / 60) (10 / 60) in
    match alarm with
    | Some period =>
        if Qgtb (Qabs (period - periodInMinutes)) (1 # 100)
        then mret (Some periodInMinutes)             (* chrome.alarms.create *)
        else mret alarm
    | None => mret (Some periodInMinutes)            (* chrome.alarms.create *)
    end.

(** The object literal [{ monitorState, errorCount: 0, lastError: null }]. *)
Definition restartAs (s : MonitorState) : Updates :=
  {| u_currentPrice := None; u_previousPrice := None; u_stockStatus := None;
     u_monitorState := Some s; u_lastChecked := None; u_lastInStock := None;
     u_errorCount := Some 0; u_lastError := Some None; u_history := None;
     u_name := None; u_imageUrl := None; u_maxPurchaseQty := None |}.

(** [for (const p of products) await updateProduct(p.id, updates)] *)
Fixpoint updateEach (updates : Updates) (ps : list Product) : M () :=
  match ps with
  | [] => mret ()
  | p :: rest => updateProduct (p_id p) updates;; updateEach updates rest
  end.

(** The handlers below are the cases of [handleMessage] with these names;
    they are the same in both revisions. Each yields the alarm it leaves.
    What a handler throws, the message listener turns into a failure
    response. *)

(** [None] is the response [Product not found.] *)
Definition TOGGLE_MONITOR (settings : Settings) (alarm : option Q) (id : string)
  : M (option Product * option Q) :=
  product ← getProduct id;
  match product with
  | None => mret (None, alarm)
  | Some product =>
      let newState :=
        if MonitorState_eqb (p_monitorState product) Active then Paused else Active in
      updated ← updateProduct id (restartAs newState);
      alarm' ← ensureAlarmRunning settings alarm;
      mret (Some updated, alarm')
  end.

Definition START_ALL (settings : Settings) (alarm : option Q) : M (option Q) :=
  ps ← getProducts;
  updateEach (restartAs Active) ps;;
  ensureAlarmRunning settings alarm.

Definition STOP_ALL : M (option Q) :=
  ps ← getProducts;
  updateEach (setMonitorState Paused noUpdates) ps;;
  mret None.                                         (* chrome.alarms.clear *)

Definition REMOVE_PRODUCT (settings : Settings) (alarm : option Q) (id : string)
  : M (option Q) :=
  removeProduct id;;
  alarm' ← ensureAlarmRunning settings alarm;
  refreshBadge;;
  mret alarm'.

(* ================================================================== *)
(** ** The options page *)
(* ================================================================== *)

Module OptionsPage.

(** [clamp(val, min, max)] *)
Definition clamp (val min max : Z) : Z := Z.min (Z.max val min) max.

(** [parseInt(text) || fallback]: [parseInt] yields an integer or [NaN],
    here [None]; [NaN] and 0 are falsy. *)
Definition orElse (parsed : option Z) (fallback : Z) : Z :=
  match parsed with
  | None | Some 0 => fallback
  | Some n => n
  end.

(** [parseFloat(text) || fallback] *)
Definition orElseQ (parsed : option Q) (fallback : Q) : Q :=
  match parsed with
  | None => fallback
  | Some x => if Qeq_bool x 0 then fallback else x
  end.

(** The form as [saveSettings] reads it: number fields after [parseInt] or
    [parseFloat], check boxes, and the text of the webhook field. *)
Record Form := {
  el_checkInterval : option Z;
  el_jitterPercent : option Z;
  el_maxProducts : option Z;
  el_notificationsEnabled : bool;
  el_audioAlertEnabled : bool;
  el_audioVolume : option Q;
  el_priceDropThreshold : option Z;
  el_globalAutoAdd : bool;
  el_autoCheckout : bool;
  el_checkoutConfirmGates : bool;
  el_webhookEnabled : bool;
  el_webhookUrl : string;
  el_maxHistory : option Z;
}.

(** The payload of the [UPDATE_SETTINGS] message. *)
Record Payload := {
  s_checkIntervalSeconds : Z;
  s_jitterPercent : Z;
  s_maxProducts : Z;
  s_notificationsEnabled : bool;
  s_audioAlertEnabled : bool;
  s_audioVolume : Q;
  s_priceDropThreshold : Z;
  s_globalAutoAdd : bool;
  s_autoCheckout : bool;
  s_checkoutConfirmGates : bool;
  s_webhookEnabled : bool;
  s_webhookUrl : string;
  s_maxHistoryPerProduct : Z;
}.

(** The object [settings] that [saveSettings()] builds. *)
Definition saveSettings (el : Form) : Payload := {|
  s_checkIntervalSeconds := clamp (orElse (el_checkInterval el) 30) 10 600;
  s_jitterPercent := clamp (orElse (el_jitterPercent el) 15) 0 50;
  s_maxProducts := clamp (orElse (el_maxProducts el) 50) 1 100;
  s_notificationsEnabled := el_notificationsEnabled el;
  s_audioAlertEnabled := el_audioAlertEnabled el;
  s_audioVolume := orElseQ (el_audioVolume el) (7 # 10);
  s_priceDropThreshold := clamp (orElse (el_priceDropThreshold el) 10) 1 90;
  s_globalAutoAdd := el_globalAutoAdd el;
  s_autoCheckout := el_autoCheckout el;
  s_checkoutConfirmGates := el_checkoutConfirmGates el;
  s_webhookEnabled := el_webhookEnabled el;
  s_webhookUrl := JsString.trim (el_webhookUrl el);
  s_maxHistoryPerProduct := clamp (orElse (el_maxHistory el) 500) 10 2000;
|}.

(** What [getSettings()] answers once [UPDATE_SETTINGS] has stored the
    payload: the payload carries every key the engine reads, so none of
    them comes from the previous settings or from [DEFAULT_SETTINGS]. *)
Definition stored (s : Payload) : Settings := {|
  checkIntervalSeconds := inject_Z (s_checkIntervalSeconds s);
  jitterPercent := inject_Z (s_jitterPercent s);
  globalAutoAdd := s_globalAutoAdd s;
  notificationsEnabled := s_notificationsEnabled s;
  audioAlertEnabled := s_audioAlertEnabled s;
  audioVolume := s_audioVolume s;
  priceDropThreshold := inject_Z (s_priceDropThreshold s);
  webhookUrl := s_webhookUrl s;
  webhookEnabled := s_webhookEnabled s;
  maxHistoryPerProduct := Z.to_nat (s_maxHistoryPerProduct s);
|}.

End OptionsPage.

(* ================================================================== *)
(** ** Vocabulary of the properties *)
(* ================================================================== *)

(** *** The rejection rules of the classifier, as the specification words
    them *)

Module Rules.

(** The name the rules look at: case-folded and trimmed; a missing name
    reads as the empty string. *)
Definition foldedName (d : Data) : string :=
  JsString.trim (JsString.toLowerCase (default EmptyString (d_name d))).

(** Rule 1: missing name, or name shorter than 3 characters after
    trimming. *)
Definition nameMissingOrShort (d : Data) : bool :=
  match d_name d with
  | None => true
  | Some n => (String.length (JsString.trim n) <? 3)%nat
  end.

(** Rule 2: the case-folded name contains a phrase of the junk list. *)
Definition containsJunkPhrase (d : Data) : bool :=
  existsb (λ j, JsString.includes (foldedName d) j) junkPhrases.

(** Rule 3: neither a usable price (above 0) nor a usable image
    reference (longer than 10 characters). *)
Definition usablePrice (d : Data) : bool :=
  match d_price d with Some x => Qgtb x 0 | None => false end.
Definition usableImage (d : Data) : bool :=
  match d_imageUrl d with Some i => (10 <? String.length i)%nat | None => false end.
Definition noPriceNoImage (d : Data) : bool :=
  negb (usablePrice d) && negb (usableImage d).

(** Rule 4: at least 6 words, at least 3 of them filler words. *)
Definition words (d : Data) : list string :=
  JsString.splitWhiteSpace (foldedName d).
Definition readsAsSentence (d : Data) : bool :=
  (6 <=? length (words d))%nat
  && (3 <=? length (List.filter (λ w, JsString.member w fillerWords) (words d)))%nat.

(** The rules in their order; the first one that matches rejects. *)
Definition firstMatch (d : Data) : option nat :=
  if nameMissingOrShort d then Some 1%nat
  else if containsJunkPhrase d then Some 2%nat
  else if noPriceNoImage d then Some 3%nat
  else if readsAsSentence d then Some 4%nat
  else None.

Definition rejects (d : Data) : bool :=
  nameMissingOrShort d || containsJunkPhrase d || noPriceNoImage d
  || readsAsSentence d.

End Rules.

(** *** Events of a check, read off the trace *)

(** The back-in-stock event: its log entry, notification or webhook. *)
Definition isRestocked (e : Effect) : bool :=
  match e with
  | Logged l => match l_event l with ev_in_stock => true | _ => false end
  | NotifiedInStock _ => true
  | Webhook _ _ hook_in_stock _ => true
  | _ => false
  end.

(** The price-drop event: its log entry, notification or webhook. *)
Definition isPriceDrop (e : Effect) : bool :=
  match e with
  | Logged l => match l_event l with ev_price_change => true | _ => false end
  | NotifiedPriceDrop _ _ _ => true
  | Webhook _ _ hook_price_drop _ => true
  | _ => false
  end.

Definition fires (event : Effect → bool) {A} (r : Run A) : Prop :=
  existsb event (trace r) = true.

(** *** Add-to-cart attempts, read off the trace *)

(** An attempt begins with the query for a tab to use. *)
Definition isAttempt (e : Effect) : bool :=
  match e with TabsQueried _ => true | _ => false end.

(** The pauses other than the 2 s settle pause of a freshly loaded tab. *)
Definition retryPauses (t : list Effect) : list Z :=
  omap (λ e, match e with
             | Slept ms => if ms =? 2000 then None else Some ms
             | _ => None
             end) t.

(** The pauses the retry loop makes when each of [attempts] fails. *)
Definition plannedPauses (attempts : list Z) : list Z :=
  omap (λ attempt, if attempt <? ADD_CART_MAX_RETRIES
                   then Some (ADD_CART_BASE_DELAY * 2 ^ (attempt - 1))
                   else None) attempts.

(** Every purchase request goes to a tab that was looked up since the
    previous request: [acquired] tells whether a lookup is pending. *)
Fixpoint freshPerAttempt (acquired : bool) (t : list Effect) : bool :=
  match t with
  | [] => true
  | TabsQueried _ :: t' => freshPerAttempt true t'
  | CartRequested _ _ _ _ :: t' => acquired && freshPerAttempt false t'
  | _ :: t' => freshPerAttempt acquired t'
  end.

(** An attempt failed: a browser call rejected, or the reply is missing or
    does not report success. *)
Definition attemptFailed (o : CartAttempt) : bool :=
  match rejection o with
  | Some _ => true
  | None => match response o with
            | Some resp => negb (r_success resp)
            | None => true
            end
  end.

(** *** What a check may change besides the product it checks *)

(** A product with its purchase limit blanked: the one key
    [triggerAddToCart] writes. *)
Definition eraseMaxQty (p : Product) : Product :=
  {| p_id := p_id p; p_url := p_url p; p_name := p_name p;
     p_imageUrl := p_imageUrl p; p_currentPrice := p_currentPrice p;
     p_previousPrice := p_previousPrice p; p_stockStatus := p_stockStatus p;
     p_monitorState := p_monitorState p; p_lastChecked := p_lastChecked p;
     p_lastInStock := p_lastInStock p; p_errorCount := p_errorCount p;
     p_lastError := p_lastError p; p_selectedVariants := p_selectedVariants p;
     p_autoAddToCart := p_autoAddToCart p; p_maxQuantity := p_maxQuantity p;
     p_maxPurchaseQty := None; p_history := p_history p |}.

Definition sameButMaxQty (ps ps' : list Product) : Prop :=
  eraseMaxQty <$> ps = eraseMaxQty <$> ps'.

(** [m] leaves every stored product as it is, purchase limit apart. *)
Definition gentle {A} (m : M A) : Prop :=
  ∀ w, sameButMaxQty (products w) (products (final (m w))).

(** [m] returns. *)
Definition returns {A} (m : M A) : Prop :=
  ∀ w, ∃ a, result (m w) = inr a.

(** [m] makes no outside call that [event] recognises. *)
Definition quiet (event : Effect → bool) {A} (m : M A) : Prop :=
  ∀ w, existsb event (trace (m w)) = false.

(** *** Invariants of the stored products *)

(** [m] keeps the invariant [I] of the list of stored products. *)
Definition keeps (I : list Product → Prop) {A} (m : M A) : Prop :=
  ∀ w, I (products w) → I (products (final (m w))).

(** [I] survives every [updateProduct] of a product whose id satisfies
    [touched], whatever the update is. *)
Definition stable (touched : string → Prop) (I : list Product → Prop) : Prop :=
  ∀ key u ps i q,
    touched key →
    list_find (λ p, p_id p = key) ps = Some (i, q) →
    I ps → I (<[i := merge q u]> ps).

(** The keys of a product that no update of the engine carries. *)
Definition ownedByUser (p : Product) : string * string * list string * bool * Z :=
  (p_id p, p_url p, p_selectedVariants p, p_autoAddToCart p, p_maxQuantity p).

(** The log entries a run wrote, in the order of the calls. *)
Definition logged (t : list Effect) : list LogEntry :=
  omap (λ e, match e with Logged l => Some l | _ => None end) t.

(** The stored log is the record of the [addLog] calls of [m]: they are in
    front of the entries that were there, newest first, and the log is cut
    at [MAX_LOGS]. *)
Definition journaled {A} (m : M A) : Prop :=
  ∀ w, (length (logs w) ≤ MAX_LOGS)%nat →
       logs (final (m w)) = take MAX_LOGS (rev (logged (trace (m w))) ++ logs w).

(** The error notification. *)
Definition isErrorNotice (e : Effect) : bool :=
  match e with NotifiedError _ _ => true | _ => false end.

(** The log entry of a product going out of stock. *)
Definition isSoldOut (e : Effect) : bool :=
  match e with
  | Logged l => match l_event l with ev_out_of_stock => true | _ => false end
  | _ => false
  end.

(** A purchase request to the content script. *)
Definition isCartRequest (e : Effect) : bool :=
  match e with CartRequested _ _ _ _ => true | _ => false end.

(** *** A successful add-to-bag attempt, read off the trace *)

(** The calls of an attempt up to the reply of the content script. *)
Definition approach (product : Product) (o : CartAttempt) : list Effect :=
  [TabsQueried (p_url product ++ "*")%string;
   (if existing o then TabNavigated (p_url product) else TabCreated (p_url product));
   Slept 2000;
   CartRequested (p_id product) (p_selectedVariants product) (p_maxQuantity product) true].

(** The log entry of a success. *)
Definition successEntry (product : Product) (cart : CartEnv) (attempt : Z)
    (resp : Response) : LogEntry :=
  logEntry (cartClock cart attempt) (p_id product) ev_add_to_cart
    (BagSucceededMsg (p_name product) (r_quantityRequested resp) (r_pageMax resp)
       (r_warning resp) attempt).

(** The reply carries a purchase limit to store: [result.pageMax > 0]. *)
Definition learnedLimit (resp : Response) : bool :=
  match r_pageMax resp with Some m => 0 <? m | None => false end.

(** The object literal [{ maxPurchaseQty: result.pageMax }]. *)
Definition limitUpdate (resp : Response) : Updates :=
  {| u_currentPrice := None; u_previousPrice := None;
     u_stockStatus := None; u_monitorState := None;
     u_lastChecked := None; u_lastInStock := None;
     u_errorCount := None; u_lastError := None;
     u_history := None; u_name := None; u_imageUrl := None;
     u_maxPurchaseQty := Some (r_pageMax resp) |}.

(** The number [refreshBadge] shows. *)
Definition badgeCount (ps : list Product) : nat :=
  length (List.filter (λ p, MonitorState_eqb (p_monitorState p) Active
                            && StockStatus_eqb (p_stockStatus p) InStock) ps).

(** *** Names and phrases *)

(** A candidate with another name. *)
Definition withName (name : option string) (d : Data) : Data :=
  {| d_name := name; d_price := d_price d; d_stockStatus := d_stockStatus d;
     d_imageUrl := d_imageUrl d; d_variants := d_variants d;
     d_maxPurchaseQty := d_maxPurchaseQty d |}.

(** White space only. *)
Fixpoint blank (s : string) : bool :=
  match s with
  | EmptyString => true
  | String c s' => JsString.isWhiteSpace c && blank s'
  end.

(** Not empty, and the first character is not white space. *)
Definition startsSolid (j : string) : bool :=
  match j with
  | EmptyString => false
  | String c _ => negb (JsString.isWhiteSpace c)
  end.

(** Not empty, and the last character is not white space. *)
Fixpoint endsSolid (j : string) : bool :=
  match j with
  | EmptyString => false
  | String c EmptyString => negb (JsString.isWhiteSpace c)
  | String _ j' => endsSolid j'
  end.

(** A concrete [nameFromUrl] for the worked examples: the fallback of the
    source function. *)
Definition nameFromUrl_fallback (url : string) : string := "Unknown Product".


(* ================================================================== *)
(** ** Worked examples *)
(* ================================================================== *)

(** A monitored product that is out of stock at 29.99. *)
Definition sampleProduct : Product := {|
  p_id := "p1";
  p_url := "https://www.kmart.com.au/product/pokemon-trading-card-game-43718702/";
  p_name := "Pokemon Trading Card Game";
  p_imageUrl := "https://www.kmart.com.au/assets/43718702.jpg";
  p_currentPrice := 2999 # 100;
  p_previousPrice := None;
  p_stockStatus := OutOfStock;
  p_monitorState := Active;
  p_lastChecked := Some 1000;
  p_lastInStock := None;
  p_errorCount := 0;
  p_lastError := None;
  p_selectedVariants := [];
  p_autoAddToCart := false;
  p_maxQuantity := 1;
  p_maxPurchaseQty := None;
  p_history := [];
|}.

Definition withErrorCount (n : Z) (p : Product) : Product :=
  merge p {| u_currentPrice := None; u_previousPrice := None; u_stockStatus := None;
             u_monitorState := None; u_lastChecked := None; u_lastInStock := None;
             u_errorCount := Some n; u_lastError := None; u_history := None;
             u_name := None; u_imageUrl := None; u_maxPurchaseQty := None |}.

Definition worldOf (ps : list Product) : World :=
  {| products := ps; logs := []; isChecking := false;
     limiter := RateLimiter.new 20 60000 |}.

Definition sampleWorld : World := worldOf [sampleProduct].

(** Every add-to-cart attempt opens a new tab and the content script
    reports a failure. *)
Definition failingCart : CartEnv := {|
  attemptOutcome := λ _,
    {| existing := false; rejection := None;
       response := Some {| r_success := false; r_quantityRequested := None;
                           r_pageMax := None; r_warning := None;
                           r_error := Some "Add to bag button not found" |} |};
  cartClock := λ attempt, 5000 + attempt;
|}.

Definition dataOf (name : string) (price : Q) (status : StockStatus)
    (imageUrl : string) : Data :=
  {| d_name := Some name; d_price := Some price; d_stockStatus := status;
     d_imageUrl := Some imageUrl; d_variants := []; d_maxPurchaseQty := None |}.

(** The page is back in stock at 24.99. *)
Definition restockedData : Data :=
  dataOf "Pokemon Trading Card Game" (2499 # 100) InStock
         "https://www.kmart.com.au/assets/43718702.jpg".

(** The price could not be read; the page still reports out of stock. *)
Definition unpricedData : Data :=
  dataOf "Pokemon Trading Card Game" 0 OutOfStock
         "https://www.kmart.com.au/assets/43718702.jpg".

(** A 404 page. *)
Definition notFoundData : Data := dataOf "Page Not Found" 0 Unknown EmptyString.

(** A bot challenge page. *)
Definition challengeData : Data := dataOf "Just a moment..." 0 Unknown EmptyString.

(** A page with a plausible title and neither price nor image. *)
Definition titleOnlyData : Data := dataOf "Pokemon cards" 0 Unknown EmptyString.

Definition envOf (fetch : Message + Data) : CheckEnv :=
  {| c_now := 2000; c_fetch := fetch; c_cart := failingCart |}.

(** The product after four failed checks, and after seven of them in the
    error state. *)
Definition shakyProduct : Product := withErrorCount 4 sampleProduct.
Definition degradedProduct : Product :=
  merge (withErrorCount 7 sampleProduct) (setMonitorState Error noUpdates).

(** The fetch fails: the content script returned no data. *)
Definition unreachable : Message + Data :=
  inl (Text "Content script returned no data.").

(** Five [CHECK_NOW] messages in a row, each meeting the 404 page. *)
Definition fiveJunkChecks : M bool :=
  checkNow nameFromUrl_fallback Newer "p1" DEFAULT_SETTINGS (envOf (inr notFoundData));;
  checkNow nameFromUrl_fallback Newer "p1" DEFAULT_SETTINGS (envOf (inr notFoundData));;
  checkNow nameFromUrl_fallback Newer "p1" DEFAULT_SETTINGS (envOf (inr notFoundData));;
  checkNow nameFromUrl_fallback Newer "p1" DEFAULT_SETTINGS (envOf (inr notFoundData));;
  checkNow nameFromUrl_fallback Newer "p1" DEFAULT_SETTINGS (envOf (inr notFoundData)).

(** A second product, paused by the user. *)
Definition pausedProduct : Product := {|
  p_id := "p2";
  p_url := "https://www.kmart.com.au/product/lego-classic-bricks-42953789/";
  p_name := "LEGO Classic Bricks";
  p_imageUrl := "https://www.kmart.com.au/assets/42953789.jpg";
  p_currentPrice := 45;
  p_previousPrice := None;
  p_stockStatus := InStock;
  p_monitorState := Paused;
  p_lastChecked := Some 500;
  p_lastInStock := Some 500;
  p_errorCount := 2;
  p_lastError := Some (Text "Content script returned no data.");
  p_selectedVariants := [];
  p_autoAddToCart := true;
  p_maxQuantity := 2;
  p_maxPurchaseQty := None;
  p_history := [];
|}.

Definition twoProducts : World := worldOf [sampleProduct; pausedProduct].

(** A tick in which every check meets the restocked page. *)
Definition restockTick : TickEnv := {|
  t_settings := DEFAULT_SETTINGS;
  t_rotateRnd := 1 # 2;
  t_item := λ _,
    {| i_gateNow := 2000; i_backoffRnd := 1 # 2; i_backoffNow := 2000;
       i_check := envOf (inr restockedData); i_recordNow := 2500;
       i_pauseRnd := 1 # 2 |};
|}.


(** The options form filled in carelessly: an interval and a history cap
    that are too small, a jitter that is too large, the volume at zero. *)
Definition sloppyForm : OptionsPage.Form := {|
  OptionsPage.el_checkInterval := Some 5;
  OptionsPage.el_jitterPercent := Some 80;
  OptionsPage.el_maxProducts := None;
  OptionsPage.el_notificationsEnabled := true;
  OptionsPage.el_audioAlertEnabled := true;
  OptionsPage.el_audioVolume := Some 0%Q;
  OptionsPage.el_priceDropThreshold := Some 10;
  OptionsPage.el_globalAutoAdd := false;
  OptionsPage.el_autoCheckout := false;
  OptionsPage.el_checkoutConfirmGates := true;
  OptionsPage.el_webhookEnabled := false;
  OptionsPage.el_webhookUrl := " https://example.org/hook ";
  OptionsPage.el_maxHistory := Some 5;
|}.

(** Every add-to-cart attempt opens a new tab and succeeds; the page
    reports a purchase limit of 2. *)
Definition obligingCart : CartEnv := {|
  attemptOutcome := λ _,
    {| existing := false; rejection := None;
       response := Some {| r_success := true; r_quantityRequested := Some 2;
                           r_pageMax := Some 2; r_warning := None;
                           r_error := None |} |};
  cartClock := λ attempt, 5000 + attempt;
|}.

(** The product listed at another price, and with a history. *)
Definition listedAt (price : Q) (p : Product) : Product :=
  merge p {| u_currentPrice := Some price; u_previousPrice := None;
             u_stockStatus := None; u_monitorState := None; u_lastChecked := None;
             u_lastInStock := None; u_errorCount := None; u_lastError := None;
             u_history := None; u_name := None; u_imageUrl := None;
             u_maxPurchaseQty := None |}.

Definition withHistory (history : list Snapshot) (p : Product) : Product :=
  merge p {| u_currentPrice := None; u_previousPrice := None;
             u_stockStatus := None; u_monitorState := None; u_lastChecked := None;
             u_lastInStock := None; u_errorCount := None; u_lastError := None;
             u_history := Some history; u_name := None; u_imageUrl := None;
             u_maxPurchaseQty := None |}.

(** The default settings with another price-drop threshold, and with
    another cap of the history. *)
Definition withThreshold (pct : Q) (s : Settings) : Settings := {|
  checkIntervalSeconds := checkIntervalSeconds s;
  jitterPercent := jitterPercent s;
  globalAutoAdd := globalAutoAdd s;
  notificationsEnabled := notificationsEnabled s;
  audioAlertEnabled := audioAlertEnabled s;
  audioVolume := audioVolume s;
  priceDropThreshold := pct;
  webhookUrl := webhookUrl s;
  webhookEnabled := webhookEnabled s;
  maxHistoryPerProduct := maxHistoryPerProduct s;
|}.

Definition withHistoryCap (cap : nat) (s : Settings) : Settings := {|
  checkIntervalSeconds := checkIntervalSeconds s;
  jitterPercent := jitterPercent s;
  globalAutoAdd := globalAutoAdd s;
  notificationsEnabled := notificationsEnabled s;
  audioAlertEnabled := audioAlertEnabled s;
  audioVolume := audioVolume s;
  priceDropThreshold := priceDropThreshold s;
  webhookUrl := webhookUrl s;
  webhookEnabled := webhookEnabled s;
  maxHistoryPerProduct := cap;
|}.

(** The page shows the product in stock at [price]. *)
Definition pricedData (price : Q) : Data :=
  dataOf "Pokemon Trading Card Game" price InStock
         "https://www.kmart.com.au/assets/43718702.jpg".

(** The product is stored at 100 and the check finds it at [price], the
    threshold of the price drop being [threshold] percent. *)
Definition repricedCheck (rev : Revision) (threshold price : Q) : Run () :=
  checkProduct nameFromUrl_fallback rev (listedAt 100 sampleProduct)
    (withThreshold threshold DEFAULT_SETTINGS) (envOf (inr (pricedData price)))
    (worldOf [listedAt 100 sampleProduct]).

(** Ten snapshots of the product out of stock, taken at 1000, 900, ...,
    100, the newest first. *)
Definition tenSnapshots : list Snapshot :=
  (λ i, {| s_timestamp := 1000 - 100 * Z.of_nat i; s_price := 2999 # 100;
           s_stockStatus := OutOfStock; s_variantsAvailable := [] |})
  <$> seq 0 10.

Local Close Scope string_scope.

(* ================================================================== *)
(** * Properties *)
(* ================================================================== *)

(** ** Running the monad *)

Lemma run_bind {A B} (m : M A) (f : A → M B) (w : World) :
  (m ≫= f) w =
  match result (m w) with
  | inl e => MkRun (inl e) (final (m w)) (trace (m w))
  | inr a => MkRun (result (f a (final (m w)))) (final (f a (final (m w))))
                   (trace (m w) ++ trace (f a (final (m w))))
  end.
Proof. reflexivity. Qed.

Lemma run_tryCatch {A} (m : M A) (h : Message → M A) (w : World) :
  tryCatch m h w =
  match result (m w) with
  | inl e => MkRun (result (h e (final (m w)))) (final (h e (final (m w))))
                   (trace (m w) ++ trace (h e (final (m w))))
  | inr a => m w
  end.
Proof. reflexivity. Qed.

Lemma run_eta {A} (r : Run A) : r = MkRun (result r) (final r) (trace r).
Proof. destruct r; reflexivity. Qed.

(** Sequencing after a computation that returns. *)
Lemma run_seq {A B} (m : M A) (k : M B) (w : World) :
  returns m →
  result ((m;; k) w) = result (k (final (m w)))
  ∧ final ((m;; k) w) = final (k (final (m w)))
  ∧ trace ((m;; k) w) = trace (m w) ++ trace (k (final (m w))).
Proof.
  intros Hm. destruct (Hm w) as [a Ha].
  rewrite run_bind, Ha. auto.
Qed.

(** ** The store *)

Lemma sameButMaxQty_refl ps : sameButMaxQty ps ps.
Proof. reflexivity. Qed.

Lemma sameButMaxQty_trans ps1 ps2 ps3 :
  sameButMaxQty ps1 ps2 → sameButMaxQty ps2 ps3 → sameButMaxQty ps1 ps3.
Proof. unfold sameButMaxQty; congruence. Qed.

Lemma sameButMaxQty_field {B} (f : Product → B) ps ps' :
  (∀ p, f (eraseMaxQty p) = f p) →
  sameButMaxQty ps ps' → f <$> ps = f <$> ps'.
Proof.
  intros Hf H.
  assert (E : ∀ l : list Product, f <$> l = f <$> (eraseMaxQty <$> l)).
  { intros l. rewrite <- list_fmap_compose. apply list_fmap_ext. intros; symmetry; apply Hf. }
  rewrite (E ps), (E ps'). unfold sameButMaxQty in H. congruence.
Qed.

Lemma list_find_id_erase (key : string) (ps : list Product) :
  list_find (λ p, p_id p = key) (eraseMaxQty <$> ps)
  = prod_map id eraseMaxQty <$> list_find (λ p, p_id p = key) ps.
Proof. rewrite list_find_fmap. reflexivity. Qed.

Lemma sameButMaxQty_find (key : string) ps ps' i q :
  sameButMaxQty ps ps' →
  list_find (λ p, p_id p = key) ps = Some (i, q) →
  ∃ q', list_find (λ p, p_id p = key) ps' = Some (i, q')
        ∧ eraseMaxQty q' = eraseMaxQty q.
Proof.
  intros H Hf.
  pose proof (list_find_id_erase key ps) as E1.
  pose proof (list_find_id_erase key ps') as E2.
  unfold sameButMaxQty in H. rewrite H in E1. rewrite E1 in E2.
  rewrite Hf in E2. cbn in E2.
  destruct (list_find _ ps') as [[j q']|]; cbn in E2; [|discriminate].
  assert (Hp : (i, eraseMaxQty q) = (j, eraseMaxQty q')) by congruence.
  pose proof (f_equal fst Hp) as Hi. pose proof (f_equal snd Hp) as He.
  cbn [fst snd] in Hi, He. subst j.
  exists q'. split; [reflexivity | symmetry; exact He].
Qed.

Lemma updateProduct_run (id : string) (u : Updates) (w : World) i q :
  list_find (λ p, p_id p = id) (products w) = Some (i, q) →
  updateProduct id u w
  = MkRun (inr (merge q u)) (withProducts (<[i := merge q u]> (products w)) w) [].
Proof.
  intros H. unfold updateProduct. rewrite run_bind. cbn.
  rewrite H. reflexivity.
Qed.

Lemma updateProduct_missing (id : string) (u : Updates) (w : World) :
  list_find (λ p, p_id p = id) (products w) = None →
  updateProduct id u w = MkRun (inl (NotFoundMsg id)) w [].
Proof.
  intros H. unfold updateProduct. rewrite run_bind. cbn.
  rewrite H. reflexivity.
Qed.

Lemma findProduct_Some (id : string) ps q :
  findProduct id ps = Some q ↔ ∃ i, list_find (λ p, p_id p = id) ps = Some (i, q).
Proof.
  unfold findProduct. destruct (list_find _ ps) as [[i p]|]; cbn; split.
  - intros [= ->]; eauto.
  - intros [j [= -> ->]]; reflexivity.
  - discriminate.
  - intros [j ?]; discriminate.
Qed.

Lemma merge_id p u : p_id (merge p u) = p_id p.
Proof. reflexivity. Qed.

(** After an update the store answers with the merged record. *)
Lemma list_find_insert_same (key : string) (ps : list Product) i q x :
  list_find (λ p, p_id p = key) ps = Some (i, q) →
  p_id x = p_id q →
  list_find (λ p, p_id p = key) (<[i := x]> ps) = Some (i, x).
Proof.
  intros H Hx. apply list_find_Some in H as (Hi & Hq & Hlt).
  apply list_find_Some. split; [|split].
  - apply list_lookup_insert_eq. eapply lookup_lt_Some; eauto.
  - congruence.
  - intros j y Hj Hji. rewrite list_lookup_insert_ne in Hj by lia. eauto.
Qed.

(** Products with another id are not touched by an update. *)
Lemma list_find_insert_other (key key' : string) (ps : list Product) i q x :
  list_find (λ p, p_id p = key) ps = Some (i, q) →
  p_id x = p_id q →
  key' ≠ key →
  findProduct key' (<[i := x]> ps) = findProduct key' ps.
Proof.
  intros H Hx Hne. unfold findProduct.
  apply list_find_Some in H as (Hi & Hq & _).
  destruct (list_find (λ p, p_id p = key') ps) as [[j y]|] eqn:E.
  - apply list_find_Some in E as (Hj & Hy & Hlt).
    assert (i ≠ j) by (intros ->; congruence).
    erewrite (proj2 (list_find_Some _ _ j y)); [reflexivity|].
    split; [|split]; [rewrite list_lookup_insert_ne by done; done | done |].
    intros k z Hk Hkj.
    destruct (decide (i = k)) as [->|Hik].
    + rewrite list_lookup_insert_eq in Hk by (eapply lookup_lt_Some; eauto).
      injection Hk as <-. congruence.
    + rewrite list_lookup_insert_ne in Hk by done. eauto.
  - apply list_find_None in E.
    erewrite (proj2 (list_find_None _ _)); [reflexivity|].
    apply Forall_insert; [done|]. cbn. congruence.
Qed.

(** ** Composition rules for [gentle], [returns] and [quiet] *)

Section Composition.
Context {A B : Type}.
Implicit Types (m : M A) (f : A → M B) (event : Effect → bool).

Lemma gentle_ret (a : A) : gentle (mret a : M A).
Proof. intros w. apply sameButMaxQty_refl. Qed.

Lemma gentle_throw (e : Message) : gentle (throw e : M A).
Proof. intros w. apply sameButMaxQty_refl. Qed.

Lemma gentle_bind m f : gentle m → (∀ a, gentle (f a)) → gentle (m ≫= f).
Proof.
  intros Hm Hf w. rewrite run_bind.
  destruct (result (m w)) as [e|a]; cbn; [apply Hm|].
  eapply sameButMaxQty_trans; [apply Hm | apply Hf].
Qed.

Lemma gentle_tryCatch m (h : Message → M A) :
  gentle m → (∀ e, gentle (h e)) → gentle (tryCatch m h).
Proof.
  intros Hm Hh w. rewrite run_tryCatch.
  destruct (result (m w)) as [e|a]; cbn; [|apply Hm].
  eapply sameButMaxQty_trans; [apply Hm | apply Hh].
Qed.

Lemma returns_ret (a : A) : returns (mret a : M A).
Proof. intros w. exists a. reflexivity. Qed.

Lemma returns_bind m f : returns m → (∀ a, returns (f a)) → returns (m ≫= f).
Proof.
  intros Hm Hf w. rewrite run_bind.
  destruct (Hm w) as [a ->]. cbn. apply Hf.
Qed.

Lemma returns_tryCatch m (h : Message → M A) :
  (∀ e, returns (h e)) → returns (tryCatch m h).
Proof.
  intros Hh w. rewrite run_tryCatch.
  destruct (result (m w)) as [e|a] eqn:E; cbn; [apply Hh | eauto].
Qed.

Lemma quiet_ret event (a : A) : quiet event (mret a : M A).
Proof. intros w. reflexivity. Qed.

Lemma quiet_throw event (e : Message) : quiet event (throw e : M A).
Proof. intros w. reflexivity. Qed.

Lemma quiet_bind event m f :
  quiet event m → (∀ a, quiet event (f a)) → quiet event (m ≫= f).
Proof.
  intros Hm Hf w. rewrite run_bind.
  destruct (result (m w)) as [e|a]; cbn; [apply Hm|].
  rewrite existsb_app, Hm, Hf. reflexivity.
Qed.

Lemma quiet_tryCatch event m (h : Message → M A) :
  quiet event m → (∀ e, quiet event (h e)) → quiet event (tryCatch m h).
Proof.
  intros Hm Hh w. rewrite run_tryCatch.
  destruct (result (m w)) as [e|a]; cbn; [|apply Hm].
  rewrite existsb_app, Hm, Hh. reflexivity.
Qed.
End Composition.

Lemma gentle_emit e : gentle (emit e).
Proof. intros w. apply sameButMaxQty_refl. Qed.

Lemma gentle_addLog entry : gentle (addLog entry).
Proof. intros w. apply sameButMaxQty_refl. Qed.

Lemma gentle_when b (m : M ()) : gentle m → gentle (when b m).
Proof. destruct b; [auto | intros _; apply gentle_ret]. Qed.

Lemma gentle_rejects step o : gentle (rejects step o).
Proof.
  unfold rejects. destruct (rejection o) as [[s err]|]; [|apply gentle_ret].
  destruct (CartStep_eqb s step); [apply gentle_throw | apply gentle_ret].
Qed.

(** An update that only writes the purchase limit. *)
Lemma gentle_updateProduct (key : string) (u : Updates) :
  (∀ p, eraseMaxQty (merge p u) = eraseMaxQty p) →
  gentle (updateProduct key u).
Proof.
  intros Hu w.
  destruct (list_find (λ p, p_id p = key) (products w)) as [[i q]|] eqn:E.
  - rewrite (updateProduct_run _ _ _ _ _ E). cbn.
    unfold sameButMaxQty. rewrite list_fmap_insert, Hu.
    symmetry. apply list_insert_id.
    rewrite list_lookup_fmap.
    apply list_find_Some in E as (-> & _). reflexivity.
  - rewrite (updateProduct_missing _ _ _ E). apply sameButMaxQty_refl.
Qed.

Lemma returns_emit e : returns (emit e).
Proof. intros w. exists (). reflexivity. Qed.

Lemma returns_addLog entry : returns (addLog entry).
Proof. intros w. exists (). reflexivity. Qed.

Lemma returns_when b (m : M ()) : returns m → returns (when b m).
Proof. destruct b; [auto | intros _; apply returns_ret]. Qed.

Lemma quiet_emit event e : event e = false → quiet event (emit e).
Proof. intros H w. cbn. rewrite H. reflexivity. Qed.

Lemma quiet_addLog event entry : event (Logged entry) = false → quiet event (addLog entry).
Proof. intros H w. cbn. rewrite H. reflexivity. Qed.

Lemma quiet_when event b (m : M ()) : quiet event m → quiet event (when b m).
Proof. destruct b; [auto | intros _; apply quiet_ret]. Qed.

Lemma quiet_rejects event step o : quiet event (rejects step o).
Proof.
  unfold rejects. destruct (rejection o) as [[s err]|]; [|apply quiet_ret].
  destruct (CartStep_eqb s step); [apply quiet_throw | apply quiet_ret].
Qed.

Lemma quiet_updateProduct event key u : quiet event (updateProduct key u).
Proof.
  intros w.
  destruct (list_find (λ p, p_id p = key) (products w)) as [[i q]|] eqn:E.
  - rewrite (updateProduct_run _ _ _ _ _ E). reflexivity.
  - rewrite (updateProduct_missing _ _ _ E). reflexivity.
Qed.

(** Breaks a goal about a composed computation into goals about its
    parts. *)
Ltac compose_step :=
  lazymatch goal with
  | |- gentle (updateProduct _ _) => apply gentle_updateProduct; reflexivity
  | |- gentle (addLog _) => apply gentle_addLog
  | |- gentle (emit _) => apply gentle_emit
  | |- gentle (rejects _ _) => apply gentle_rejects
  | |- gentle (when _ _) => apply gentle_when
  | |- gentle (mret _) => apply gentle_ret
  | |- gentle (throw _) => apply gentle_throw
  | |- gentle (tryCatch _ _) => apply gentle_tryCatch; [|intros ?]
  | |- gentle (_ ≫= _) => apply gentle_bind; [|intros ?]
  | |- gentle (if ?b then _ else _) => destruct b
  | |- gentle (match ?x with _ => _ end) => destruct x
  | |- returns (addLog _) => apply returns_addLog
  | |- returns (emit _) => apply returns_emit
  | |- returns (when _ _) => apply returns_when
  | |- returns (mret _) => apply returns_ret
  | |- returns (tryCatch _ _) => apply returns_tryCatch; intros ?
  | |- returns (_ ≫= _) => apply returns_bind; [|intros ?]
  | |- returns (if ?b then _ else _) => destruct b
  | |- returns (match ?x with _ => _ end) => destruct x
  | |- quiet _ (updateProduct _ _) => apply quiet_updateProduct
  | |- quiet _ (addLog _) => apply quiet_addLog; reflexivity
  | |- quiet _ (emit _) => apply quiet_emit; reflexivity
  | |- quiet _ (rejects _ _) => apply quiet_rejects
  | |- quiet _ (when _ _) => apply quiet_when
  | |- quiet _ (mret _) => apply quiet_ret
  | |- quiet _ (throw _) => apply quiet_throw
  | |- quiet _ (tryCatch _ _) => apply quiet_tryCatch; [|intros ?]
  | |- quiet _ (_ ≫= _) => apply quiet_bind; [|intros ?]
  | |- quiet _ (if ?b then _ else _) => destruct b
  | |- quiet _ (match ?x with _ => _ end) => destruct x
  end.

Ltac compose := repeat compose_step.

(** ** The add-to-cart automation *)

Lemma addToBagAttempt_gentle product cart attempt :
  gentle (addToBagAttempt product cart attempt).
Proof. unfold addToBagAttempt, settle, sleep. compose. Qed.

Lemma addToBagAttempt_returns product cart attempt :
  returns (addToBagAttempt product cart attempt).
Proof. unfold addToBagAttempt. compose. Qed.

Lemma addToBagAttempt_quiet event product cart attempt :
  (∀ l, l_event l = ev_add_to_cart → event (Logged l) = false) →
  (∀ ms, event (Slept ms) = false) →
  (∀ u, event (TabsQueried u) = false) →
  (∀ u, event (TabNavigated u) = false) →
  (∀ u, event (TabCreated u) = false) →
  event TabRemoved = false →
  (∀ a b c d, event (CartRequested a b c d) = false) →
  quiet event (addToBagAttempt product cart attempt).
Proof.
  intros Hl Hs Hq Hn Hc Hr Hm.
  unfold addToBagAttempt, settle, sleep. compose;
    try (apply quiet_addLog; apply Hl; reflexivity);
    try (apply quiet_emit; auto).
Qed.

Lemma addToBagAttempts_gentle product cart attempts lastError :
  gentle (addToBagAttempts product cart attempts lastError).
Proof.
  revert lastError. induction attempts as [|attempt rest IH]; intros lastError;
    cbn [addToBagAttempts]; unfold sleep; compose;
    first [apply IH | apply addToBagAttempt_gentle].
Qed.

Lemma addToBagAttempts_returns product cart attempts lastError :
  returns (addToBagAttempts product cart attempts lastError).
Proof.
  revert lastError. induction attempts as [|attempt rest IH]; intros lastError;
    cbn [addToBagAttempts]; unfold sleep; compose;
    first [apply IH | apply addToBagAttempt_returns].
Qed.

Lemma addToBagAttempts_quiet event product cart attempts lastError :
  (∀ l, l_event l = ev_error ∨ l_event l = ev_add_to_cart → event (Logged l) = false) →
  (∀ ms, event (Slept ms) = false) →
  (∀ u, event (TabsQueried u) = false) →
  (∀ u, event (TabNavigated u) = false) →
  (∀ u, event (TabCreated u) = false) →
  event TabRemoved = false →
  (∀ a b c d, event (CartRequested a b c d) = false) →
  (∀ m, event (ConsoleError m) = false) →
  quiet event (addToBagAttempts product cart attempts lastError).
Proof.
  intros Hl Hs Hq Hn Hc Hr Hm He.
  revert lastError. induction attempts as [|attempt rest IH]; intros lastError;
    cbn [addToBagAttempts]; unfold sleep; compose;
    try apply IH;
    try (apply addToBagAttempt_quiet; auto);
    try (apply quiet_addLog; apply Hl; cbn; auto);
    try (apply quiet_emit; auto).
Qed.

Lemma triggerAddToCart_gentle rev product cart :
  gentle (triggerAddToCart rev product cart).
Proof.
  destruct rev; cbn [triggerAddToCart];
    [unfold settle, sleep; compose | apply addToBagAttempts_gentle].
Qed.

Lemma triggerAddToCart_returns rev product cart :
  returns (triggerAddToCart rev product cart).
Proof.
  destruct rev; cbn [triggerAddToCart];
    [unfold settle, sleep; compose | apply addToBagAttempts_returns].
Qed.

Lemma triggerAddToCart_quiet_restocked rev product cart :
  quiet isRestocked (triggerAddToCart rev product cart).
Proof.
  destruct rev; cbn [triggerAddToCart].
  - unfold settle, sleep; compose.
  - apply addToBagAttempts_quiet; try reflexivity.
    intros l [H|H]; cbn; rewrite H; reflexivity.
Qed.

Lemma triggerAddToCart_quiet_priceDrop rev product cart :
  quiet isPriceDrop (triggerAddToCart rev product cart).
Proof.
  destruct rev; cbn [triggerAddToCart].
  - unfold settle, sleep; compose.
  - apply addToBagAttempts_quiet; try reflexivity.
    intros l [H|H]; cbn; rewrite H; reflexivity.
Qed.

(** ** The paths of [checkProduct] *)

Lemma checkProduct_valid_path nameFromUrl rev product settings env data w :
  c_fetch env = inr data →
  isValidProductData rev (Some data) = true →
  checkProduct nameFromUrl rev product settings env w
  = tryCatch (validPath rev product settings env data)
             (failurePath product settings env) w.
Proof.
  intros Hf Hv. unfold checkProduct.
  rewrite !run_tryCatch, run_bind.
  unfold fetchProductData. rewrite Hf. cbn [result final trace mret M_ret].
  rewrite Hv. cbn [negb app].
  destruct (validPath rev product settings env data w) as [[e|[]] fin tr];
    reflexivity.
Qed.

Lemma checkProduct_junk_path nameFromUrl rev product settings env data w :
  c_fetch env = inr data →
  isValidProductData rev (Some data) = false →
  checkProduct nameFromUrl rev product settings env w
  = tryCatch (junkPath nameFromUrl rev product settings env data)
             (failurePath product settings env) w.
Proof.
  intros Hf Hv. unfold checkProduct.
  rewrite !run_tryCatch, run_bind.
  unfold fetchProductData. rewrite Hf. cbn [result final trace mret M_ret].
  rewrite Hv. cbn [negb app].
  destruct (junkPath nameFromUrl rev product settings env data w) as [[e|[]] fin tr];
    reflexivity.
Qed.

Lemma checkProduct_failure_path nameFromUrl rev product settings env err w :
  c_fetch env = inl err →
  checkProduct nameFromUrl rev product settings env w
  = failurePath product settings env err w.
Proof.
  intros Hf. unfold checkProduct.
  rewrite run_tryCatch, run_bind.
  unfold fetchProductData. rewrite Hf. cbn [result final trace throw app].
  destruct (failurePath product settings env err w); reflexivity.
Qed.

(** *** What a failure writes *)

(** The store after the [catch] block, for a product that is stored. *)
Lemma failurePath_run product settings env err w i q :
  list_find (λ p, p_id p = p_id product) (products w) = Some (i, q) →
  let failed := merge q (failureUpdates (c_now env) (p_errorCount product + 1) err None) in
  let q' := if p_errorCount product + 1 =? 5
            then merge failed (setMonitorState Error noUpdates) else failed in
  let r := failurePath product settings env err w in
  result r = inr ()
  ∧ products (final r) = <[i := q']> (products w).
Proof.
  intros Hq failed q' r. subst r. unfold failurePath.
  rewrite run_bind, (updateProduct_run _ _ _ _ _ Hq). cbn [result final trace].
  rewrite run_bind. cbn [addLog result final trace].
  destruct (p_errorCount product + 1 =? 5) eqn:E5; cbn [when]; subst q'; cbn beta iota.
  - rewrite run_bind.
    rewrite (updateProduct_run (p_id product) _ _ i failed)
      by (cbn [products withLogs withProducts];
          eapply list_find_insert_same; [exact Hq|reflexivity]).
    cbn [result final trace products withProducts withLogs].
    rewrite list_insert_insert_eq.
    destruct (notificationsEnabled settings); cbn; auto.
  - cbn. auto.
Qed.

(** The store after the junk guard, for a product that is stored. *)
Lemma junkPath_run nameFromUrl rev product settings env data w i q :
  list_find (λ p, p_id p = p_id product) (products w) = Some (i, q) →
  let r := junkPath nameFromUrl rev product settings env data w in
  ∃ nameFix,
    result r = inr ()
    ∧ products (final r)
      = <[i := merge q (failureUpdates (c_now env) (p_errorCount product + 1)
                          (InvalidDataMsg (match d_name data with
                                           | Some (String _ _ as n) => n
                                           | _ => "empty"%string
                                           end)) nameFix)]> (products w)
    ∧ (rev = Older → nameFix = None)
    ∧ (nameFix = None ∨ nameFix = Some (nameFromUrl (p_url product))).
Proof.
  intros Hq r. subst r. unfold junkPath. cbv zeta.
  match goal with |- context [failureUpdates _ _ _ ?nf] => exists nf end.
  rewrite run_bind, (updateProduct_run _ _ _ _ _ Hq). cbn [result final trace].
  rewrite run_bind. cbn [addLog result final trace].
  split; [|split; [|split]].
  - destruct (p_errorCount product + 1 =? 10), (notificationsEnabled settings); reflexivity.
  - destruct (p_errorCount product + 1 =? 10), (notificationsEnabled settings); reflexivity.
  - intros ->. reflexivity.
  - destruct rev; [auto|]. destruct (negb _); auto.
Qed.

(** *** What a check of valid data does *)

Lemma run_seq_gentle {B} (m : M ()) (k : M B) (w : World) :
  returns m → gentle m →
  ∃ w1, sameButMaxQty (products w) (products w1)
        ∧ (m;; k) w = MkRun (result (k w1)) (final (k w1)) (trace (m w) ++ trace (k w1)).
Proof.
  intros Hr Hg. exists (final (m w)). split; [apply Hg|].
  rewrite run_bind. destruct (Hr w) as [a ->]. reflexivity.
Qed.

Section ValidPathFacts.

Variables (rev : Revision) (product : Product) (settings : Settings)
          (env : CheckEnv) (data : Data).

Lemma recoveryPart_returns : returns (recoveryPart product env).
Proof. unfold recoveryPart. compose. Qed.
Lemma recoveryPart_gentle : gentle (recoveryPart product env).
Proof. unfold recoveryPart. compose. Qed.

Lemma restockPart_returns : returns (restockPart rev product settings env data).
Proof. unfold restockPart. compose. apply triggerAddToCart_returns. Qed.
Lemma restockPart_gentle : gentle (restockPart rev product settings env data).
Proof. unfold restockPart. compose. apply triggerAddToCart_gentle. Qed.

Lemma soldOutPart_returns : returns (soldOutPart product env data).
Proof. unfold soldOutPart. compose. Qed.
Lemma soldOutPart_gentle : gentle (soldOutPart product env data).
Proof. unfold soldOutPart. compose. Qed.

Lemma priceDropPart_returns : returns (priceDropPart rev product settings env data).
Proof. unfold priceDropPart. compose. Qed.
Lemma priceDropPart_gentle : gentle (priceDropPart rev product settings env data).
Proof. unfold priceDropPart. compose. Qed.

(** A check of valid data, for a product that is stored: the four
    conditional parts run one after the other and leave the stored
    products alone (purchase limit apart), then the update is merged into
    the stored record and the check is logged. *)
Lemma validPath_run (w : World) i q :
  list_find (λ p, p_id p = p_id product) (products w) = Some (i, q) →
  let r := validPath rev product settings env data w in
  ∃ w1 w2 w3 w4 q1,
    eraseMaxQty q1 = eraseMaxQty q
    ∧ sameButMaxQty (products w) (products w4)
    ∧ result r = inr ()
    ∧ products (final r)
      = <[i := merge q1 (validUpdates rev product settings env data)]> (products w4)
    ∧ trace r
      = trace (recoveryPart product env w)
        ++ trace (restockPart rev product settings env data w1)
        ++ trace (soldOutPart product env data w2)
        ++ trace (priceDropPart rev product settings env data w3)
        ++ [Logged (logEntry (c_now env) (p_id product) ev_check
                      (CheckedMsg (d_stockStatus data) (newPrice product data)))].
Proof.
  intros Hq r. subst r. unfold validPath.
  destruct (run_seq_gentle (recoveryPart product env)
              (restockPart rev product settings env data;;
               soldOutPart product env data;;
               priceDropPart rev product settings env data;;
               persistPart rev product settings env data) w
              recoveryPart_returns recoveryPart_gentle) as (w1 & S1 & ->).
  destruct (run_seq_gentle (restockPart rev product settings env data)
              (soldOutPart product env data;;
               priceDropPart rev product settings env data;;
               persistPart rev product settings env data) w1
              restockPart_returns restockPart_gentle) as (w2 & S2 & ->).
  destruct (run_seq_gentle (soldOutPart product env data)
              (priceDropPart rev product settings env data;;
               persistPart rev product settings env data) w2
              soldOutPart_returns soldOutPart_gentle) as (w3 & S3 & ->).
  destruct (run_seq_gentle (priceDropPart rev product settings env data)
              (persistPart rev product settings env data) w3
              priceDropPart_returns priceDropPart_gentle) as (w4 & S4 & ->).
  assert (S : sameButMaxQty (products w) (products w4)).
  { eauto using sameButMaxQty_trans. }
  destruct (sameButMaxQty_find _ _ _ _ _ S Hq) as (q1 & Hq1 & E1).
  exists w1, w2, w3, w4, q1.
  unfold persistPart.
  rewrite run_bind, (updateProduct_run _ _ _ _ _ Hq1).
  cbn [result final trace addLog products withProducts withLogs app].
  repeat split; auto.
Qed.

End ValidPathFacts.

Section ValidCheck.

Variables (nameFromUrl : string → string) (rev : Revision) (product : Product)
          (settings : Settings) (env : CheckEnv) (data : Data).

Abbreviation U := (validUpdates rev product settings env data).

Lemma validUpdates_errorCount : u_errorCount U = Some 0.
Proof.
  unfold validUpdates, updatesAfterRestock, updatesAfterRecovery.
  destruct (decreased _ _), (restocked _ _), (recovered _); reflexivity.
Qed.

Lemma validUpdates_lastError : u_lastError U = Some None.
Proof.
  unfold validUpdates, updatesAfterRestock, updatesAfterRecovery.
  destruct (decreased _ _), (restocked _ _), (recovered _); reflexivity.
Qed.

Lemma validUpdates_currentPrice : u_currentPrice U = Some (newPrice product data).
Proof.
  unfold validUpdates, updatesAfterRestock, updatesAfterRecovery.
  destruct (decreased _ _), (restocked _ _), (recovered _); reflexivity.
Qed.

Lemma validUpdates_history : u_history U = Some (newHistory product settings env data).
Proof.
  unfold validUpdates, updatesAfterRestock, updatesAfterRecovery.
  destruct (decreased _ _), (restocked _ _), (recovered _); reflexivity.
Qed.

Lemma validUpdates_monitorState :
  u_monitorState U = if recovered product then Some Active else None.
Proof.
  unfold validUpdates, updatesAfterRestock, updatesAfterRecovery.
  destruct (decreased _ _), (restocked _ _), (recovered _); reflexivity.
Qed.

Lemma validUpdates_lastInStock :
  u_lastInStock U = if restocked product data then Some (c_now env) else None.
Proof.
  unfold validUpdates, updatesAfterRestock, updatesAfterRecovery.
  destruct (decreased _ _), (restocked _ _), (recovered _); reflexivity.
Qed.

Lemma validUpdates_previousPrice :
  u_previousPrice U
  = if decreased product data then Some (p_currentPrice product) else None.
Proof.
  unfold validUpdates, updatesAfterRestock, updatesAfterRecovery.
  destruct (decreased _ _), (restocked _ _), (recovered _); reflexivity.
Qed.

(** A check of valid data on a stored product returns, persists the
    merge of the stored record with [updates], and makes the calls of the
    four conditional parts followed by the check log entry. *)
Lemma checkProduct_valid (w : World) q :
  c_fetch env = inr data →
  isValidProductData rev (Some data) = true →
  findProduct (p_id product) (products w) = Some q →
  let r := checkProduct nameFromUrl rev product settings env w in
  ∃ w1 w2 w3 q1,
    eraseMaxQty q1 = eraseMaxQty q
    ∧ result r = inr ()
    ∧ findProduct (p_id product) (products (final r)) = Some (merge q1 U)
    ∧ trace r
      = trace (recoveryPart product env w)
        ++ trace (restockPart rev product settings env data w1)
        ++ trace (soldOutPart product env data w2)
        ++ trace (priceDropPart rev product settings env data w3)
        ++ [Logged (logEntry (c_now env) (p_id product) ev_check
                      (CheckedMsg (d_stockStatus data) (newPrice product data)))].
Proof.
  intros Hf Hv Hq r. subst r.
  apply findProduct_Some in Hq as [i Hq].
  rewrite (checkProduct_valid_path _ _ _ _ _ _ _ Hf Hv), run_tryCatch.
  destruct (validPath_run rev product settings env data w i q Hq)
    as (w1 & w2 & w3 & w4 & q1 & E1 & S & Hres & Hps & Htr).
  destruct (sameButMaxQty_find _ _ _ _ _ S Hq) as (q1' & Hq1 & _).
  rewrite Hres.
  exists w1, w2, w3, q1. repeat split; auto.
  rewrite Hps. apply findProduct_Some. exists i.
  apply (list_find_insert_same _ _ _ q1'); [exact Hq1|].
  rewrite merge_id.
  transitivity (p_id (eraseMaxQty q1)); [reflexivity|].
  transitivity (p_id (eraseMaxQty q)); [congruence|].
  apply list_find_Some in Hq as (_ & Hid & _).
  apply list_find_Some in Hq1 as (_ & Hid' & _).
  cbn. congruence.
Qed.

(** Which parts of a valid check announce a restock or a price drop. *)
Lemma recoveryPart_quiet_restocked : quiet isRestocked (recoveryPart product env).
Proof. unfold recoveryPart. compose. Qed.
Lemma soldOutPart_quiet_restocked : quiet isRestocked (soldOutPart product env data).
Proof. unfold soldOutPart. compose. Qed.
Lemma priceDropPart_quiet_restocked :
  quiet isRestocked (priceDropPart rev product settings env data).
Proof. unfold priceDropPart. compose. Qed.

Lemma recoveryPart_quiet_priceDrop : quiet isPriceDrop (recoveryPart product env).
Proof. unfold recoveryPart. compose. Qed.
Lemma soldOutPart_quiet_priceDrop : quiet isPriceDrop (soldOutPart product env data).
Proof. unfold soldOutPart. compose. Qed.
Lemma restockPart_quiet_priceDrop :
  quiet isPriceDrop (restockPart rev product settings env data).
Proof. unfold restockPart. compose. apply triggerAddToCart_quiet_priceDrop. Qed.

Lemma restockPart_fires w :
  existsb isRestocked (trace (restockPart rev product settings env data w))
  = restocked product data.
Proof.
  unfold restockPart. destruct (restocked product data); [|reflexivity].
  cbn [when]. rewrite run_bind. reflexivity.
Qed.

Lemma priceDropPart_fires w :
  existsb isPriceDrop (trace (priceDropPart rev product settings env data w))
  = decreased product data && crossesThreshold product settings data.
Proof.
  unfold priceDropPart.
  destruct (decreased product data && crossesThreshold product settings data);
    [|reflexivity].
  cbn [when]. rewrite run_bind. reflexivity.
Qed.

Lemma priceDropPart_entry w :
  decreased product data && crossesThreshold product settings data = true →
  In (Logged (priceDropEntry (c_now env) (p_id product) (dropPct product data)
                             (p_currentPrice product) (newPrice product data)))
     (trace (priceDropPart rev product settings env data w)).
Proof.
  intros H. unfold priceDropPart. rewrite H.
  cbn [when]. rewrite run_bind. left. reflexivity.
Qed.

Lemma priceDropPart_notice w :
  decreased product data && crossesThreshold product settings data = true →
  notificationsEnabled settings = true →
  In (NotifiedPriceDrop (merge product (validUpdates rev product settings env data))
                        (p_currentPrice product) (newPrice product data))
     (trace (priceDropPart rev product settings env data w)).
Proof.
  intros H Hn. unfold priceDropPart. rewrite H, Hn.
  cbn [when]. rewrite !run_bind. cbn. right. left. reflexivity.
Qed.

Lemma checkProduct_valid_restocked (w : World) q :
  c_fetch env = inr data →
  isValidProductData rev (Some data) = true →
  findProduct (p_id product) (products w) = Some q →
  existsb isRestocked (trace (checkProduct nameFromUrl rev product settings env w))
  = restocked product data.
Proof.
  intros Hf Hv Hq.
  destruct (checkProduct_valid w q Hf Hv Hq) as (w1 & w2 & w3 & q1 & _ & _ & _ & ->).
  rewrite !existsb_app, recoveryPart_quiet_restocked, restockPart_fires,
    soldOutPart_quiet_restocked, priceDropPart_quiet_restocked.
  cbn. rewrite !orb_false_r. reflexivity.
Qed.

Lemma checkProduct_valid_priceDrop (w : World) q :
  c_fetch env = inr data →
  isValidProductData rev (Some data) = true →
  findProduct (p_id product) (products w) = Some q →
  existsb isPriceDrop (trace (checkProduct nameFromUrl rev product settings env w))
  = decreased product data && crossesThreshold product settings data.
Proof.
  intros Hf Hv Hq.
  destruct (checkProduct_valid w q Hf Hv Hq) as (w1 & w2 & w3 & q1 & _ & _ & _ & ->).
  rewrite !existsb_app, recoveryPart_quiet_priceDrop, restockPart_quiet_priceDrop,
    soldOutPart_quiet_priceDrop, priceDropPart_fires.
  cbn. rewrite !orb_false_r. reflexivity.
Qed.

End ValidCheck.

(** *** What a failed check writes *)

Lemma checkProduct_junk nameFromUrl rev product settings env data (w : World) q :
  c_fetch env = inr data →
  isValidProductData rev (Some data) = false →
  findProduct (p_id product) (products w) = Some q →
  let r := checkProduct nameFromUrl rev product settings env w in
  ∃ nameFix,
    let q' := merge q (failureUpdates (c_now env) (p_errorCount product + 1)
                         (InvalidDataMsg (match d_name data with
                                          | Some (String _ _ as n) => n
                                          | _ => "empty"%string
                                          end)) nameFix) in
    result r = inr ()
    ∧ findProduct (p_id product) (products (final r)) = Some q'
    ∧ (∀ other, other ≠ p_id product →
         findProduct other (products (final r)) = findProduct other (products w))
    ∧ (rev = Older → nameFix = None)
    ∧ (nameFix = None ∨ nameFix = Some (nameFromUrl (p_url product))).
Proof.
  intros Hf Hv Hq r. subst r.
  apply findProduct_Some in Hq as [i Hq].
  rewrite (checkProduct_junk_path _ _ _ _ _ _ _ Hf Hv), run_tryCatch.
  destruct (junkPath_run nameFromUrl rev product settings env data w i q Hq)
    as (nameFix & Hres & Hps & Hold & Hnew).
  rewrite Hres. exists nameFix. cbv zeta. rewrite Hps.
  repeat split; auto.
  - apply findProduct_Some. exists i.
    eapply list_find_insert_same; [exact Hq | reflexivity].
  - intros other Hne.
    eapply list_find_insert_other; [exact Hq | reflexivity | exact Hne].
Qed.

Lemma checkProduct_failure nameFromUrl rev product settings env err (w : World) q :
  c_fetch env = inl err →
  findProduct (p_id product) (products w) = Some q →
  let r := checkProduct nameFromUrl rev product settings env w in
  let failed := merge q (failureUpdates (c_now env) (p_errorCount product + 1) err None) in
  let q' := if p_errorCount product + 1 =? 5
            then merge failed (setMonitorState Error noUpdates) else failed in
  result r = inr ()
  ∧ findProduct (p_id product) (products (final r)) = Some q'
  ∧ (∀ other, other ≠ p_id product →
       findProduct other (products (final r)) = findProduct other (products w)).
Proof.
  intros Hf Hq r failed q'. subst r.
  apply findProduct_Some in Hq as [i Hq].
  rewrite (checkProduct_failure_path _ _ _ _ _ _ _ Hf).
  destruct (failurePath_run product settings env err w i q Hq) as (Hres & Hps).
  rewrite Hres, Hps. fold failed. fold q'.
  assert (Hid : p_id q' = p_id q).
  { subst q' failed. destruct (_ =? 5); reflexivity. }
  repeat split.
  - apply findProduct_Some. exists i.
    eapply list_find_insert_same; [exact Hq | exact Hid].
  - intros other Hne.
    eapply list_find_insert_other; [exact Hq | exact Hid | exact Hne].
Qed.

(** ** The scheduler tick *)

Lemma limiterCanRequest_returns now : returns (limiterCanRequest now).
Proof.
  intros w. unfold limiterCanRequest.
  destruct (RateLimiter.canRequest now (limiter w)) as [ok r]. eauto.
Qed.

Lemma limiterWaitTime_returns now : returns (limiterWaitTime now).
Proof.
  intros w. unfold limiterWaitTime.
  destruct (RateLimiter.waitTime now (limiter w)) as [ms r]. eauto.
Qed.

(** One iteration of the loop returns, whatever the check of its product
    does: what [checkProduct] throws is caught and reported. *)
Lemma tickItem_returns nameFromUrl rev env i product :
  returns (tickItem nameFromUrl rev env i product).
Proof.
  unfold tickItem, sleep. compose;
    first [apply limiterCanRequest_returns | apply limiterWaitTime_returns].
Qed.

Lemma tickLoop_returns nameFromUrl rev env i eligible :
  returns (tickLoop nameFromUrl rev env i eligible).
Proof.
  revert i. induction eligible as [|product rest IH]; intros i; cbn [tickLoop].
  - apply returns_ret.
  - apply returns_bind; [apply tickItem_returns | intros _; apply IH].
Qed.

(** After the iteration of one product the loop goes on with the products
    that follow. *)
Lemma tickLoop_cons nameFromUrl rev env i product rest (w : World) :
  let item := tickItem nameFromUrl rev env i product w in
  let remainder := tickLoop nameFromUrl rev env (S i) rest (final item) in
  tickLoop nameFromUrl rev env i (product :: rest) w
  = MkRun (result remainder) (final remainder) (trace item ++ trace remainder).
Proof.
  cbn [tickLoop]. rewrite run_bind.
  destruct (tickItem_returns nameFromUrl rev env i product w) as [[] ->].
  reflexivity.
Qed.

(** The tick itself returns and leaves the single-flight flag cleared. *)
Lemma monitorTick_returns nameFromUrl rev env (w : World) :
  result (monitorTick nameFromUrl rev env w) = inr ()
  ∧ (isChecking w = false → isChecking (final (monitorTick nameFromUrl rev env w)) = false).
Proof.
  unfold monitorTick. destruct (isChecking w) eqn:E; [split; [reflexivity|discriminate]|].
  unfold tryFinally. cbn [result final]. split; [|reflexivity].
  match goal with |- result (?m ?w') = _ =>
    assert (H : returns m); [|destruct (H w') as [[] ->]; reflexivity] end.
  apply returns_bind; [intros w'; eexists; reflexivity|]. intros ps.
  destruct (_ =? _)%nat; [apply returns_ret|].
  unfold refreshBadge. compose.
  - apply tickLoop_returns.
  - intros w'. eexists. reflexivity.
Qed.

(** ** The shape of the add-to-cart traces *)

Lemma freshPerAttempt_mono t :
  freshPerAttempt false t = true → freshPerAttempt true t = true.
Proof.
  induction t as [|e t IH]; [reflexivity|].
  destruct e; cbn; auto. discriminate.
Qed.

(** Runs a composed computation step by step. *)
Ltac run :=
  repeat (first [rewrite run_tryCatch | rewrite run_bind | progress unfold when];
          cbn [result final trace emit throw mret M_ret settle sleep when addLog
               rejects rejection CartStep_eqb existing response negb app
               products withLogs withProducts]).

Ltac finish_attempt :=
  split; [reflexivity|]; split; [reflexivity|];
  split; [intros x Hx; cbn; auto|];
  eexists; split; [reflexivity | intros; cbn in *; congruence].

(** One attempt of the newer service worker: it returns, starts with one
    tab lookup, makes no retry pause, asks the content script at most once
    and after the lookup, and yields an error when the attempt failed. *)
Lemma addToBagAttempt_shape product cart attempt (w : World) :
  let r := addToBagAttempt product cart attempt w in
  length (List.filter isAttempt (trace r)) = 1%nat
  ∧ retryPauses (trace r) = []
  ∧ (∀ x, freshPerAttempt false x = true → freshPerAttempt false (trace r ++ x) = true)
  ∧ (∃ v, result r = inr v
          ∧ (attemptFailed (attemptOutcome cart attempt) = true → v ≠ None)).
Proof.
  unfold addToBagAttempt, attemptFailed.
  destruct (attemptOutcome cart attempt) as [ex rej resp].
  cbn [existing rejection response].
  assert (M : ∀ x, freshPerAttempt false x = true → freshPerAttempt true x = true)
    by apply freshPerAttempt_mono.
  assert (Hup : ∀ u (w' : World), products w' = products w →
            (∃ p w'', updateProduct (p_id product) u w' = MkRun (inr p) w'' [])
            ∨ (∃ e, updateProduct (p_id product) u w' = MkRun (inl e) w' [])).
  { intros u w' Hw.
    destruct (list_find (λ p, p_id p = p_id product) (products w')) as [[i q]|] eqn:E.
    - left. rewrite (updateProduct_run _ _ _ _ _ E). eauto.
    - right. rewrite (updateProduct_missing _ _ _ E). eauto. }
  destruct rej as [[[] err]|], ex; run; try finish_attempt.
  all: destruct resp as [resp|]; [destruct (r_success resp) eqn:Hs|]; run;
    try finish_attempt.
  all: destruct (r_pageMax resp) as [m|]; [destruct (0 <? m)|]; run;
    try finish_attempt.
  all: match goal with |- context [updateProduct ?k ?u ?w'] =>
         destruct (Hup u w' eq_refl) as [(p & w'' & ->)|(e & ->)] end; run;
    finish_attempt.
Qed.

Lemma retry_delay_not_settle attempt :
  (ADD_CART_BASE_DELAY * 2 ^ (attempt - 1) =? 2000) = false.
Proof. apply Z.eqb_neq. unfold ADD_CART_BASE_DELAY. lia. Qed.

(** What the loop does between a failed attempt and the next one. *)
Lemma betweenAttempts_run (c b : bool) (d : Z) (rec : M ()) (w : World) :
  (when c (emit TabRemoved);; when b (sleep d);; rec) w
  = MkRun (result (rec w)) (final (rec w))
          ((if c then [TabRemoved] else [])
           ++ (if b then [Slept d] else []) ++ trace (rec w)).
Proof. destruct c, b; run; reflexivity. Qed.

(** The retry loop of the newer service worker over the attempt numbers
    [attempts]: at most one lookup per number, pauses as planned and only
    between attempts, every request on a freshly looked-up tab; when every
    attempt fails, all of them are made and the failure is logged last. *)
Lemma addToBagAttempts_shape product cart attempts lastError (w : World) :
  let r := addToBagAttempts product cart attempts lastError w in
  (length (List.filter isAttempt (trace r)) ≤ length attempts)%nat
  ∧ (∃ rest, plannedPauses attempts = retryPauses (trace r) ++ rest)
  ∧ freshPerAttempt false (trace r) = true
  ∧ ((∀ a, In a attempts → attemptFailed (attemptOutcome cart a) = true) →
     length (List.filter isAttempt (trace r)) = length attempts
     ∧ retryPauses (trace r) = plannedPauses attempts
     ∧ ∃ t cause,
         trace r = t ++ [Logged (logEntry (cartClock cart (ADD_CART_MAX_RETRIES + 1))
                                          (p_id product) ev_error
                                          (BagFailedMsg ADD_CART_MAX_RETRIES cause))]).
Proof.
  revert lastError w.
  induction attempts as [|a rest IH]; intros lastError w; cbn [addToBagAttempts].
  - run. cbn [List.filter isAttempt length]. repeat split; auto.
    + exists []. reflexivity.
    + exists [ConsoleError (BagFailedMsg ADD_CART_MAX_RETRIES lastError)], lastError.
      reflexivity.
  - cbv zeta. rewrite run_bind.
    destruct (addToBagAttempt_shape product cart a w) as (Hc & Hp & Hfresh & v & Hres & Hfail).
    rewrite Hres. destruct v as [e|]; cbn [result final trace].
    + rewrite betweenAttempts_run. cbn [trace].
      set (w1 := final (addToBagAttempt product cart a w)).
      destruct (IH e w1) as (IHc & (more & IHp) & IHf & IHall).
      set (tr := trace (addToBagAttempts product cart rest e w1)) in *.
      set (c := createdTab (attemptOutcome cart a)).
      assert (Hmid : ∀ (b : bool) d,
                 List.filter isAttempt ((if c then [TabRemoved] else [])
                                        ++ (if b then [Slept d] else []) ++ tr)
                 = List.filter isAttempt tr).
      { intros b d. destruct c, b; reflexivity. }
      assert (Hmidp : ∀ (b : bool),
                 retryPauses ((if c then [TabRemoved] else [])
                              ++ (if b then [Slept (ADD_CART_BASE_DELAY * 2 ^ (a - 1))] else [])
                              ++ tr)
                 = (if b then [ADD_CART_BASE_DELAY * 2 ^ (a - 1)] else []) ++ retryPauses tr).
      { intros b. unfold retryPauses.
        destruct c, b; cbn [app omap list_omap];
          rewrite ?retry_delay_not_settle; reflexivity. }
      assert (Hcount : length (List.filter isAttempt
                         (trace (addToBagAttempt product cart a w)
                          ++ (if c then [TabRemoved] else [])
                          ++ (if a <? ADD_CART_MAX_RETRIES
                              then [Slept (ADD_CART_BASE_DELAY * 2 ^ (a - 1))] else [])
                          ++ tr))
                       = S (length (List.filter isAttempt tr))).
      { rewrite List.filter_app, length_app, Hc, Hmid. reflexivity. }
      assert (Hpauses : retryPauses
                          (trace (addToBagAttempt product cart a w)
                           ++ (if c then [TabRemoved] else [])
                           ++ (if a <? ADD_CART_MAX_RETRIES
                               then [Slept (ADD_CART_BASE_DELAY * 2 ^ (a - 1))] else [])
                           ++ tr)
                        = (if a <? ADD_CART_MAX_RETRIES
                           then [ADD_CART_BASE_DELAY * 2 ^ (a - 1)] else [])
                          ++ retryPauses tr).
      { unfold retryPauses at 1. rewrite omap_app.
        fold (retryPauses (trace (addToBagAttempt product cart a w))).
        rewrite Hp. cbn [app]. apply Hmidp. }
      assert (Hplan : plannedPauses (a :: rest)
                      = (if a <? ADD_CART_MAX_RETRIES
                         then [ADD_CART_BASE_DELAY * 2 ^ (a - 1)] else [])
                        ++ plannedPauses rest).
      { unfold plannedPauses. cbn [omap list_omap].
        destruct (a <? ADD_CART_MAX_RETRIES); reflexivity. }
      rewrite Hcount, Hpauses, Hplan.
      split; [cbn [length]; lia|]. split; [|split].
      * exists more. rewrite IHp, <- app_assoc. reflexivity.
      * apply Hfresh.
        destruct c, (a <? ADD_CART_MAX_RETRIES); cbn [app freshPerAttempt]; exact IHf.
      * intros Hall.
        destruct IHall as (IHn & IHq & t & cause & IHt).
        { intros a' Ha'. apply Hall. right. exact Ha'. }
        split; [cbn [length]; congruence|]. split; [congruence|].
        exists (trace (addToBagAttempt product cart a w)
                ++ (if c then [TabRemoved] else [])
                ++ (if a <? ADD_CART_MAX_RETRIES
                    then [Slept (ADD_CART_BASE_DELAY * 2 ^ (a - 1))] else [])
                ++ t), cause.
        rewrite IHt, <- !app_assoc. reflexivity.
    + cbn [length]. rewrite app_nil_r, Hc, Hp.
      split; [lia|]. split; [exists (plannedPauses (a :: rest)); reflexivity|].
      split.
      * specialize (Hfresh [] eq_refl). rewrite app_nil_r in Hfresh. exact Hfresh.
      * intros Hall. exfalso. apply Hfail; [|reflexivity].
        apply Hall. left. reflexivity.
Qed.

(** The single try of the older service worker. *)
Lemma triggerAddToCart_older_shape product cart (w : World) :
  let r := triggerAddToCart Older product cart w in
  length (List.filter isAttempt (trace r)) = 1%nat
  ∧ retryPauses (trace r) = []
  ∧ freshPerAttempt false (trace r) = true
  ∧ (∀ step err,
       rejection (attemptOutcome cart 1) = Some (step, err) →
       (step = AtOpen → existing (attemptOutcome cart 1) = false) →
       ∃ t, trace r = t ++ [Logged (logEntry (cartClock cart 1) (p_id product)
                                             ev_error (CartFailedMsg err))]).
Proof.
  cbn [triggerAddToCart]. cbv zeta.
  destruct (attemptOutcome cart 1) as [ex rej resp].
  cbn [existing rejection response].
  destruct rej as [[[] err]|], ex; run;
    (split; [reflexivity|]; split; [reflexivity|]; split; [reflexivity|]);
    intros step err' [= <- <-] Hopen;
    try discriminate (Hopen eq_refl);
    try (eexists [_]; reflexivity);
    try (eexists [_; _]; reflexivity);
    try (eexists [_; _; _]; reflexivity);
    try (eexists [_; _; _; _]; reflexivity);
    try (eexists [_; _; _; _; _]; reflexivity).
  all: intros step err' [=].
Qed.

(** The older [triggerAddToCart] when no browser call rejects: the reply
    of the content script is not looked at. *)
Lemma triggerAddToCart_older_unrejected product cart (w : World) :
  rejection (attemptOutcome cart 1) = None →
  trace (triggerAddToCart Older product cart w)
  = TabsQueried (p_url product ++ "*")
    :: (if existing (attemptOutcome cart 1) then []
        else [TabCreated (p_url product); Slept 2000])
    ++ [CartRequested (p_id product) (p_selectedVariants product)
                      (p_maxQuantity product) false;
        Logged (logEntry (cartClock cart 1) (p_id product) ev_add_to_cart
                         (CartTriggeredMsg (p_name product)))].
Proof.
  cbn [triggerAddToCart]. cbv zeta.
  destruct (attemptOutcome cart 1) as [ex rej resp].
  cbn [existing rejection response]. intros ->.
  destruct ex; run; reflexivity.
Qed.

(** A pause that is not the settle pause is one of the retry pauses. *)
Lemma retryPauses_In ms (t : list Effect) :
  In (Slept ms) t → ms = 2000 ∨ In ms (retryPauses t).
Proof.
  intros H. destruct (Z.eq_dec ms 2000) as [->|Hne]; [left; reflexivity|].
  right. unfold retryPauses. apply list_elem_of_In, list_elem_of_omap.
  exists (Slept ms). split; [apply list_elem_of_In; exact H|].
  cbn. apply Z.eqb_neq in Hne. rewrite Hne. reflexivity.
Qed.

(** ** The classifier against its rules *)

(** The newer classifier rejects exactly the candidates that one of the
    four rules rejects. *)
Lemma newer_classifier_follows_rules (d : Data) :
  isValidProductData Newer (Some d) = negb (Rules.rejects d)
  ∧ (isValidProductData Newer (Some d) = false ↔ Rules.firstMatch d ≠ None).
Proof.
  unfold isValidProductData, Rules.rejects, Rules.firstMatch, Rules.nameMissingOrShort,
    Rules.containsJunkPhrase, Rules.noPriceNoImage, Rules.readsAsSentence, Rules.words,
    Rules.usablePrice, Rules.usableImage, Rules.foldedName.
  destruct (d_name d) as [[|c n]|]; cbn [default from_option id].
  - split; [reflexivity|]. split; [discriminate | reflexivity].
  - destruct (String.length (JsString.trim (String c n)) <? 3)%nat;
      [split; [reflexivity | split; [discriminate | reflexivity]]|].
    destruct (existsb _ junkPhrases);
      [split; [reflexivity | split; [discriminate | reflexivity]]|].
    cbn [orb].
    destruct (negb _ && negb _);
      [split; [reflexivity | split; [discriminate | reflexivity]]|].
    cbn [orb].
    destruct (_ && _);
      split; try reflexivity; split; try discriminate; try reflexivity;
      intros H; exfalso; apply H; reflexivity.
  - split; [reflexivity|]. split; [discriminate | reflexivity].
Qed.

(** The older classifier knows rule 1 and its own, shorter junk list. *)
Lemma older_classifier_rules (d : Data) :
  isValidProductData Older (Some d)
  = negb (Rules.nameMissingOrShort d
          || existsb (λ j, JsString.includes
                             (JsString.toLowerCase (default EmptyString (d_name d))) j)
                     junkNames).
Proof.
  unfold isValidProductData, Rules.nameMissingOrShort.
  destruct (d_name d) as [[|c n]|]; cbn [default from_option id]; try reflexivity.
  destruct (existsb _ junkNames); [rewrite orb_true_r; reflexivity|].
  rewrite orb_false_r.
  destruct (String.length (JsString.trim (String c n)) <? 3)%nat; reflexivity.
Qed.

(* ================================================================== *)
(** * The claims *)
(* ================================================================== *)

Lemma Qgtb_true x y : Qgtb x y = true ↔ (y < x)%Q.
Proof.
  unfold Qgtb. rewrite negb_true_iff, <- not_true_iff_false, Qle_bool_iff.
  split; [apply Qnot_le_lt | apply Qlt_not_le].
Qed.

Lemma Qltb_true x y : Qltb x y = true ↔ (x < y)%Q.
Proof. apply Qgtb_true. Qed.

Lemma Qgtb_false x y : Qgtb x y = false ↔ (x <= y)%Q.
Proof. unfold Qgtb. rewrite negb_false_iff. apply Qle_bool_iff. Qed.

Lemma Qltb_irrefl x : Qltb x x = false.
Proof. apply Qgtb_false. apply Qle_refl. Qed.

Lemma Qgeb_true x y : Qgeb x y = true ↔ (x >= y)%Q.
Proof. unfold Qgeb. apply Qle_bool_iff. Qed.

(** C7. A check of valid data on a stored product persists [errorCount = 0]
    and [lastError = null], whatever the error count was, and a product in
    the error state goes back to active. *)
Theorem valid_check_resets_errors
    nameFromUrl rev product settings env data (w : World) q :
  c_fetch env = inr data →
  isValidProductData rev (Some data) = true →
  findProduct (p_id product) (products w) = Some q →
  let r := checkProduct nameFromUrl rev product settings env w in
  ∃ q', findProduct (p_id product) (products (final r)) = Some q'
        ∧ p_errorCount q' = 0
        ∧ p_lastError q' = None
        ∧ (p_monitorState product = Error → p_monitorState q' = Active).
Proof.
  intros Hf Hv Hq r.
  destruct (checkProduct_valid nameFromUrl rev product settings env data w q Hf Hv Hq)
    as (w1 & w2 & w3 & q1 & E & _ & Hfind & _).
  eexists. split; [exact Hfind|].
  cbn [merge p_errorCount p_lastError p_monitorState].
  rewrite validUpdates_errorCount, validUpdates_lastError, validUpdates_monitorState.
  repeat split.
  intros He. unfold recovered. rewrite He. reflexivity.
Qed.

(** C1, as the code has it. For a stored, active product a check moves
    [monitorState] to the error state exactly when the fetch fails (the
    check throws) and the resulting error count is 5. A junk-classified
    check raises the error count and never changes [monitorState]. *)
Theorem error_state_entered_by_fifth_fetch_failure
    nameFromUrl rev product settings env (w : World) :
  findProduct (p_id product) (products w) = Some product →
  p_monitorState product = Active →
  let r := checkProduct nameFromUrl rev product settings env w in
  ∃ q', findProduct (p_id product) (products (final r)) = Some q'
        ∧ (p_monitorState q' = Error
           ↔ (∃ err, c_fetch env = inl err) ∧ p_errorCount product + 1 = 5)
        ∧ (∀ data, c_fetch env = inr data →
             isValidProductData rev (Some data) = false →
             p_monitorState q' = Active
             ∧ p_errorCount q' = p_errorCount product + 1).
Proof.
  intros Hq Ha r. subst r.
  destruct (c_fetch env) as [err|data] eqn:Hf.
  - destruct (checkProduct_failure nameFromUrl rev product settings env err w _ Hf Hq)
      as (_ & Hfind & _).
    eexists. split; [exact Hfind|]. split; [|intros data [=]].
    destruct (p_errorCount product + 1 =? 5) eqn:E5; cbn; rewrite ?Ha.
    + apply Z.eqb_eq in E5. split; eauto.
    + apply Z.eqb_neq in E5. split; [discriminate|]. intros [_ ?]. contradiction.
  - destruct (isValidProductData rev (Some data)) eqn:Hv.
    + destruct (checkProduct_valid nameFromUrl rev product settings env data w _ Hf Hv Hq)
        as (w1 & w2 & w3 & q1 & E & _ & Hfind & _).
      eexists. split; [exact Hfind|]. split.
      * cbn [merge p_monitorState]. rewrite validUpdates_monitorState.
        unfold recovered. rewrite Ha. cbn.
        pose proof (f_equal p_monitorState E) as Em. cbn in Em. rewrite Em, Ha.
        split; [discriminate | intros [[err [=]] _]].
      * intros data' [= <-] Hv'. congruence.
    + destruct (checkProduct_junk nameFromUrl rev product settings env data w _ Hf Hv Hq)
        as (nameFix & _ & Hfind & _).
      eexists. split; [exact Hfind|]. cbn. rewrite Ha. split.
      * split; [discriminate | intros [[err [=]] _]].
      * intros _ _ _. auto.
Qed.

(** C3. On a check of valid data with a positive old price and a lower,
    positive new price the persisted [previousPrice] is the old price,
    however small the decrease. The price-drop event (log entry,
    notification, webhook) is emitted exactly when the percentage the code
    computes, [((oldPrice - newPrice) / oldPrice) * 100] with each of the
    three operators rounding to binary64, is at least
    [settings.priceDropThreshold]; below it nothing is emitted. The log
    entry of the event carries [oldPrice], [newPrice] and the computed
    percentage, its notification [oldPrice] and [newPrice]. *)
Theorem price_drop_follows_the_computed_percentage
    nameFromUrl rev product settings env data price (w : World) q :
  c_fetch env = inr data →
  isValidProductData rev (Some data) = true →
  findProduct (p_id product) (products w) = Some q →
  d_price data = Some price →
  (0 < p_currentPrice product)%Q →
  (0 < price)%Q →
  (price < p_currentPrice product)%Q →
  let oldPrice := p_currentPrice product in
  let computed :=
    Binary64.mul (Binary64.div (Binary64.sub oldPrice price) oldPrice) 100 in
  let r := checkProduct nameFromUrl rev product settings env w in
  (∃ q', findProduct (p_id product) (products (final r)) = Some q'
         ∧ p_previousPrice q' = Some oldPrice
         ∧ p_currentPrice q' = price)
  ∧ (fires isPriceDrop r ↔ (priceDropThreshold settings <= computed)%Q)
  ∧ ((priceDropThreshold settings <= computed)%Q →
     In (Logged {| l_timestamp := c_now env; l_productId := p_id product;
                   l_event := ev_price_change;
                   l_details := PriceDroppedMsg computed oldPrice price;
                   l_oldPrice := Some oldPrice; l_newPrice := Some price |})
        (trace r)
     ∧ (notificationsEnabled settings = true →
        ∃ shown, In (NotifiedPriceDrop shown oldPrice price) (trace r))).
Proof.
  intros Hf Hv Hq Hp Hold Hnew Hlt oldPrice computed r. subst r computed oldPrice.
  assert (Hnp : newPrice product data = price).
  { unfold newPrice. rewrite Hp. rewrite (proj2 (Qgtb_true _ _) Hnew). reflexivity. }
  assert (Hdec : decreased product data = true).
  { unfold decreased. rewrite Hnp.
    rewrite (proj2 (Qgtb_true _ _) Hnew), (proj2 (Qgtb_true _ _) Hold),
      (proj2 (Qltb_true _ _) Hlt). reflexivity. }
  assert (Hpct : dropPct product data
                 = Binary64.mul
                     (Binary64.div (Binary64.sub (p_currentPrice product) price)
                                   (p_currentPrice product)) 100).
  { unfold dropPct. rewrite Hnp. reflexivity. }
  assert (Hcross : crossesThreshold product settings data = true
                   ↔ (priceDropThreshold settings
                      <= Binary64.mul
                           (Binary64.div (Binary64.sub (p_currentPrice product) price)
                                         (p_currentPrice product)) 100)%Q).
  { unfold crossesThreshold. rewrite Hpct. apply Qgeb_true. }
  destruct (checkProduct_valid nameFromUrl rev product settings env data w q Hf Hv Hq)
    as (w1 & w2 & w3 & q1 & E & _ & Hfind & Htr).
  split; [|split].
  - eexists. split; [exact Hfind|].
    cbn [merge p_previousPrice p_currentPrice].
    rewrite validUpdates_previousPrice, validUpdates_currentPrice, Hdec, Hnp.
    split; reflexivity.
  - unfold fires.
    rewrite (checkProduct_valid_priceDrop nameFromUrl rev product settings env data w q Hf Hv Hq).
    rewrite Hdec. cbn [andb]. exact Hcross.
  - intros Hreached. apply Hcross in Hreached.
    assert (Hboth : decreased product data && crossesThreshold product settings data
                    = true) by (rewrite Hdec, Hreached; reflexivity).
    split.
    + rewrite Htr, !in_app_iff. right; right; right; left.
      pose proof (priceDropPart_entry rev product settings env data w3 Hboth) as Hin.
      rewrite Hpct, Hnp in Hin. exact Hin.
    + intros Hnotify. eexists. rewrite Htr, !in_app_iff.
      right; right; right; left. rewrite <- Hnp.
      apply (priceDropPart_notice rev product settings env data w3 Hboth Hnotify).
Qed.

(** C4. On a check of valid data the back-in-stock event (log entry,
    notification, webhook) fires exactly when the new status is in stock
    and the old status is out of stock or unknown, and then the persisted
    [lastInStock] is the time of the check; it fires neither from in stock
    to in stock nor from limited to in stock. *)
Theorem restocked_fires_iff
    nameFromUrl rev product settings env data (w : World) q :
  c_fetch env = inr data →
  isValidProductData rev (Some data) = true →
  findProduct (p_id product) (products w) = Some q →
  let r := checkProduct nameFromUrl rev product settings env w in
  (fires isRestocked r
   ↔ d_stockStatus data = InStock
     ∧ (p_stockStatus product = OutOfStock ∨ p_stockStatus product = Unknown))
  ∧ (fires isRestocked r →
     ∃ q', findProduct (p_id product) (products (final r)) = Some q'
           ∧ p_lastInStock q' = Some (c_now env))
  ∧ (p_stockStatus product = InStock → ¬ fires isRestocked r)
  ∧ (p_stockStatus product = Limited → ¬ fires isRestocked r).
Proof.
  intros Hf Hv Hq r. subst r. unfold fires.
  rewrite (checkProduct_valid_restocked nameFromUrl rev product settings env data w q Hf Hv Hq).
  destruct (checkProduct_valid nameFromUrl rev product settings env data w q Hf Hv Hq)
    as (w1 & w2 & w3 & q1 & E & _ & Hfind & _).
  split; [|split; [|split]].
  - unfold restocked.
    destruct (d_stockStatus data), (p_stockStatus product); cbn;
      intuition (auto; discriminate).
  - intros Hr. eexists. split; [exact Hfind|].
    cbn [merge p_lastInStock]. rewrite validUpdates_lastInStock, Hr. reflexivity.
  - intros Hs. unfold restocked. rewrite Hs.
    destruct (d_stockStatus data); cbn; discriminate.
  - intros Hs. unfold restocked. rewrite Hs.
    destruct (d_stockStatus data); cbn; discriminate.
Qed.

Lemma newHistory_take product settings env data :
  newHistory product settings env data
  = take (maxHistoryPerProduct settings)
         (newSnapshot product env data :: p_history product).
Proof.
  unfold newHistory. cbv zeta.
  destruct (_ <? _)%nat eqn:E; [reflexivity|].
  apply Nat.ltb_ge in E. symmetry. apply take_ge. exact E.
Qed.

(** C6. On a check of valid data the persisted history is the old history
    with the snapshot of this check put in front, cut to
    [maxHistoryPerProduct]. The snapshot holds the time of the check, the
    fetched price (the old price when the fetched one is missing or not
    above 0), the fetched stock status and the values of the available
    variants. The length of the persisted history never exceeds the cap,
    what is cut off is the tail (the oldest entries), and for a cap of at
    least 1 the snapshot is the first entry. *)
Theorem history_prepended_and_capped
    nameFromUrl rev product settings env data (w : World) q :
  c_fetch env = inr data →
  isValidProductData rev (Some data) = true →
  findProduct (p_id product) (products w) = Some q →
  let r := checkProduct nameFromUrl rev product settings env w in
  let cap := maxHistoryPerProduct settings in
  let snapshot :=
    {| s_timestamp := c_now env;
       s_price := match d_price data with
                  | Some price => if Qgtb price 0 then price else p_currentPrice product
                  | None => p_currentPrice product
                  end;
       s_stockStatus := d_stockStatus data;
       s_variantsAvailable :=
         List.map v_value (List.filter v_available (d_variants data)) |} in
  ∃ q', findProduct (p_id product) (products (final r)) = Some q'
        ∧ p_history q' = take cap (snapshot :: p_history product)
        ∧ (length (p_history q') ≤ cap)%nat
        ∧ (∃ dropped, snapshot :: p_history product = p_history q' ++ dropped
                      ∧ length dropped = (S (length (p_history product)) - cap)%nat)
        ∧ ((0 < cap)%nat →
           p_history q' = snapshot :: take (cap - 1) (p_history product)).
Proof.
  intros Hf Hv Hq r cap snapshot. subst r.
  destruct (checkProduct_valid nameFromUrl rev product settings env data w q Hf Hv Hq)
    as (w1 & w2 & w3 & q1 & E & _ & Hfind & _).
  eexists. split; [exact Hfind|].
  cbn [merge p_history]. rewrite validUpdates_history. cbn [default from_option id].
  rewrite newHistory_take. fold cap.
  change (newSnapshot product env data) with snapshot.
  split; [reflexivity|]. split; [|split].
  - rewrite length_take. lia.
  - exists (drop cap (snapshot :: p_history product)).
    split; [symmetry; apply take_drop|].
    rewrite length_drop. reflexivity.
  - intros Hcap. destruct cap as [|c]; [lia|].
    cbn [take]. replace (S c - 1)%nat with c by lia. reflexivity.
Qed.

(** C10. On a check of valid data whose fetched price is missing or not
    above 0 the old price is reused: it is the persisted [currentPrice] and
    the price of the history entry, [previousPrice] is left alone and no
    price-drop event is emitted. *)
Theorem unparsed_price_keeps_old_price
    nameFromUrl rev product settings env data (w : World) q :
  c_fetch env = inr data →
  isValidProductData rev (Some data) = true →
  findProduct (p_id product) (products w) = Some q →
  (∀ price, d_price data = Some price → (price <= 0)%Q) →
  let r := checkProduct nameFromUrl rev product settings env w in
  let oldPrice := p_currentPrice product in
  (∃ q', findProduct (p_id product) (products (final r)) = Some q'
         ∧ p_currentPrice q' = oldPrice
         ∧ p_previousPrice q' = p_previousPrice q
         ∧ p_history q'
           = take (maxHistoryPerProduct settings)
                  ({| s_timestamp := c_now env; s_price := oldPrice;
                      s_stockStatus := d_stockStatus data;
                      s_variantsAvailable :=
                        List.map v_value (List.filter v_available (d_variants data)) |}
                   :: p_history product))
  ∧ ¬ fires isPriceDrop r.
Proof.
  intros Hf Hv Hq Hp r oldPrice. subst r oldPrice.
  assert (Hnp : newPrice product data = p_currentPrice product).
  { unfold newPrice. destruct (d_price data) as [price|]; [|reflexivity].
    rewrite (proj2 (Qgtb_false _ _) (Hp price eq_refl)). reflexivity. }
  assert (Hdec : decreased product data = false).
  { unfold decreased. rewrite Hnp, Qltb_irrefl. apply andb_false_r. }
  split.
  - destruct (checkProduct_valid nameFromUrl rev product settings env data w q Hf Hv Hq)
      as (w1 & w2 & w3 & q1 & E & _ & Hfind & _).
    eexists. split; [exact Hfind|].
    cbn [merge p_currentPrice p_previousPrice p_history].
    rewrite validUpdates_currentPrice, validUpdates_previousPrice,
      validUpdates_history, Hdec, Hnp, newHistory_take.
    unfold newSnapshot. rewrite Hnp. cbn [default from_option id].
    pose proof (f_equal p_previousPrice E) as Ep. cbn in Ep.
    repeat split; auto.
  - unfold fires.
    rewrite (checkProduct_valid_priceDrop nameFromUrl rev product settings env data w q Hf Hv Hq).
    rewrite Hdec. discriminate.
Qed.

(** C8. A junk-classified check of a stored product returns and rewrites
    the stored record in [lastChecked], [errorCount] (the count of the
    checked product plus 1), [lastError] and, in the newer service worker
    when the stored name is itself junk, [name]; price, stock status,
    image and history stay as stored, and so does every other product.
    In the tick the iteration of the product returns as well, and the loop
    goes on with the products that follow. *)
Theorem junk_check_keeps_product_data
    nameFromUrl rev product settings env data (w : World) q :
  c_fetch env = inr data →
  isValidProductData rev (Some data) = false →
  findProduct (p_id product) (products w) = Some q →
  let r := checkProduct nameFromUrl rev product settings env w in
  result r = inr ()
  ∧ (∃ q' name' lastError',
       findProduct (p_id product) (products (final r)) = Some q'
       ∧ p_currentPrice q' = p_currentPrice q
       ∧ p_stockStatus q' = p_stockStatus q
       ∧ p_imageUrl q' = p_imageUrl q
       ∧ p_history q' = p_history q
       ∧ q' = {| p_id := p_id q; p_url := p_url q;
                 p_name := name';
                 p_imageUrl := p_imageUrl q;
                 p_currentPrice := p_currentPrice q;
                 p_previousPrice := p_previousPrice q;
                 p_stockStatus := p_stockStatus q;
                 p_monitorState := p_monitorState q;
                 p_lastChecked := Some (c_now env);
                 p_lastInStock := p_lastInStock q;
                 p_errorCount := p_errorCount product + 1;
                 p_lastError := Some lastError';
                 p_selectedVariants := p_selectedVariants q;
                 p_autoAddToCart := p_autoAddToCart q;
                 p_maxQuantity := p_maxQuantity q;
                 p_maxPurchaseQty := p_maxPurchaseQty q;
                 p_history := p_history q |}
       ∧ (name' = p_name q
          ∨ rev = Newer ∧ name' = nameFromUrl (p_url product)))
  ∧ (∀ other, other ≠ p_id product →
       findProduct other (products (final r)) = findProduct other (products w))
  ∧ (∀ tick i rest (w0 : World),
       let item := tickItem nameFromUrl rev tick i product w0 in
       let remainder := tickLoop nameFromUrl rev tick (S i) rest (final item) in
       result item = inr ()
       ∧ tickLoop nameFromUrl rev tick i (product :: rest) w0
         = MkRun (result remainder) (final remainder) (trace item ++ trace remainder)).
Proof.
  intros Hf Hv Hq r. subst r.
  destruct (checkProduct_junk nameFromUrl rev product settings env data w q Hf Hv Hq)
    as (nameFix & Hres & Hfind & Hother & Hold & Hnew).
  split; [exact Hres|]. split; [|split; [exact Hother|]].
  - eexists. exists (default (p_name q) nameFix). eexists.
    split; [exact Hfind|]. cbn. repeat split.
    destruct Hnew as [-> | ->]; cbn; [auto|].
    right. split; [|reflexivity].
    destruct rev; [|reflexivity]. discriminate (Hold eq_refl).
  - intros tick i rest w0 item remainder. split.
    + subst item. destruct (tickItem_returns nameFromUrl rev tick i product w0) as [[] ->].
      reflexivity.
    + apply tickLoop_cons.
Qed.

(** Discharges a closed side condition by evaluation. *)
Ltac evaluate :=
  first [ reflexivity
        | vm_compute; first [reflexivity | discriminate | lia | intuition discriminate] ].

Lemma valid_check_resets_errors_witness :
  ∃ q', findProduct "p1"
          (products (final (checkProduct nameFromUrl_fallback Newer degradedProduct
                              DEFAULT_SETTINGS (envOf (inr restockedData))
                              (worldOf [degradedProduct]))))
        = Some q'
        ∧ p_errorCount q' = 0
        ∧ p_lastError q' = None
        ∧ (p_monitorState degradedProduct = Error → p_monitorState q' = Active).
Proof.
  apply (valid_check_resets_errors nameFromUrl_fallback Newer degradedProduct
           DEFAULT_SETTINGS (envOf (inr restockedData)) restockedData
           (worldOf [degradedProduct]) degradedProduct); evaluate.
Defined.

Lemma error_state_entered_by_fifth_fetch_failure_witness :
  ∃ q', findProduct "p1"
          (products (final (checkProduct nameFromUrl_fallback Older shakyProduct
                              DEFAULT_SETTINGS (envOf unreachable)
                              (worldOf [shakyProduct]))))
        = Some q'
        ∧ (p_monitorState q' = Error
           ↔ (∃ err, c_fetch (envOf unreachable) = inl err)
             ∧ p_errorCount shakyProduct + 1 = 5)
        ∧ (∀ data, c_fetch (envOf unreachable) = inr data →
             isValidProductData Older (Some data) = false →
             p_monitorState q' = Active
             ∧ p_errorCount q' = p_errorCount shakyProduct + 1).
Proof.
  apply (error_state_entered_by_fifth_fetch_failure nameFromUrl_fallback Older
           shakyProduct DEFAULT_SETTINGS (envOf unreachable) (worldOf [shakyProduct]));
    evaluate.
Defined.

(** C1, counterexample. Five junk-classified checks in a row on an active
    product bring its error count to 5 and leave it active. *)
Lemma five_junk_checks_leave_product_active :
  isValidProductData Newer (Some notFoundData) = false
  ∧ p_monitorState <$> findProduct "p1" (products sampleWorld) = Some Active
  ∧ p_errorCount <$> findProduct "p1" (products (final (fiveJunkChecks sampleWorld)))
    = Some 5
  ∧ p_monitorState <$> findProduct "p1" (products (final (fiveJunkChecks sampleWorld)))
    ≠ Some Error.
Proof. vm_compute. repeat split; discriminate. Qed.

Lemma price_drop_follows_the_computed_percentage_witness :
  (fires isPriceDrop (repricedCheck Newer 10 75)
   ∧ In (Logged {| l_timestamp := 2000; l_productId := "p1"%string;
                   l_event := ev_price_change;
                   l_details := PriceDroppedMsg 25 100 75;
                   l_oldPrice := Some 100%Q; l_newPrice := Some 75%Q |})
        (trace (repricedCheck Newer 10 75))
   ∧ (∃ shown, In (NotifiedPriceDrop shown 100 75) (trace (repricedCheck Newer 10 75)))
   ∧ p_previousPrice <$> findProduct "p1" (products (final (repricedCheck Newer 10 75)))
     = Some (Some 100%Q))
  ∧ (¬ fires isPriceDrop (repricedCheck Older 29 71)
     ∧ p_previousPrice <$> findProduct "p1" (products (final (repricedCheck Older 29 71)))
       = Some (Some 100%Q)).
Proof.
  split.
  - destruct (price_drop_follows_the_computed_percentage nameFromUrl_fallback Newer
                (listedAt 100 sampleProduct) (withThreshold 10 DEFAULT_SETTINGS)
                (envOf (inr (pricedData 75))) (pricedData 75) 75
                (worldOf [listedAt 100 sampleProduct]) (listedAt 100 sampleProduct))
      as ((q' & Hq' & Hprev & _) & Hfires & Hevent);
      [evaluate | evaluate | evaluate | evaluate | evaluate | evaluate | evaluate |].
    assert (Hreached : (priceDropThreshold (withThreshold 10 DEFAULT_SETTINGS)
                        <= Binary64.mul
                             (Binary64.div
                                (Binary64.sub (p_currentPrice (listedAt 100 sampleProduct)) 75)
                                (p_currentPrice (listedAt 100 sampleProduct))) 100)%Q)
      by (vm_compute; discriminate).
    destruct (Hevent Hreached) as (Hentry & Hnotice).
    split; [apply Hfires; exact Hreached|].
    split; [exact Hentry|].
    split; [apply Hnotice; reflexivity|].
    transitivity (p_previousPrice <$> Some q');
      [exact (f_equal (fmap p_previousPrice) Hq') | exact (f_equal Some Hprev)].
  - destruct (price_drop_follows_the_computed_percentage nameFromUrl_fallback Older
                (listedAt 100 sampleProduct) (withThreshold 29 DEFAULT_SETTINGS)
                (envOf (inr (pricedData 71))) (pricedData 71) 71
                (worldOf [listedAt 100 sampleProduct]) (listedAt 100 sampleProduct))
      as ((q' & Hq' & Hprev & _) & Hfires & _);
      [evaluate | evaluate | evaluate | evaluate | evaluate | evaluate | evaluate |].
    split.
    + intros F. apply Hfires in F. vm_compute in F. apply F. reflexivity.
    + transitivity (p_previousPrice <$> Some q');
        [exact (f_equal (fmap p_previousPrice) Hq') | exact (f_equal Some Hprev)].
Defined.

(** C3, at a drop of exactly the threshold. From 100 to 71 the price falls
    by 29 percent. The code computes 28.999999999999996: the quotient 0.29
    is no binary64 value, the nearest one lies below it, and the product
    with 100 is rounded below 29 again. With a threshold of 29 neither
    service worker emits the event, while [previousPrice] is set. One
    percent further down the event is emitted. *)
Lemma drop_of_exactly_the_threshold_is_not_announced :
  ((100 - 71) / 100 * 100 == 29)%Q
  ∧ Binary64.div (Binary64.sub 100 71) 100 = 5224175567749775 # 18014398509481984
  ∧ dropPct (listedAt 100 sampleProduct) (pricedData 71)
    = 8162774324609023 # 281474976710656
  ∧ (dropPct (listedAt 100 sampleProduct) (pricedData 71) < 29)%Q
  ∧ ¬ fires isPriceDrop (repricedCheck Older 29 71)
  ∧ ¬ fires isPriceDrop (repricedCheck Newer 29 71)
  ∧ logged (trace (repricedCheck Newer 29 71))
    = [logEntry 2000 "p1" ev_in_stock (BackInStockMsg "Pokemon Trading Card Game" 71);
       logEntry 2000 "p1" ev_check (CheckedMsg InStock 71)]
  ∧ p_previousPrice <$> findProduct "p1" (products (final (repricedCheck Newer 29 71)))
    = Some (Some 100%Q)
  ∧ fires isPriceDrop (repricedCheck Older 29 70)
  ∧ fires isPriceDrop (repricedCheck Newer 29 70).
Proof. vm_compute. repeat split; try reflexivity; discriminate. Qed.

Lemma restocked_fires_iff_witness :
  fires isRestocked (checkProduct nameFromUrl_fallback Newer sampleProduct
                       DEFAULT_SETTINGS (envOf (inr restockedData)) sampleWorld)
  ∧ ∃ q', findProduct "p1"
            (products (final (checkProduct nameFromUrl_fallback Newer sampleProduct
                                DEFAULT_SETTINGS (envOf (inr restockedData)) sampleWorld)))
          = Some q'
          ∧ p_lastInStock q' = Some 2000.
Proof.
  destruct (restocked_fires_iff nameFromUrl_fallback Newer sampleProduct DEFAULT_SETTINGS
              (envOf (inr restockedData)) restockedData sampleWorld sampleProduct)
    as (Hiff & Hlast & _); [evaluate | evaluate | evaluate |].
  assert (Hfires : fires isRestocked
                     (checkProduct nameFromUrl_fallback Newer sampleProduct
                        DEFAULT_SETTINGS (envOf (inr restockedData)) sampleWorld)).
  { apply Hiff. split; [reflexivity | left; reflexivity]. }
  split; [exact Hfires | exact (Hlast Hfires)].
Defined.

Lemma history_prepended_and_capped_witness :
  ∃ q', findProduct "p1"
          (products (final (checkProduct nameFromUrl_fallback Newer
                              (withHistory tenSnapshots sampleProduct)
                              (withHistoryCap 10 DEFAULT_SETTINGS)
                              (envOf (inr restockedData))
                              (worldOf [withHistory tenSnapshots sampleProduct]))))
        = Some q'
        ∧ p_history q'
          = {| s_timestamp := 2000; s_price := 2499 # 100; s_stockStatus := InStock;
               s_variantsAvailable := [] |} :: take 9 tenSnapshots
        ∧ length (p_history q') = 10%nat
        ∧ {| s_timestamp := 2000; s_price := 2499 # 100; s_stockStatus := InStock;
             s_variantsAvailable := [] |} :: tenSnapshots
          = p_history q' ++ [{| s_timestamp := 100; s_price := 2999 # 100;
                                s_stockStatus := OutOfStock;
                                s_variantsAvailable := [] |}].
Proof.
  destruct (history_prepended_and_capped nameFromUrl_fallback Newer
              (withHistory tenSnapshots sampleProduct)
              (withHistoryCap 10 DEFAULT_SETTINGS) (envOf (inr restockedData))
              restockedData (worldOf [withHistory tenSnapshots sampleProduct])
              (withHistory tenSnapshots sampleProduct))
    as (q' & Hfind & Hhist & _); [evaluate | evaluate | evaluate |].
  exists q'. split; [exact Hfind|]. rewrite Hhist.
  split; [reflexivity|]. split; reflexivity.
Defined.

Lemma unparsed_price_keeps_old_price_witness :
  (∃ q', findProduct "p1"
           (products (final (checkProduct nameFromUrl_fallback Newer sampleProduct
                               DEFAULT_SETTINGS (envOf (inr unpricedData)) sampleWorld)))
         = Some q'
         ∧ p_currentPrice q' = 2999 # 100)
  ∧ ¬ fires isPriceDrop (checkProduct nameFromUrl_fallback Newer sampleProduct
                           DEFAULT_SETTINGS (envOf (inr unpricedData)) sampleWorld).
Proof.
  destruct (unparsed_price_keeps_old_price nameFromUrl_fallback Newer sampleProduct
              DEFAULT_SETTINGS (envOf (inr unpricedData)) unpricedData sampleWorld
              sampleProduct)
    as ((q' & Hfind & Hprice & _) & Hquiet); [evaluate | evaluate | evaluate | |].
  - intros price [= <-]. evaluate.
  - split; [|exact Hquiet]. exists q'. split; [exact Hfind | exact Hprice].
Defined.

Lemma junk_check_keeps_product_data_witness :
  result (checkProduct nameFromUrl_fallback Newer sampleProduct DEFAULT_SETTINGS
            (envOf (inr challengeData)) sampleWorld) = inr ()
  ∧ ∃ q', findProduct "p1"
            (products (final (checkProduct nameFromUrl_fallback Newer sampleProduct
                                DEFAULT_SETTINGS (envOf (inr challengeData)) sampleWorld)))
          = Some q'
          ∧ p_currentPrice q' = 2999 # 100
          ∧ p_stockStatus q' = OutOfStock
          ∧ p_history q' = [].
Proof.
  destruct (junk_check_keeps_product_data nameFromUrl_fallback Newer sampleProduct
              DEFAULT_SETTINGS (envOf (inr challengeData)) challengeData sampleWorld
              sampleProduct)
    as (Hres & (q' & name' & err' & Hfind & Hprice & Hstock & _ & Hhist & _) & _);
    [evaluate | evaluate | evaluate |].
  split; [exact Hres|]. exists q'. repeat split; assumption.
Defined.

(** ** Backoff *)

Lemma Math_min_le_r x y : (Math_min x y <= y)%Q.
Proof.
  unfold Math_min. destruct (Qle_bool x y) eqn:E;
    [apply Qle_bool_iff in E; exact E | apply Qle_refl].
Qed.

Lemma Math_min_pos x y : (0 < x)%Q → (0 < y)%Q → (0 < Math_min x y)%Q.
Proof. unfold Math_min. destruct (Qle_bool x y); auto. Qed.

Lemma Math_round_le (x : Q) (k : Z) : (x <= inject_Z k)%Q → Math_round x <= k.
Proof.
  intros H. unfold Math_round.
  assert (Hlt : (x + (1 # 2) < inject_Z (k + 1))%Q).
  { rewrite inject_Z_plus. change (inject_Z 1) with 1%Q. lra. }
  pose proof (Qfloor_resp_le _ _ (Qlt_le_weak _ _ Hlt)) as H1.
  rewrite Qfloor_Z in H1.
  destruct (Z.eq_dec (Qfloor (x + (1 # 2))) (k + 1)) as [E|E]; [|lia].
  exfalso.
  pose proof (Qfloor_le (x + (1 # 2))) as H2.
  rewrite E in H2. lra.
Qed.

(** C5, as the code has it. For every error count from 0 on and every
    value of the random source the backoff delay is the jitter of
    [min(1000 * 2^n, 300000)] by 20 percent, and it is at most 360000 ms,
    the cap plus the 20 percent of the jitter. *)
Theorem backoffDelay_within_jittered_cap (rnd : Q) (n : Z) :
  0 <= n → (0 <= rnd)%Q → (rnd < 1)%Q →
  backoffDelay rnd n = jitter rnd (Math_min (1000 * Qpower 2 n) 300000) 20
  ∧ backoffDelay rnd n <= 360000.
Proof.
  intros Hn H0 H1. split; [reflexivity|].
  unfold backoffDelay, jitter.
  apply Math_round_le.
  set (d := Math_min _ _).
  assert (Hd : (d <= 300000)%Q).
  { unfold d. eapply Qle_trans; [apply Math_min_le_r|]. unfold backoff_cap. lra. }
  assert (Hp : (0 < d)%Q).
  { unfold d. apply Math_min_pos.
    - unfold backoff_base. assert (0 < Qpower 2 n)%Q by (apply Qpower_0_lt; lra). nra.
    - unfold backoff_cap. lra. }
  change (inject_Z 360000) with 360000%Q.
  set (f := (1 + (rnd * 2 - 1) * (20 / 100))%Q).
  assert (Hf : (f <= 6 # 5)%Q).
  { unfold f, Qdiv. change (/ 100)%Q with (1 # 100)%Q. lra. }
  assert (Hf0 : (0 < f)%Q).
  { unfold f, Qdiv. change (/ 100)%Q with (1 # 100)%Q. lra. }
  nra.
Qed.

Lemma backoffDelay_within_jittered_cap_witness :
  backoffDelay (9 # 10) 9 = jitter (9 # 10) (Math_min (1000 * Qpower 2 9) 300000) 20
  ∧ backoffDelay (9 # 10) 9 <= 360000.
Proof. apply (backoffDelay_within_jittered_cap (9 # 10) 9); evaluate. Defined.

(** C5, counterexample. With 9 errors and a random draw of 0.9 the delay is
    348000 ms, above the cap of 300000 ms. *)
Lemma backoffDelay_exceeds_cap :
  0 <= 9 ∧ (0 <= 9 # 10)%Q ∧ (9 # 10 < 1)%Q
  ∧ backoffDelay (9 # 10) 9 = 348000
  ∧ ¬ backoffDelay (9 # 10) 9 <= 300000.
Proof. vm_compute. intuition discriminate. Qed.

(** ** Add-to-cart *)

(** C9, what the code does. [triggerAddToCart] returns, makes at most 3
    attempts (each begins with a fresh tab lookup, and every request to the
    content script follows the lookup of its attempt) and leaves every
    [monitorState] as it is. It pauses between attempts only, for 3 s after
    the first and 6 s after the second: whatever the attempts meet, the
    pauses of a run are 2 s (a tab settling), 3 s or 6 s, never 12 s. In
    the newer service worker three failed attempts are all made, with both
    pauses and none after the third, and the failure is logged last. The
    older one makes one attempt without a retry; it logs the failure when
    one of its browser calls rejects, and when none does it logs the
    purchase as triggered and nothing else, whatever the content script
    replied. *)
Theorem add_to_cart_retries_are_bounded rev product cart (w : World) :
  let r := triggerAddToCart rev product cart w in
  result r = inr ()
  ∧ (length (List.filter isAttempt (trace r)) ≤ 3)%nat
  ∧ freshPerAttempt false (trace r) = true
  ∧ (∃ rest, [3000; 6000] = retryPauses (trace r) ++ rest)
  ∧ (∀ ms, In (Slept ms) (trace r) → ms = 2000 ∨ ms = 3000 ∨ ms = 6000)
  ∧ p_monitorState <$> products (final r) = p_monitorState <$> products w
  ∧ (rev = Newer →
     (∀ attempt, 1 <= attempt <= 3 →
                 attemptFailed (attemptOutcome cart attempt) = true) →
     length (List.filter isAttempt (trace r)) = 3%nat
     ∧ retryPauses (trace r) = [3000; 6000]
     ∧ ∃ t cause,
         trace r = t ++ [Logged (logEntry (cartClock cart 4) (p_id product) ev_error
                                          (BagFailedMsg 3 cause))])
  ∧ (rev = Older →
     length (List.filter isAttempt (trace r)) = 1%nat
     ∧ retryPauses (trace r) = []
     ∧ (∀ step err,
          rejection (attemptOutcome cart 1) = Some (step, err) →
          (step = AtOpen → existing (attemptOutcome cart 1) = false) →
          ∃ t, trace r = t ++ [Logged (logEntry (cartClock cart 1) (p_id product)
                                                ev_error (CartFailedMsg err))])
     ∧ (rejection (attemptOutcome cart 1) = None →
        logged (trace r)
        = [logEntry (cartClock cart 1) (p_id product) ev_add_to_cart
                    (CartTriggeredMsg (p_name product))])).
Proof.
  intros r. subst r.
  split.
  { destruct (triggerAddToCart_returns rev product cart w) as [[] ->]. reflexivity. }
  assert (Hstate : p_monitorState <$> products (final (triggerAddToCart rev product cart w))
                   = p_monitorState <$> products w).
  { symmetry. apply sameButMaxQty_field; [reflexivity|].
    apply triggerAddToCart_gentle. }
  assert (Hslept : ∀ t : list Effect,
             (∃ rest, [3000; 6000] = retryPauses t ++ rest) →
             ∀ ms, In (Slept ms) t → ms = 2000 ∨ ms = 3000 ∨ ms = 6000).
  { intros t [rest Hrest] ms Hin.
    destruct (retryPauses_In ms t Hin) as [->|Hp]; [left; reflexivity|].
    right.
    assert (Hin' : In ms [3000; 6000]) by (rewrite Hrest; apply in_or_app; left; exact Hp).
    destruct Hin' as [<-|[<-|[]]]; [left | right]; reflexivity. }
  destruct rev.
  - destruct (triggerAddToCart_older_shape product cart w) as (Hc & Hp & Hf & Hlog).
    rewrite Hc.
    split; [lia|]. split; [exact Hf|].
    split; [rewrite Hp; exists [3000; 6000]; reflexivity|].
    split; [apply Hslept; rewrite Hp; exists [3000; 6000]; reflexivity|].
    split; [exact Hstate|]. split; [discriminate|].
    intros _. split; [reflexivity|]. split; [exact Hp|]. split; [exact Hlog|].
    intros Hnone. rewrite (triggerAddToCart_older_unrejected product cart w Hnone).
    destruct (existing (attemptOutcome cart 1)); reflexivity.
  - cbn [triggerAddToCart].
    destruct (addToBagAttempts_shape product cart attemptNumbers (Text EmptyString) w)
      as (Hc & Hp & Hf & Hall).
    split; [exact Hc|]. split; [exact Hf|]. split; [exact Hp|].
    split; [apply Hslept; exact Hp|].
    split; [exact Hstate|]. split; [|discriminate].
    intros _ Hfail. apply Hall.
    intros a [<-|[<-|[<-|[]]]]; apply Hfail; lia.
Qed.

Lemma add_to_cart_retries_are_bounded_witness :
  length (List.filter isAttempt
            (trace (triggerAddToCart Newer sampleProduct failingCart sampleWorld)))
  = 3%nat
  ∧ retryPauses (trace (triggerAddToCart Newer sampleProduct failingCart sampleWorld))
    = [3000; 6000]
  ∧ ¬ In (Slept 12000)
         (trace (triggerAddToCart Newer sampleProduct failingCart sampleWorld))
  ∧ logged (trace (triggerAddToCart Older sampleProduct failingCart sampleWorld))
    = [logEntry 5001 "p1" ev_add_to_cart (CartTriggeredMsg "Pokemon Trading Card Game")].
Proof.
  destruct (add_to_cart_retries_are_bounded Newer sampleProduct failingCart sampleWorld)
    as (_ & _ & _ & _ & Hslept & _ & Hnewer & _).
  destruct (Hnewer eq_refl) as (Hc & Hp & _); [intros attempt _; reflexivity|].
  destruct (add_to_cart_retries_are_bounded Older sampleProduct failingCart sampleWorld)
    as (_ & _ & _ & _ & _ & _ & _ & Holder).
  destruct (Holder eq_refl) as (_ & _ & _ & Hlogged).
  split; [exact Hc|]. split; [exact Hp|]. split.
  - intros Hin. destruct (Hslept 12000 Hin) as [H|[H|H]]; discriminate H.
  - apply Hlogged. reflexivity.
Defined.

(** C9, at a content script that reports a failure each time. The newer
    service worker makes three attempts and pauses for 3 s and 6 s between
    them: there is no pause of 12 s, neither between attempts nor after the
    third, and the failure is logged after the third. The older service
    worker makes its one request, drops the reply and logs the purchase as
    triggered: no failure entry is written and nothing is retried. *)
Lemma add_to_cart_at_a_failing_content_script :
  attemptFailed (attemptOutcome failingCart 1) = true
  ∧ length (List.filter isAttempt
              (trace (triggerAddToCart Newer sampleProduct failingCart sampleWorld)))
    = 3%nat
  ∧ retryPauses (trace (triggerAddToCart Newer sampleProduct failingCart sampleWorld))
    = [3000; 6000]
  ∧ retryPauses (trace (triggerAddToCart Newer sampleProduct failingCart sampleWorld))
    ≠ [3000; 6000; 12000]
  ∧ ¬ In (Slept 12000)
         (trace (triggerAddToCart Newer sampleProduct failingCart sampleWorld))
  ∧ logged (trace (triggerAddToCart Newer sampleProduct failingCart sampleWorld))
    = [logEntry 5004 "p1" ev_error
         (BagFailedMsg 3 (Text "Add to bag button not found"))]
  ∧ length (List.filter isAttempt
              (trace (triggerAddToCart Older sampleProduct failingCart sampleWorld)))
    = 1%nat
  ∧ logged (trace (triggerAddToCart Older sampleProduct failingCart sampleWorld))
    = [logEntry 5001 "p1" ev_add_to_cart (CartTriggeredMsg "Pokemon Trading Card Game")]
  ∧ ¬ (∃ l, In l (logged (trace (triggerAddToCart Older sampleProduct failingCart
                                   sampleWorld)))
            ∧ l_event l = ev_error).
Proof.
  vm_compute. repeat split; try reflexivity; try (intuition discriminate).
  intros (l & [<-|[]] & H). discriminate H.
Qed.

(** ** The classifier *)

(** C2. The newer classifier rejects a candidate exactly when one of the
    four rules matches, and both classifiers reject the bot challenge
    page. The older classifier in [src/background/service-worker.js] lacks
    the rules 3 and 4: it accepts a candidate with a plausible title and
    neither price nor image, which rule 3 rejects. *)
Theorem older_classifier_accepts_title_without_price_and_image :
  (∀ d, isValidProductData Newer (Some d) = false ↔ Rules.firstMatch d ≠ None)
  ∧ (∀ d, isValidProductData Newer (Some d) = negb (Rules.rejects d))
  ∧ isValidProductData Newer (Some challengeData) = false
  ∧ isValidProductData Older (Some challengeData) = false
  ∧ Rules.firstMatch titleOnlyData = Some 3%nat
  ∧ isValidProductData Newer (Some titleOnlyData) = false
  ∧ isValidProductData Older (Some titleOnlyData) = true.
Proof.
  split; [intros d; apply newer_classifier_follows_rules|].
  split; [intros d; apply newer_classifier_follows_rules|].
  vm_compute. repeat split.
Qed.

(* ================================================================== *)
(** * Further properties *)
(* ================================================================== *)

(** Pairwise different, for a list that is written out. *)
Ltac distinct := repeat (constructor; [cbn; intuition discriminate|]); constructor.

(** ** Numbers *)

Lemma Math_round_mono (x y : Q) : (x <= y)%Q → Math_round x <= Math_round y.
Proof. intros H. unfold Math_round. apply Qfloor_resp_le. lra. Qed.

Lemma Math_round_ge (x : Q) (k : Z) : (inject_Z k <= x)%Q → k <= Math_round x.
Proof.
  intros H. unfold Math_round.
  rewrite <- (Qfloor_Z k). apply Qfloor_resp_le. lra.
Qed.

Lemma jitter_factor_bounds (rnd pct : Q) :
  (0 <= rnd)%Q → (rnd < 1)%Q → (0 <= pct)%Q →
  (1 - pct / 100 <= 1 + (rnd * 2 - 1) * (pct / 100))%Q
  ∧ (1 + (rnd * 2 - 1) * (pct / 100) <= 1 + pct / 100)%Q.
Proof.
  intros H0 H1 Hp.
  assert (Hq : (0 <= pct / 100)%Q).
  { unfold Qdiv. change (/ 100)%Q with (1 # 100)%Q. lra. }
  split; nra.
Qed.



Lemma backoff_ceiling_le (n m : Z) :
  0 <= n <= m →
  (Math_min (backoff_base * Qpower 2 n) backoff_cap
   <= Math_min (backoff_base * Qpower 2 m) backoff_cap)%Q.
Proof.
  intros H.
  assert (Hp : (Qpower 2 n <= Qpower 2 m)%Q) by (apply Qpower_le_compat_l; [lia | lra]).
  unfold Math_min, backoff_base.
  destruct (Qle_bool (1000 * 2 ^ n) backoff_cap) eqn:E1,
           (Qle_bool (1000 * 2 ^ m) backoff_cap) eqn:E2.
  - lra.
  - apply Qle_bool_iff in E1. exact E1.
  - apply Qle_bool_iff in E2.
    assert (¬ (1000 * 2 ^ n <= backoff_cap)%Q).
    { intros C. apply Qle_bool_iff in C. congruence. }
    exfalso. apply H0. lra.
  - apply Qle_refl.
Qed.

Lemma backoff_ceiling_ge (n : Z) :
  0 <= n → (1000 <= Math_min (backoff_base * Qpower 2 n) backoff_cap)%Q.
Proof.
  intros H.
  assert (Hp : (1 <= Qpower 2 n)%Q) by (apply Qpower_1_le; [lra | lia]).
  unfold Math_min, backoff_base, backoff_cap.
  destruct (Qle_bool _ _); lra.
Qed.

Lemma backoff_ceiling_reached (n : Z) :
  9 <= n → Math_min (backoff_base * Qpower 2 n) backoff_cap = backoff_cap.
Proof.
  intros H.
  assert (Hp : (Qpower 2 9 <= Qpower 2 n)%Q) by (apply Qpower_le_compat_l; [lia | lra]).
  change (Qpower 2 9) with (512 # 1)%Q in Hp.
  unfold Math_min.
  destruct (Qle_bool _ _) eqn:E; [|reflexivity].
  apply Qle_bool_iff in E. unfold backoff_base, backoff_cap in E. exfalso. lra.
Qed.

(** X2. For a fixed random draw the backoff delay never shrinks when the
    error count grows, it is at least 800 ms, and from 9 errors on it is
    the jitter of the cap of 300000 ms. *)
Theorem backoffDelay_grows_to_ceiling (rnd : Q) (n : Z) :
  0 <= n → (0 <= rnd)%Q → (rnd < 1)%Q →
  800 <= backoffDelay rnd n
  ∧ backoffDelay rnd n <= backoffDelay rnd (n + 1)
  ∧ (9 <= n → backoffDelay rnd n = jitter rnd 300000 20).
Proof.
  intros Hn H0 H1.
  destruct (jitter_factor_bounds rnd 20 H0 H1) as [Hlo Hhi]; [lra|].
  assert (Hf : (4 # 5 <= 1 + (rnd * 2 - 1) * (20 / 100))%Q).
  { eapply Qle_trans; [|exact Hlo].
    unfold Qdiv. change (/ 100)%Q with (1 # 100)%Q. lra. }
  pose proof (backoff_ceiling_ge n Hn) as Hge.
  pose proof (backoff_ceiling_le n (n + 1)) as Hle.
  split; [|split].
  - unfold backoffDelay, jitter. apply Math_round_ge.
    change (inject_Z 800) with 800%Q. nra.
  - unfold backoffDelay, jitter. apply Math_round_mono.
    assert (Hle' := Hle ltac:(lia)). nra.
  - intros H9. unfold backoffDelay. rewrite backoff_ceiling_reached by exact H9.
    reflexivity.
Qed.

Lemma backoffDelay_grows_to_ceiling_witness :
  800 <= backoffDelay (9 # 10) 9
  ∧ backoffDelay (9 # 10) 9 <= backoffDelay (9 # 10) (9 + 1)
  ∧ backoffDelay (9 # 10) 9 = jitter (9 # 10) 300000 20.
Proof.
  destruct (backoffDelay_grows_to_ceiling (9 # 10) 9) as (H1 & H2 & H3);
    [evaluate | evaluate | evaluate |].
  split; [exact H1|]. split; [exact H2|]. apply H3. evaluate.
Defined.

(** ** The rate limiter *)




(** ** The options page *)

Lemma clamp_range (val lo hi : Z) :
  lo <= hi → lo <= OptionsPage.clamp val lo hi <= hi.
Proof. unfold OptionsPage.clamp. lia. Qed.

Lemma orElseQ_nonzero (parsed : option Q) (fallback : Q) :
  ¬ (fallback == 0)%Q → ¬ (OptionsPage.orElseQ parsed fallback == 0)%Q.
Proof.
  intros Hf. unfold OptionsPage.orElseQ.
  destruct parsed as [x|]; [|exact Hf].
  destruct (Qeq_bool x 0) eqn:E; [exact Hf|].
  intros C. apply Qeq_bool_iff in C. congruence.
Qed.

(** X4. Whatever the form holds, the settings the options page sends are
    within their ranges; the volume is never 0 (a 0 is replaced by 0.7),
    and a jitter of 0 is stored only for a negative entry (a 0 is replaced
    by 15). The history cap the engine reads lies between 10 and 2000. *)
Theorem saved_settings_are_in_range (el : OptionsPage.Form) :
  let s := OptionsPage.saveSettings el in
  10 <= OptionsPage.s_checkIntervalSeconds s <= 600
  ∧ 0 <= OptionsPage.s_jitterPercent s <= 50
  ∧ 1 <= OptionsPage.s_maxProducts s <= 100
  ∧ 1 <= OptionsPage.s_priceDropThreshold s <= 90
  ∧ 10 <= OptionsPage.s_maxHistoryPerProduct s <= 2000
  ∧ ¬ (OptionsPage.s_audioVolume s == 0)%Q
  ∧ (OptionsPage.s_jitterPercent s = 0
     ↔ ∃ n, OptionsPage.el_jitterPercent el = Some n ∧ n < 0)
  ∧ (10 <= maxHistoryPerProduct (OptionsPage.stored s) <= 2000)%nat.
Proof.
  cbn [OptionsPage.saveSettings OptionsPage.s_checkIntervalSeconds
       OptionsPage.s_jitterPercent OptionsPage.s_maxProducts
       OptionsPage.s_priceDropThreshold OptionsPage.s_maxHistoryPerProduct
       OptionsPage.s_audioVolume OptionsPage.stored maxHistoryPerProduct].
  repeat split; try (apply clamp_range; lia).
  - apply orElseQ_nonzero. intros C. discriminate C.
  - intros H. unfold OptionsPage.clamp, OptionsPage.orElse in H.
    destruct (OptionsPage.el_jitterPercent el) as [[|n|n]|]; try lia.
    exists (Z.neg n). split; [reflexivity | lia].
  - intros (n & -> & Hn). unfold OptionsPage.clamp, OptionsPage.orElse.
    destruct n; lia.
  - pose proof (clamp_range (OptionsPage.orElse (OptionsPage.el_maxHistory el) 500)
                  10 2000 ltac:(lia)). lia.
  - pose proof (clamp_range (OptionsPage.orElse (OptionsPage.el_maxHistory el) 500)
                  10 2000 ltac:(lia)). lia.
Qed.

(** ** More of the store *)

Lemma findProduct_cons (key : string) (x : Product) (ps : list Product) :
  findProduct key (x :: ps)
  = if decide (p_id x = key) then Some x else findProduct key ps.
Proof.
  unfold findProduct. cbn. destruct (decide (p_id x = key)); [reflexivity|].
  destruct (list_find _ ps) as [[i q]|]; reflexivity.
Qed.

Lemma findProduct_None (key : string) (ps : list Product) :
  findProduct key ps = None ↔ list_find (λ p, p_id p = key) ps = None.
Proof.
  unfold findProduct. destruct (list_find _ ps) as [[i q]|]; cbn; split; congruence.
Qed.

Lemma findProduct_In (key : string) (ps : list Product) q :
  findProduct key ps = Some q → In q ps ∧ p_id q = key.
Proof.
  induction ps as [|x ps IH]; [discriminate|].
  rewrite findProduct_cons. destruct (decide (p_id x = key)) as [E|E].
  - intros [= <-]. split; [left; reflexivity | exact E].
  - intros H. destruct (IH H). split; [right|]; assumption.
Qed.

Lemma findProduct_absent (key : string) (ps : list Product) :
  findProduct key ps = None ↔ ¬ In key (p_id <$> ps).
Proof.
  induction ps as [|x ps IH]; [cbn; tauto|].
  rewrite findProduct_cons. cbn. destruct (decide (p_id x = key)) as [E|E].
  - split; [discriminate | intros H; exfalso; apply H; left; exact E].
  - rewrite IH. tauto.
Qed.

(** X5. [updateProduct] followed by [getProduct]: for a stored id the
    answer is the stored record merged with the update, the store keeps its
    length and its URLs, and the other ids their records; for an unknown id
    the update throws and nothing is written. *)
Theorem updateProduct_then_getProduct (id : string) (u : Updates) (w : World) :
  let r := (updateProduct id u;; getProduct id) w in
  match findProduct id (products w) with
  | Some q =>
      result r = inr (Some (merge q u))
      ∧ length (products (final r)) = length (products w)
      ∧ p_url <$> products (final r) = p_url <$> products w
      ∧ ∀ other, other ≠ id →
          findProduct other (products (final r)) = findProduct other (products w)
  | None => result r = inl (NotFoundMsg id) ∧ final r = w ∧ trace r = []
  end.
Proof.
  cbv zeta. rewrite run_bind.
  destruct (findProduct id (products w)) as [q|] eqn:E.
  - apply findProduct_Some in E as [i E].
    rewrite (updateProduct_run _ _ _ _ _ E).
    cbn [result final trace products withProducts].
    unfold getProduct. rewrite run_bind. cbn [getProducts result final trace mret M_ret products withProducts].
    split; [|split; [|split]].
    + f_equal. f_equal. apply findProduct_Some. exists i.
      eapply list_find_insert_same; [exact E | reflexivity].
    + apply length_insert.
    + rewrite list_fmap_insert. apply list_insert_id.
      rewrite list_lookup_fmap. apply list_find_Some in E as (-> & _). reflexivity.
    + intros other Hne.
      eapply list_find_insert_other; [exact E | reflexivity | exact Hne].
  - apply findProduct_None in E. rewrite (updateProduct_missing _ _ _ E).
    cbn. auto.
Qed.

Lemma url_taken_spec (url : string) (ps : list Product) :
  existsb (λ p, String.eqb (p_url p) url) ps = true ↔ In url (p_url <$> ps).
Proof.
  rewrite existsb_exists. split.
  - intros (p & Hp & E). apply String.eqb_eq in E. subst url.
    apply in_map. exact Hp.
  - intros H. apply in_map_iff in H as (p & E & Hp).
    exists p. split; [exact Hp | apply String.eqb_eq; exact E].
Qed.

(** X6. [addProduct] keeps the URLs of the store pairwise different and
    the store within the limit: it appends exactly when the URL is new and
    the store is below the limit, and a refused product changes nothing. *)
Theorem addProduct_keeps_urls_unique (maxProducts : nat) (product : Product)
    (w : World) :
  List.NoDup (p_url <$> products w) →
  (length (products w) ≤ maxProducts)%nat →
  let r := addProduct maxProducts product w in
  List.NoDup (p_url <$> products (final r))
  ∧ (length (products (final r)) ≤ maxProducts)%nat
  ∧ (result r = inr ()
     ↔ ¬ In (p_url product) (p_url <$> products w)
       ∧ (length (products w) < maxProducts)%nat)
  ∧ (result r = inr () → products (final r) = products w ++ [product])
  ∧ (result r ≠ inr () → final r = w).
Proof.
  intros Hnd Hlen. cbv zeta. unfold addProduct. rewrite run_bind.
  cbn [getProducts result final trace].
  destruct (existsb _ (products w)) eqn:Eu.
  - apply url_taken_spec in Eu. cbn.
    repeat split; auto; try discriminate. intros [H _]. contradiction.
  - assert (Hfree : ¬ In (p_url product) (p_url <$> products w)).
    { intros C. apply url_taken_spec in C. congruence. }
    destruct (maxProducts <=? length (products w))%nat eqn:El.
    + apply Nat.leb_le in El. cbn.
      repeat split; auto; try discriminate. intros [_ H]. lia.
    + apply Nat.leb_gt in El. cbn.
      repeat split; auto; try congruence.
      * rewrite fmap_app. cbn.
        apply List.NoDup_app;
          [exact Hnd | repeat constructor; intros [] | intros x Hx [<-|[]]; contradiction].
      * rewrite length_app. cbn. lia.
Qed.

Lemma addProduct_keeps_urls_unique_witness :
  products (final (addProduct 50 pausedProduct sampleWorld))
  = [sampleProduct; pausedProduct]
  ∧ final (addProduct 50 sampleProduct sampleWorld) = sampleWorld.
Proof.
  destruct (addProduct_keeps_urls_unique 50 pausedProduct sampleWorld)
    as (_ & _ & _ & Hadd & _);
    [distinct
    | vm_compute; lia |].
  destruct (addProduct_keeps_urls_unique 50 sampleProduct sampleWorld)
    as (_ & _ & _ & _ & Hkeep);
    [distinct
    | vm_compute; lia |].
  split; [apply Hadd; reflexivity | apply Hkeep; discriminate].
Defined.

Lemma findProduct_filter_other (key other : string) (ps : list Product) :
  other ≠ key →
  findProduct other (List.filter (λ p, negb (String.eqb (p_id p) key)) ps)
  = findProduct other ps.
Proof.
  intros Hne. induction ps as [|x ps IH]; [reflexivity|].
  cbn [List.filter]. destruct (String.eqb (p_id x) key) eqn:E; cbn [negb].
  - apply String.eqb_eq in E. rewrite findProduct_cons.
    destruct (decide (p_id x = other)); [congruence | exact IH].
  - rewrite !findProduct_cons. destruct (decide (p_id x = other)); [reflexivity | exact IH].
Qed.

Lemma filter_absent (key : string) (ps : list Product) :
  findProduct key ps = None →
  List.filter (λ p, negb (String.eqb (p_id p) key)) ps = ps.
Proof.
  induction ps as [|x ps IH]; [reflexivity|].
  rewrite findProduct_cons. destruct (decide (p_id x = key)) as [E|E]; [discriminate|].
  intros H. cbn [List.filter].
  apply String.eqb_neq in E. rewrite E. cbn [negb]. rewrite IH by exact H. reflexivity.
Qed.

(** X7. [removeProduct] returns for every id, drops every record with the
    id and nothing else; for an unknown id the store stays as it is. *)
Theorem removeProduct_forgets_only_that_product (id : string) (w : World) :
  let r := removeProduct id w in
  result r = inr ()
  ∧ findProduct id (products (final r)) = None
  ∧ (∀ other, other ≠ id →
       findProduct other (products (final r)) = findProduct other (products w))
  ∧ (length (products (final r)) ≤ length (products w))%nat
  ∧ (findProduct id (products w) = None ↔ products (final r) = products w).
Proof.
  cbv zeta. unfold removeProduct. rewrite run_bind.
  cbn [getProducts saveProducts result final trace products withProducts].
  split; [reflexivity|]. split; [|split; [|split]].
  - apply findProduct_absent. intros C.
    apply in_map_iff in C as (p & E & Hp).
    apply List.filter_In in Hp as [_ Hp].
    apply negb_true_iff, String.eqb_neq in Hp. contradiction.
  - intros other Hne. apply findProduct_filter_other. exact Hne.
  - apply List.filter_length_le.
  - split; [apply filter_absent|].
    intros H. apply findProduct_absent. intros C.
    apply in_map_iff in C as (p & E & Hp). rewrite <- H in Hp.
    apply List.filter_In in Hp as [_ Hp].
    apply negb_true_iff, String.eqb_neq in Hp. contradiction.
Qed.

(** ** The alarm *)

Lemma no_monitoring_spec (ps : list Product) :
  existsb eligibleProduct ps = false
  ↔ ∀ p, In p ps → p_monitorState p = Paused.
Proof.
  split.
  - intros H p Hp.
    destruct (p_monitorState p) eqn:E; [| reflexivity |].
    + assert (C : existsb eligibleProduct ps = true).
      { apply existsb_exists. exists p. split; [exact Hp|].
        unfold eligibleProduct. rewrite E. reflexivity. }
      congruence.
    + assert (C : existsb eligibleProduct ps = true).
      { apply existsb_exists. exists p. split; [exact Hp|].
        unfold eligibleProduct. rewrite E. reflexivity. }
      congruence.
  - intros H. apply not_true_iff_false. intros C.
    apply existsb_exists in C as (p & Hp & E).
    unfold eligibleProduct in E. rewrite (H p Hp) in E. discriminate.
Qed.

Lemma Math_max_ge_r x y : (y <= Math_max x y)%Q.
Proof.
  unfold Math_max. destruct (Qle_bool x y) eqn:E; [apply Qle_refl|].
  apply Qlt_le_weak. apply Qnot_le_lt. intros C.
  apply Qle_bool_iff in C. congruence.
Qed.

(** What [ensureAlarmRunning] does to the store (nothing) and to the
    alarm. *)
Lemma ensureAlarmRunning_run (settings : Settings) (alarm : option Q) (w : World) :
  let r := ensureAlarmRunning settings alarm w in
  final r = w ∧ trace r = []
  ∧ ∃ alarm',
      result r = inr alarm'
      ∧ (alarm' = None ↔ ∀ p, In p (products w) → p_monitorState p = Paused).
Proof.
  cbv zeta. unfold ensureAlarmRunning. rewrite run_bind.
  cbn [getProducts result final trace].
  destruct (existsb eligibleProduct (products w)) eqn:E; cbn [negb].
  - assert (Hsome : ¬ ∀ p, In p (products w) → p_monitorState p = Paused).
    { intros C. apply (proj2 (no_monitoring_spec _)) in C. congruence. }
    destruct alarm as [old|]; [destruct (Qgtb _ _)|];
      (split; [reflexivity|]); (split; [reflexivity|]);
      eexists; (split; [reflexivity|]);
      (split; [discriminate | intros; contradiction]).
  - pose proof (proj1 (no_monitoring_spec _) E) as Hp.
    split; [reflexivity|]. split; [reflexivity|].
    exists None. split; [reflexivity|]. tauto.
Qed.

(** X8. [ensureAlarmRunning] touches neither the store nor the log. It
    leaves an alarm exactly when a product is active or in the error state;
    the period it sets is [max(checkIntervalSeconds / 60, 10 / 60)] minutes,
    and an alarm that is set is replaced only when its period is off by more
    than a hundredth of a minute. *)
Theorem ensureAlarmRunning_follows_the_products (settings : Settings)
    (alarm : option Q) (w : World) :
  let r := ensureAlarmRunning settings alarm w in
  let period := Math_max (checkIntervalSeconds settings / 60) (10 / 60) in
  final r = w ∧ trace r = []
  ∧ (10 / 60 <= period)%Q
  ∧ ∃ alarm',
      result r = inr alarm'
      ∧ (alarm' = None ↔ ∀ p, In p (products w) → p_monitorState p = Paused)
      ∧ (alarm = None → alarm' = None ∨ alarm' = Some period)
      ∧ (∀ old, alarm = Some old →
           alarm' = None
           ∨ (alarm' = Some period ∧ (1 # 100 < Qabs (old - period))%Q)
           ∨ (alarm' = Some old ∧ (Qabs (old - period) <= 1 # 100)%Q)).
Proof.
  cbv zeta.
  destruct (ensureAlarmRunning_run settings alarm w) as (Hfin & Htr & alarm' & Hres & Hnone).
  split; [exact Hfin|]. split; [exact Htr|]. split; [apply Math_max_ge_r|].
  exists alarm'. split; [exact Hres|]. split; [exact Hnone|].
  revert Hres. unfold ensureAlarmRunning. rewrite run_bind.
  cbn [getProducts result final trace].
  destruct (existsb eligibleProduct (products w)); cbn [negb].
  - destruct alarm as [old|].
    + destruct (Qgtb _ _) eqn:G; intros [= <-]; (split; [discriminate|]);
        intros old' [= <-].
      * right; left. split; [reflexivity|]. apply Qgtb_true. exact G.
      * right; right. split; [reflexivity|]. apply Qgtb_false. exact G.
    + intros [= <-]. split; [auto | discriminate].
  - intros [= <-]. split; auto.
Qed.

(** ** The messages that steer the monitoring *)

Lemma list_find_app_fresh (key : string) (done rest : list Product) (p : Product) :
  ¬ In key (p_id <$> done) → p_id p = key →
  list_find (λ x, p_id x = key) (done ++ p :: rest) = Some (length done, p).
Proof.
  intros Hfresh Hp. apply list_find_Some. split; [|split].
  - rewrite lookup_app_r by lia. rewrite Nat.sub_diag. reflexivity.
  - exact Hp.
  - intros j y Hj Hlt Hy. apply Hfresh.
    rewrite lookup_app_l in Hj by exact Hlt.
    apply in_map_iff. exists y. split; [exact Hy|].
    apply list_elem_of_In. eapply list_elem_of_lookup_2. exact Hj.
Qed.

(** The loop over the products read at the start, when ids are unique:
    [done] are the products already updated. *)
Lemma updateEach_run (u : Updates) (rest done : list Product) (w : World) :
  List.NoDup (p_id <$> (done ++ rest)) →
  products w = done ++ rest →
  updateEach u rest w
  = MkRun (inr ()) (withProducts (done ++ ((λ p, merge p u) <$> rest)) w) [].
Proof.
  revert done w. induction rest as [|p rest IH]; intros done w Hnd Hw.
  - cbn. rewrite <- Hw. destruct w; reflexivity.
  - cbn [updateEach]. rewrite run_bind.
    assert (Hfresh : ¬ In (p_id p) (p_id <$> done)).
    { rewrite fmap_app in Hnd. cbn in Hnd.
      apply List.NoDup_remove_2 in Hnd. intros C. apply Hnd.
      apply in_or_app. left. exact C. }
    rewrite (updateProduct_run (p_id p) u w (length done) p)
      by (rewrite Hw; apply list_find_app_fresh; [exact Hfresh | reflexivity]).
    cbn [result final trace].
    rewrite (IH (done ++ [merge p u])).
    + cbn [withProducts products logs isChecking limiter app fmap list_fmap].
      rewrite <- app_assoc. reflexivity.
    + rewrite <- app_assoc. cbn [app].
      rewrite fmap_app in Hnd |- *. exact Hnd.
    + cbn [products withProducts]. rewrite Hw.
      rewrite insert_app_r_alt by lia. rewrite Nat.sub_diag. cbn.
      rewrite <- app_assoc. reflexivity.
Qed.

Lemma updateEach_all (u : Updates) (w : World) :
  List.NoDup (p_id <$> products w) →
  updateEach u (products w) w
  = MkRun (inr ()) (withProducts ((λ p, merge p u) <$> products w) w) [].
Proof. intros H. apply (updateEach_run u (products w) [] w); [exact H | reflexivity]. Qed.

Lemma eligible_found (key : string) (ps : list Product) q :
  findProduct key ps = Some q → eligibleProduct q = true →
  existsb eligibleProduct ps = true.
Proof.
  intros Hq He. apply findProduct_In in Hq as [Hin _].
  apply existsb_exists. exists q. auto.
Qed.

(** X9. [TOGGLE_MONITOR] answers an unknown id without writing. A known
    product goes from active to paused and from paused or error to active;
    its error count and last error are reset either way; no other product
    is written, and switching a product on leaves the alarm set. *)
Theorem TOGGLE_MONITOR_flips_and_restarts (settings : Settings) (alarm : option Q)
    (id : string) (w : World) :
  let r := TOGGLE_MONITOR settings alarm id w in
  match findProduct id (products w) with
  | None => result r = inr (None, alarm) ∧ final r = w
  | Some q =>
      let newState :=
        match p_monitorState q with Active => Paused | Paused | Error => Active end in
      ∃ q' alarm',
        result r = inr (Some q', alarm')
        ∧ findProduct id (products (final r)) = Some q'
        ∧ q' = merge q (restartAs newState)
        ∧ p_monitorState q' = newState
        ∧ p_errorCount q' = 0 ∧ p_lastError q' = None
        ∧ (newState = Active → alarm' ≠ None)
        ∧ (∀ other, other ≠ id →
             findProduct other (products (final r)) = findProduct other (products w))
  end.
Proof.
  cbv zeta. unfold TOGGLE_MONITOR, getProduct. rewrite !run_bind.
  cbn [getProducts result final trace mret M_ret app].
  destruct (findProduct id (products w)) as [q|] eqn:E; [|split; reflexivity].
  apply findProduct_Some in E as [i E].
  assert (Hs : (if MonitorState_eqb (p_monitorState q) Active then Paused else Active)
               = match p_monitorState q with Active => Paused | _ => Active end).
  { destruct (p_monitorState q); reflexivity. }
  rewrite Hs. set (newState := match p_monitorState q with Active => Paused | _ => Active end).
  rewrite run_bind, (updateProduct_run _ _ _ _ _ E). cbn [result final trace].
  set (w' := withProducts _ w).
  assert (Hfind : findProduct id (products w') = Some (merge q (restartAs newState))).
  { apply findProduct_Some. exists i.
    eapply list_find_insert_same; [exact E | reflexivity]. }
  destruct (ensureAlarmRunning_run settings alarm w')
    as (Hfin & Htr & alarm' & Hres & Hnone).
  rewrite run_bind, Hres, Hfin. cbn [result final trace mret M_ret].
  exists (merge q (restartAs newState)), alarm'.
  repeat split; try exact Hfind.
  - intros Hact C. pose proof (proj1 Hnone C) as Hall.
    apply findProduct_In in Hfind as [Hin _].
    specialize (Hall _ Hin). cbn in Hall. congruence.
  - intros other Hne.
    eapply list_find_insert_other; [exact E | reflexivity | exact Hne].
Qed.

(** X10. With pairwise different ids, [START_ALL] sets every product to
    active with error count 0 and no last error, and leaves an alarm unless
    the store is empty. *)
Theorem START_ALL_restarts_every_product (settings : Settings) (alarm : option Q)
    (w : World) :
  List.NoDup (p_id <$> products w) →
  let r := START_ALL settings alarm w in
  products (final r) = (λ p, merge p (restartAs Active)) <$> products w
  ∧ trace r = []
  ∧ ∃ alarm', result r = inr alarm' ∧ (alarm' = None ↔ products w = []).
Proof.
  intros Hnd. cbv zeta. unfold START_ALL. rewrite !run_bind.
  cbn [getProducts result final trace app].
  rewrite run_bind, (updateEach_all _ _ Hnd). cbn [result final trace app].
  set (w' := withProducts _ w).
  destruct (ensureAlarmRunning_run settings alarm w')
    as (Hfin & Htr & alarm' & Hres & Hnone).
  rewrite Hres, Hfin, Htr. cbn [result final trace].
  split; [reflexivity|]. split; [reflexivity|].
  exists alarm'. split; [reflexivity|].
  rewrite Hnone. subst w'. cbn [products withProducts].
  destruct (products w) as [|p ps]; cbn.
  - split; [reflexivity | intros _ p []].
  - split; [|discriminate]. intros C.
    specialize (C _ (or_introl eq_refl)). discriminate C.
Qed.

Lemma START_ALL_restarts_every_product_witness :
  (λ p, (p_monitorState p, p_errorCount p))
    <$> products (final (START_ALL DEFAULT_SETTINGS None twoProducts))
  = [(Active, 0); (Active, 0)].
Proof.
  destruct (START_ALL_restarts_every_product DEFAULT_SETTINGS None twoProducts)
    as (Hps & _).
  - distinct.
  - rewrite Hps. reflexivity.
Defined.

(** ** A tick with nothing to do *)

Lemma filter_eligible_nil (ps : list Product) :
  (∀ p, In p ps → p_monitorState p = Paused) →
  List.filter eligibleProduct ps = [].
Proof.
  intros H. induction ps as [|x ps IH]; [reflexivity|].
  cbn [List.filter]. unfold eligibleProduct at 1.
  rewrite (H x (or_introl eq_refl)). cbn.
  apply IH. intros p Hp. apply H. right. exact Hp.
Qed.

Lemma monitorTick_without_eligible nameFromUrl rev env (w : World) :
  (∀ p, In p (products w) → p_monitorState p = Paused) →
  monitorTick nameFromUrl rev env w = MkRun (inr ()) w [].
Proof.
  intros H. unfold monitorTick.
  destruct (isChecking w) eqn:E; [reflexivity|].
  unfold tryFinally. rewrite run_bind.
  cbn [getProducts result final trace products withChecking].
  rewrite (filter_eligible_nil _ H). cbn.
  destruct w; cbn in *. subst. reflexivity.
Qed.

(** X11. A tick that finds another tick running, or no product to monitor,
    does nothing at all: no outside call, and the state as it was. *)
Theorem monitorTick_idle nameFromUrl rev env (w : World) :
  isChecking w = true ∨ (∀ p, In p (products w) → p_monitorState p = Paused) →
  monitorTick nameFromUrl rev env w = MkRun (inr ()) w [].
Proof.
  intros [H|H]; [|apply monitorTick_without_eligible; exact H].
  unfold monitorTick. rewrite H. reflexivity.
Qed.

Lemma monitorTick_idle_witness :
  monitorTick nameFromUrl_fallback Newer restockTick (withChecking true sampleWorld)
  = MkRun (inr ()) (withChecking true sampleWorld) [].
Proof.
  apply (monitorTick_idle nameFromUrl_fallback Newer restockTick
           (withChecking true sampleWorld)).
  left. reflexivity.
Defined.

(** X12. With pairwise different ids, [STOP_ALL] pauses every product,
    keeps the error counts and clears the alarm; the tick that follows
    finds nothing to do. *)
Theorem STOP_ALL_pauses_every_product nameFromUrl rev env (w : World) :
  List.NoDup (p_id <$> products w) →
  let r := STOP_ALL w in
  result r = inr None
  ∧ trace r = []
  ∧ products (final r)
    = (λ p, merge p (setMonitorState Paused noUpdates)) <$> products w
  ∧ p_errorCount <$> products (final r) = p_errorCount <$> products w
  ∧ monitorTick nameFromUrl rev env (final r) = MkRun (inr ()) (final r) [].
Proof.
  intros Hnd. cbv zeta. unfold STOP_ALL. rewrite run_bind.
  cbn [getProducts result final trace app].
  rewrite run_bind, (updateEach_all _ _ Hnd). cbn [result final trace app mret M_ret].
  split; [reflexivity|]. split; [reflexivity|]. split; [reflexivity|].
  cbn [products withProducts]. split.
  - rewrite <- list_fmap_compose. reflexivity.
  - apply monitorTick_without_eligible.
    cbn [products withProducts]. intros p Hp.
    apply in_map_iff in Hp as (x & <- & _). reflexivity.
Qed.

Lemma STOP_ALL_pauses_every_product_witness :
  p_monitorState <$> products (final (STOP_ALL twoProducts)) = [Paused; Paused]
  ∧ trace (monitorTick nameFromUrl_fallback Newer restockTick
             (final (STOP_ALL twoProducts))) = [].
Proof.
  destruct (STOP_ALL_pauses_every_product nameFromUrl_fallback Newer restockTick
              twoProducts) as (_ & _ & Hps & _ & Htick); [distinct|].
  split; [rewrite Hps; reflexivity | rewrite Htick; reflexivity].
Defined.

(** ** Invariants of the stored products *)

Section Invariants.

Variables (touched : string → Prop) (I : list Product → Prop).
Hypothesis I_stable : stable touched I.

Lemma keeps_ret {A} (a : A) : keeps I (mret a : M A).
Proof. intros w H. exact H. Qed.

Lemma keeps_throw {A} (e : Message) : keeps I (throw e : M A).
Proof. intros w H. exact H. Qed.

Lemma keeps_bind {A B} (m : M A) (f : A → M B) :
  keeps I m → (∀ a, keeps I (f a)) → keeps I (m ≫= f).
Proof.
  intros Hm Hf w H. rewrite run_bind.
  destruct (result (m w)) as [e|a]; cbn; [apply Hm, H|].
  apply Hf, Hm, H.
Qed.

Lemma keeps_tryCatch {A} (m : M A) (h : Message → M A) :
  keeps I m → (∀ e, keeps I (h e)) → keeps I (tryCatch m h).
Proof.
  intros Hm Hh w H. rewrite run_tryCatch.
  destruct (result (m w)) as [e|a]; cbn; [|apply Hm, H].
  apply Hh, Hm, H.
Qed.

Lemma keeps_emit e : keeps I (emit e).
Proof. intros w H. exact H. Qed.

Lemma keeps_addLog entry : keeps I (addLog entry).
Proof. intros w H. exact H. Qed.

Lemma keeps_when b (m : M ()) : keeps I m → keeps I (when b m).
Proof. destruct b; [auto | intros _; apply keeps_ret]. Qed.

Lemma keeps_rejects step o : keeps I (rejects step o).
Proof.
  unfold rejects. destruct (rejection o) as [[s err]|]; [|apply keeps_ret].
  destruct (CartStep_eqb s step); [apply keeps_throw | apply keeps_ret].
Qed.

Lemma keeps_getProducts : keeps I getProducts.
Proof. intros w H. exact H. Qed.

Lemma keeps_updateProduct key u : touched key → keeps I (updateProduct key u).
Proof.
  intros Hk w H.
  destruct (list_find (λ p, p_id p = key) (products w)) as [[i q]|] eqn:E.
  - rewrite (updateProduct_run _ _ _ _ _ E). cbn. eapply I_stable; eauto.
  - rewrite (updateProduct_missing _ _ _ E). exact H.
Qed.

Lemma keeps_limiterCanRequest now : keeps I (limiterCanRequest now).
Proof.
  intros w H. unfold limiterCanRequest.
  destruct (RateLimiter.canRequest now (limiter w)). exact H.
Qed.

Lemma keeps_limiterWaitTime now : keeps I (limiterWaitTime now).
Proof.
  intros w H. unfold limiterWaitTime.
  destruct (RateLimiter.waitTime now (limiter w)). exact H.
Qed.

Lemma keeps_limiterRecord now : keeps I (limiterRecord now).
Proof. intros w H. exact H. Qed.

End Invariants.

(** Breaks a goal [keeps I m] into goals about the parts of [m]; the
    updates are left to the caller. *)
Ltac invariant_step :=
  lazymatch goal with
  | |- keeps _ (updateProduct _ _) => fail
  | |- keeps _ (addLog _) => apply keeps_addLog
  | |- keeps _ (emit _) => apply keeps_emit
  | |- keeps _ (rejects _ _) => apply keeps_rejects
  | |- keeps _ (limiterCanRequest _) => apply keeps_limiterCanRequest
  | |- keeps _ (limiterWaitTime _) => apply keeps_limiterWaitTime
  | |- keeps _ (limiterRecord _) => apply keeps_limiterRecord
  | |- keeps _ getProducts => apply keeps_getProducts
  | |- keeps _ (when _ _) => apply keeps_when
  | |- keeps _ (mret _) => apply keeps_ret
  | |- keeps _ (throw _) => apply keeps_throw
  | |- keeps _ (tryCatch _ _) => apply keeps_tryCatch; [|intros ?]
  | |- keeps _ (_ ≫= _) => apply keeps_bind; [|intros ?]
  | |- keeps _ (if ?b then _ else _) => destruct b
  | |- keeps _ (match ?x with _ => _ end) => destruct x
  end.

Ltac invariant := repeat invariant_step.

Section EngineInvariants.

Variables (touched : string → Prop) (I : list Product → Prop).
Hypothesis I_stable : stable touched I.

Ltac updates := try (eapply keeps_updateProduct; eassumption).

Lemma addToBagAttempt_keeps product cart attempt :
  touched (p_id product) → keeps I (addToBagAttempt product cart attempt).
Proof. intros Ht. unfold addToBagAttempt, settle, sleep. invariant; updates. Qed.

Lemma addToBagAttempts_keeps product cart attempts lastError :
  touched (p_id product) → keeps I (addToBagAttempts product cart attempts lastError).
Proof.
  intros Ht. revert lastError.
  induction attempts as [|attempt rest IH]; intros lastError;
    cbn [addToBagAttempts]; unfold sleep; invariant;
    first [apply IH | apply addToBagAttempt_keeps; exact Ht].
Qed.

Lemma triggerAddToCart_keeps rev product cart :
  touched (p_id product) → keeps I (triggerAddToCart rev product cart).
Proof.
  intros Ht. destruct rev; cbn [triggerAddToCart];
    [unfold settle, sleep; invariant | apply addToBagAttempts_keeps; exact Ht].
Qed.

Lemma validPath_keeps rev product settings env data :
  touched (p_id product) → keeps I (validPath rev product settings env data).
Proof.
  intros Ht.
  unfold validPath, recoveryPart, restockPart, soldOutPart, priceDropPart, persistPart.
  invariant; updates. apply triggerAddToCart_keeps; exact Ht.
Qed.

Lemma failurePath_keeps product settings env err :
  touched (p_id product) → keeps I (failurePath product settings env err).
Proof. intros Ht. unfold failurePath. invariant; updates. Qed.

Lemma junkPath_keeps nameFromUrl rev product settings env data :
  touched (p_id product) → keeps I (junkPath nameFromUrl rev product settings env data).
Proof. intros Ht. unfold junkPath. cbv zeta. invariant; updates. Qed.

Lemma checkProduct_keeps nameFromUrl rev product settings env :
  touched (p_id product) → keeps I (checkProduct nameFromUrl rev product settings env).
Proof.
  intros Ht. unfold checkProduct. apply keeps_tryCatch.
  - apply keeps_bind.
    + unfold fetchProductData. destruct (c_fetch env); [apply keeps_throw | apply keeps_ret].
    + intros data. destruct (negb _);
        [apply junkPath_keeps | apply validPath_keeps]; exact Ht.
  - intros err. apply failurePath_keeps; exact Ht.
Qed.

Lemma tickItem_keeps nameFromUrl rev env i product :
  touched (p_id product) → keeps I (tickItem nameFromUrl rev env i product).
Proof.
  intros Ht. unfold tickItem, sleep. cbv zeta.
  apply keeps_bind; [apply keeps_limiterCanRequest|]. intros ok.
  apply keeps_bind; [invariant|]. intros _.
  destruct (_ && _); [apply keeps_ret|].
  invariant. apply checkProduct_keeps; exact Ht.
Qed.

Lemma tickLoop_keeps nameFromUrl rev env i eligible :
  (∀ p, In p eligible → touched (p_id p)) →
  keeps I (tickLoop nameFromUrl rev env i eligible).
Proof.
  revert i. induction eligible as [|product rest IH]; intros i Ht; cbn [tickLoop].
  - apply keeps_ret.
  - apply keeps_bind; [apply tickItem_keeps; apply Ht; left; reflexivity|].
    intros _. apply IH. intros p Hp. apply Ht. right. exact Hp.
Qed.

Lemma monitorTick_keeps nameFromUrl rev env (w : World) :
  (∀ p, In p (products w) → eligibleProduct p = true → touched (p_id p)) →
  I (products w) → I (products (final (monitorTick nameFromUrl rev env w))).
Proof.
  intros Ht H. unfold monitorTick. destruct (isChecking w); [exact H|].
  unfold tryFinally. cbn [final products withChecking].
  rewrite run_bind. cbn [getProducts result final trace products withChecking].
  destruct (_ =? _)%nat; [exact H|].
  match goal with |- I (products (final (?m ?w'))) =>
    assert (K : keeps I m); [|apply (K w'); exact H] end.
  unfold refreshBadge. invariant.
  apply tickLoop_keeps. intros p Hp. apply List.filter_In in Hp as [Hp He].
  apply Ht; assumption.
Qed.

End EngineInvariants.

Lemma stable_other (other : string) (ps0 : list Product) :
  stable (λ key, key ≠ other)
         (λ ps, findProduct other ps = findProduct other ps0).
Proof.
  intros key u ps i q Hk Hq H. rewrite <- H.
  eapply list_find_insert_other; [exact Hq | reflexivity | auto].
Qed.

Lemma stable_ownedByUser (ps0 : list Product) :
  stable (λ _, True) (λ ps, ownedByUser <$> ps = ownedByUser <$> ps0).
Proof.
  intros key u ps i q _ Hq H. rewrite <- H.
  rewrite list_fmap_insert. apply list_insert_id.
  rewrite list_lookup_fmap. apply list_find_Some in Hq as (-> & _). reflexivity.
Qed.

Lemma stable_absent (ps0 : list Product) :
  stable (λ key, findProduct key ps0 = None) (λ ps, ps = ps0).
Proof.
  intros key u ps i q Hk Hq ->. apply findProduct_None in Hk. congruence.
Qed.

(** X13. Whatever its outcome, a check writes to the record of the product
    it checks only, never to the keys that belong to the user (id, URL,
    selected variants, auto-add flag, quantity), and it neither adds nor
    removes a product. *)
Theorem check_writes_only_to_its_product nameFromUrl rev product settings env
    (w : World) :
  let r := checkProduct nameFromUrl rev product settings env w in
  (∀ other, other ≠ p_id product →
     findProduct other (products (final r)) = findProduct other (products w))
  ∧ ownedByUser <$> products (final r) = ownedByUser <$> products w
  ∧ length (products (final r)) = length (products w).
Proof.
  cbv zeta.
  assert (Howned : ownedByUser <$> products (final (checkProduct nameFromUrl rev product settings env w))
                   = ownedByUser <$> products w).
  { apply (checkProduct_keeps _ _ (stable_ownedByUser (products w))); auto. }
  split; [|split; [exact Howned|]].
  - intros other Hne.
    apply (checkProduct_keeps _ _ (stable_other other (products w))); auto.
  - rewrite <- (length_fmap ownedByUser), Howned. apply length_fmap.
Qed.

(** X14. A tick leaves alone every product whose id is not the id of an
    active or error-state product (a paused one, for example), and it
    neither adds, removes nor reorders products. *)
Theorem tick_leaves_unmonitored_products_alone nameFromUrl rev env (w : World)
    (other : string) :
  (∀ p, In p (products w) → eligibleProduct p = true → p_id p ≠ other) →
  let r := monitorTick nameFromUrl rev env w in
  findProduct other (products (final r)) = findProduct other (products w)
  ∧ ownedByUser <$> products (final r) = ownedByUser <$> products w.
Proof.
  intros H. cbv zeta. split.
  - apply (monitorTick_keeps _ _ (stable_other other (products w))); auto.
  - apply (monitorTick_keeps _ _ (stable_ownedByUser (products w))); auto.
Qed.

Lemma tick_leaves_unmonitored_products_alone_witness :
  findProduct "p2"
    (products (final (monitorTick nameFromUrl_fallback Newer restockTick twoProducts)))
  = Some pausedProduct.
Proof.
  destruct (tick_leaves_unmonitored_products_alone nameFromUrl_fallback Newer
              restockTick twoProducts "p2") as [H _].
  - intros p [<-|[<-|[]]]; vm_compute; congruence.
  - rewrite H. reflexivity.
Defined.

Section Unstored.

Variables (rev : Revision) (product : Product) (settings : Settings)
          (env : CheckEnv) (data : Data) (w : World).
Hypothesis absent : findProduct (p_id product) (products w) = None.

Lemma recoveryPart_unstored (w' : World) :
  products w' = products w →
  products (final (recoveryPart product env w')) = products w.
Proof.
  intros H. generalize w' H. change (keeps (λ ps, ps = products w) (recoveryPart product env)).
  unfold recoveryPart. invariant.
Qed.

Lemma restockPart_unstored (w' : World) :
  products w' = products w →
  products (final (restockPart rev product settings env data w')) = products w.
Proof.
  intros H. generalize w' H.
  change (keeps (λ ps, ps = products w) (restockPart rev product settings env data)).
  unfold restockPart. invariant.
  apply (triggerAddToCart_keeps _ _ (stable_absent (products w))). exact absent.
Qed.

Lemma soldOutPart_unstored (w' : World) :
  products w' = products w →
  products (final (soldOutPart product env data w')) = products w.
Proof.
  intros H. generalize w' H.
  change (keeps (λ ps, ps = products w) (soldOutPart product env data)).
  unfold soldOutPart. invariant.
Qed.

Lemma priceDropPart_unstored (w' : World) :
  products w' = products w →
  products (final (priceDropPart rev product settings env data w')) = products w.
Proof.
  intros H. generalize w' H.
  change (keeps (λ ps, ps = products w) (priceDropPart rev product settings env data)).
  unfold priceDropPart. invariant.
Qed.

Lemma validPath_unstored :
  result (validPath rev product settings env data w) = inl (NotFoundMsg (p_id product)).
Proof.
  unfold validPath.
  destruct (run_seq (recoveryPart product env)
              (restockPart rev product settings env data;;
               soldOutPart product env data;;
               priceDropPart rev product settings env data;;
               persistPart rev product settings env data) w
              (recoveryPart_returns product env)) as (-> & _).
  set (w1 := final (recoveryPart product env w)).
  destruct (run_seq (restockPart rev product settings env data)
              (soldOutPart product env data;;
               priceDropPart rev product settings env data;;
               persistPart rev product settings env data) w1
              (restockPart_returns rev product settings env data)) as (-> & _).
  set (w2 := final (restockPart rev product settings env data w1)).
  destruct (run_seq (soldOutPart product env data)
              (priceDropPart rev product settings env data;;
               persistPart rev product settings env data) w2
              (soldOutPart_returns product env data)) as (-> & _).
  set (w3 := final (soldOutPart product env data w2)).
  destruct (run_seq (priceDropPart rev product settings env data)
              (persistPart rev product settings env data) w3
              (priceDropPart_returns rev product settings env data)) as (-> & _).
  set (w4 := final (priceDropPart rev product settings env data w3)).
  assert (H4 : products w4 = products w).
  { apply priceDropPart_unstored, soldOutPart_unstored, restockPart_unstored,
      recoveryPart_unstored. reflexivity. }
  unfold persistPart. rewrite run_bind.
  rewrite updateProduct_missing by (rewrite H4; apply findProduct_None; exact absent).
  reflexivity.
Qed.

End Unstored.

(** X15. A check of a product that is no longer stored throws the error of
    [updateProduct] and leaves the stored products as they are, on each of
    its three paths. *)
Theorem check_of_unstored_product_throws nameFromUrl rev product settings env
    (w : World) :
  findProduct (p_id product) (products w) = None →
  let r := checkProduct nameFromUrl rev product settings env w in
  result r = inl (NotFoundMsg (p_id product))
  ∧ products (final r) = products w.
Proof.
  intros Habs. cbv zeta.
  split.
  - assert (Hthrow : ∀ err (w' : World), products w' = products w →
              result (failurePath product settings env err w')
              = inl (NotFoundMsg (p_id product))).
    { intros err w' Hw. unfold failurePath. rewrite run_bind.
      rewrite updateProduct_missing
        by (rewrite Hw; apply findProduct_None; exact Habs).
      reflexivity. }
    unfold checkProduct. rewrite run_tryCatch, run_bind.
    unfold fetchProductData.
    destruct (c_fetch env) as [err|data]; cbn [throw mret M_ret result final trace].
    + apply Hthrow. reflexivity.
    + destruct (negb (isValidProductData rev (Some data))).
      * assert (E : junkPath nameFromUrl rev product settings env data w
                    = MkRun (inl (NotFoundMsg (p_id product))) w []).
        { unfold junkPath. cbv zeta. rewrite run_bind.
          rewrite updateProduct_missing by (apply findProduct_None; exact Habs).
          reflexivity. }
        rewrite E. cbn [result final trace]. apply Hthrow. reflexivity.
      * rewrite (validPath_unstored rev product settings env data w Habs).
        cbn [result final trace]. apply Hthrow.
        apply (validPath_keeps _ _ (stable_absent (products w))); auto.
  - apply (checkProduct_keeps _ _ (stable_absent (products w))); auto.
Qed.

Lemma check_of_unstored_product_throws_witness :
  result (checkProduct nameFromUrl_fallback Newer pausedProduct DEFAULT_SETTINGS
            (envOf (inr restockedData)) sampleWorld)
  = inl (NotFoundMsg (p_id pausedProduct))
  ∧ products (final (checkProduct nameFromUrl_fallback Newer pausedProduct
                       DEFAULT_SETTINGS (envOf (inr restockedData)) sampleWorld))
    = products sampleWorld.
Proof.
  apply (check_of_unstored_product_throws nameFromUrl_fallback Newer pausedProduct
           DEFAULT_SETTINGS (envOf (inr restockedData)) sampleWorld).
  reflexivity.
Defined.

(** ** The outcome of a check *)

Lemma failurePath_trace product settings env err (w : World) i q :
  list_find (λ p, p_id p = p_id product) (products w) = Some (i, q) →
  trace (failurePath product settings env err w)
  = Logged (logEntry (c_now env) (p_id product) ev_error err)
    :: (if (p_errorCount product + 1 =? 5) && notificationsEnabled settings
        then [NotifiedError product (HittingErrorsMsg (p_errorCount product + 1) err)]
        else []).
Proof.
  intros Hq. unfold failurePath.
  rewrite run_bind, (updateProduct_run _ _ _ _ _ Hq). cbn [result final trace].
  rewrite run_bind. cbn [addLog result final trace app].
  destruct (p_errorCount product + 1 =? 5) eqn:E5; cbn [when andb]; [|reflexivity].
  rewrite run_bind.
  erewrite updateProduct_run
    by (cbn [products withLogs withProducts];
        eapply list_find_insert_same; [exact Hq | reflexivity]).
  cbn [result final trace app].
  destruct (notificationsEnabled settings); reflexivity.
Qed.

Lemma junkPath_trace nameFromUrl rev product settings env data (w : World) i q :
  list_find (λ p, p_id p = p_id product) (products w) = Some (i, q) →
  trace (junkPath nameFromUrl rev product settings env data w)
  = Logged (logEntry (c_now env) (p_id product) ev_error
              (InvalidDataMsg (match d_name data with
                               | Some (String _ _ as n) => n
                               | _ => "empty"%string
                               end)))
    :: (if (p_errorCount product + 1 =? 10) && notificationsEnabled settings
        then [NotifiedError product (TakenDownMsg (p_errorCount product + 1))]
        else []).
Proof.
  intros Hq. unfold junkPath. cbv zeta.
  rewrite run_bind, (updateProduct_run _ _ _ _ _ Hq). cbn [result final trace].
  rewrite run_bind. cbn [addLog result final trace app].
  destruct (p_errorCount product + 1 =? 10), (notificationsEnabled settings); reflexivity.
Qed.

Lemma checkProduct_junk_trace nameFromUrl rev product settings env data (w : World) q :
  c_fetch env = inr data →
  isValidProductData rev (Some data) = false →
  findProduct (p_id product) (products w) = Some q →
  trace (checkProduct nameFromUrl rev product settings env w)
  = Logged (logEntry (c_now env) (p_id product) ev_error
              (InvalidDataMsg (match d_name data with
                               | Some (String _ _ as n) => n
                               | _ => "empty"%string
                               end)))
    :: (if (p_errorCount product + 1 =? 10) && notificationsEnabled settings
        then [NotifiedError product (TakenDownMsg (p_errorCount product + 1))]
        else []).
Proof.
  intros Hf Hv Hq. apply findProduct_Some in Hq as [i Hq].
  rewrite (checkProduct_junk_path _ _ _ _ _ _ _ Hf Hv), run_tryCatch.
  destruct (junkPath_run nameFromUrl rev product settings env data w i q Hq)
    as (nameFix & Hres & _).
  rewrite Hres. eapply junkPath_trace. exact Hq.
Qed.

Lemma checkProduct_failure_trace nameFromUrl rev product settings env err (w : World) q :
  c_fetch env = inl err →
  findProduct (p_id product) (products w) = Some q →
  trace (checkProduct nameFromUrl rev product settings env w)
  = Logged (logEntry (c_now env) (p_id product) ev_error err)
    :: (if (p_errorCount product + 1 =? 5) && notificationsEnabled settings
        then [NotifiedError product (HittingErrorsMsg (p_errorCount product + 1) err)]
        else []).
Proof.
  intros Hf Hq. apply findProduct_Some in Hq as [i Hq].
  rewrite (checkProduct_failure_path _ _ _ _ _ _ _ Hf).
  eapply failurePath_trace. exact Hq.
Qed.

Lemma eraseMaxQty_monitorState q1 q :
  eraseMaxQty q1 = eraseMaxQty q → p_monitorState q1 = p_monitorState q.
Proof. intros H. apply (f_equal p_monitorState) in H. exact H. Qed.

(** X16. The transition a check makes on the stored record, for every
    outcome and every monitor state: it returns and stamps [lastChecked];
    valid data resets the error count and turns [error] into [active]; a
    junk page adds one to the count and keeps the state; a failed fetch
    adds one and sets [error] when the count reaches 5, also for a paused
    product that is checked by hand. *)
Theorem check_outcome_decides_count_and_state nameFromUrl rev product settings env
    (w : World) q :
  findProduct (p_id product) (products w) = Some q →
  let r := checkProduct nameFromUrl rev product settings env w in
  result r = inr ()
  ∧ ∃ q',
      findProduct (p_id product) (products (final r)) = Some q'
      ∧ p_lastChecked q' = Some (c_now env)
      ∧ match c_fetch env with
        | inl err =>
            p_errorCount q' = p_errorCount product + 1
            ∧ p_lastError q' = Some err
            ∧ p_monitorState q'
              = (if p_errorCount product + 1 =? 5 then Error else p_monitorState q)
        | inr data =>
            if isValidProductData rev (Some data) then
              p_errorCount q' = 0
              ∧ p_lastError q' = None
              ∧ p_monitorState q'
                = (match p_monitorState product with
                   | Error => Active
                   | _ => p_monitorState q
                   end)
            else
              p_errorCount q' = p_errorCount product + 1
              ∧ (∃ shown, p_lastError q' = Some (InvalidDataMsg shown))
              ∧ p_monitorState q' = p_monitorState q
        end.
Proof.
  intros Hq. cbv zeta.
  destruct (c_fetch env) as [err|data] eqn:Hf.
  - destruct (checkProduct_failure nameFromUrl rev product settings env err w q Hf Hq)
      as (Hres & Hfind & _).
    split; [exact Hres|]. eexists. split; [exact Hfind|].
    destruct (p_errorCount product + 1 =? 5); cbn; auto.
  - destruct (isValidProductData rev (Some data)) eqn:Hv.
    + destruct (checkProduct_valid nameFromUrl rev product settings env data w q Hf Hv Hq)
        as (w1 & w2 & w3 & q1 & E1 & Hres & Hfind & _).
      split; [exact Hres|]. eexists. split; [exact Hfind|].
      pose proof (eraseMaxQty_monitorState _ _ E1) as Hs.
      unfold merge; cbn [p_lastChecked p_errorCount p_lastError p_monitorState].
      rewrite validUpdates_errorCount, validUpdates_lastError, validUpdates_monitorState.
      assert (Hlc : u_lastChecked (validUpdates rev product settings env data)
                    = Some (c_now env)).
      { unfold validUpdates, updatesAfterRestock, updatesAfterRecovery.
        destruct (decreased _ _), (restocked _ _), (recovered _); reflexivity. }
      rewrite Hlc. unfold recovered.
      destruct (p_monitorState product); cbn; rewrite ?Hs; auto.
    + destruct (checkProduct_junk nameFromUrl rev product settings env data w q Hf Hv Hq)
        as (nameFix & Hres & Hfind & _).
      split; [exact Hres|]. eexists. split; [exact Hfind|].
      cbn. eauto.
Qed.

(** [CHECK_NOW] on a paused product whose fifth fetch in a row fails. *)
Lemma check_outcome_decides_count_and_state_witness :
  ∃ q', findProduct "p2"
          (products (final (checkProduct nameFromUrl_fallback Newer
                              (withErrorCount 4 pausedProduct) DEFAULT_SETTINGS
                              (envOf unreachable)
                              (worldOf [withErrorCount 4 pausedProduct]))))
        = Some q'
        ∧ p_errorCount q' = 5 ∧ p_monitorState q' = Error.
Proof.
  destruct (check_outcome_decides_count_and_state nameFromUrl_fallback Newer
              (withErrorCount 4 pausedProduct) DEFAULT_SETTINGS (envOf unreachable)
              (worldOf [withErrorCount 4 pausedProduct])
              (withErrorCount 4 pausedProduct))
    as (_ & q' & Hfind & _ & Hcount & _ & Hstate); [reflexivity|].
  exists q'. split; [exact Hfind|]. split; [exact Hcount | exact Hstate].
Defined.

(** X17. A failed fetch writes [lastChecked], [errorCount], [lastError]
    and, at the fifth, [monitorState]; every other key of the record stays,
    and one error entry is logged. *)
Theorem fetch_failure_keeps_product_data nameFromUrl rev product settings env err
    (w : World) q :
  c_fetch env = inl err →
  findProduct (p_id product) (products w) = Some q →
  let r := checkProduct nameFromUrl rev product settings env w in
  ∃ q',
    findProduct (p_id product) (products (final r)) = Some q'
    ∧ p_name q' = p_name q ∧ p_imageUrl q' = p_imageUrl q
    ∧ p_currentPrice q' = p_currentPrice q
    ∧ p_previousPrice q' = p_previousPrice q
    ∧ p_stockStatus q' = p_stockStatus q
    ∧ p_lastInStock q' = p_lastInStock q
    ∧ p_maxPurchaseQty q' = p_maxPurchaseQty q
    ∧ p_history q' = p_history q
    ∧ logged (trace r) = [logEntry (c_now env) (p_id product) ev_error err]
    ∧ logs (final r)
      = take MAX_LOGS (logEntry (c_now env) (p_id product) ev_error err :: logs w).
Proof.
  intros Hf Hq. cbv zeta.
  destruct (checkProduct_failure nameFromUrl rev product settings env err w q Hf Hq)
    as (_ & Hfind & _).
  eexists. split; [exact Hfind|].
  rewrite (checkProduct_failure_trace _ _ _ _ _ _ _ _ Hf Hq).
  repeat split; try (destruct (p_errorCount product + 1 =? 5); reflexivity).
  - destruct (_ && _); reflexivity.
  - rewrite (checkProduct_failure_path _ _ _ _ _ _ _ Hf).
    apply findProduct_Some in Hq as [i Hq].
    unfold failurePath.
    rewrite run_bind, (updateProduct_run _ _ _ _ _ Hq). cbn [result final trace].
    rewrite run_bind. cbn [addLog result final trace app].
    destruct (p_errorCount product + 1 =? 5) eqn:E5; cbn [when]; [|reflexivity].
    rewrite run_bind.
    erewrite updateProduct_run
      by (cbn [products withLogs withProducts];
          eapply list_find_insert_same; [exact Hq | reflexivity]).
    cbn [result final trace app].
    destruct (notificationsEnabled settings); reflexivity.
Qed.

Lemma fetch_failure_keeps_product_data_witness :
  ∃ q',
    findProduct "p1"
      (products (final (checkProduct nameFromUrl_fallback Newer sampleProduct
                          DEFAULT_SETTINGS (envOf unreachable) sampleWorld)))
    = Some q'
    ∧ p_currentPrice q' = 2999 # 100 ∧ p_stockStatus q' = OutOfStock.
Proof.
  destruct (fetch_failure_keeps_product_data nameFromUrl_fallback Newer sampleProduct
              DEFAULT_SETTINGS (envOf unreachable)
              (Text "Content script returned no data.") sampleWorld sampleProduct)
    as (q' & Hfind & _ & _ & Hprice & _ & Hstock & _); [reflexivity | reflexivity |].
  exists q'. split; [exact Hfind|]. split; [exact Hprice | exact Hstock].
Defined.

(** ** The events of a check *)

Lemma triggerAddToCart_quiet_errorNotice rev product cart :
  quiet isErrorNotice (triggerAddToCart rev product cart).
Proof.
  destruct rev; cbn [triggerAddToCart].
  - unfold settle, sleep; compose.
  - apply addToBagAttempts_quiet; reflexivity.
Qed.

Lemma triggerAddToCart_quiet_soldOut rev product cart :
  quiet isSoldOut (triggerAddToCart rev product cart).
Proof.
  destruct rev; cbn [triggerAddToCart].
  - unfold settle, sleep; compose.
  - apply addToBagAttempts_quiet; try reflexivity.
    intros l [H|H]; cbn; rewrite H; reflexivity.
Qed.

Section ValidEvents.

Variables (nameFromUrl : string → string) (rev : Revision) (product : Product)
          (settings : Settings) (env : CheckEnv) (data : Data).

Lemma validPath_quiet_errorNotice :
  quiet isErrorNotice (validPath rev product settings env data).
Proof.
  unfold validPath, recoveryPart, restockPart, soldOutPart, priceDropPart, persistPart.
  compose. apply triggerAddToCart_quiet_errorNotice.
Qed.

Lemma recoveryPart_quiet_soldOut : quiet isSoldOut (recoveryPart product env).
Proof. unfold recoveryPart. compose. Qed.
Lemma restockPart_quiet_soldOut :
  quiet isSoldOut (restockPart rev product settings env data).
Proof. unfold restockPart. compose. apply triggerAddToCart_quiet_soldOut. Qed.
Lemma priceDropPart_quiet_soldOut :
  quiet isSoldOut (priceDropPart rev product settings env data).
Proof. unfold priceDropPart. compose. Qed.

Lemma soldOutPart_fires w :
  existsb isSoldOut (trace (soldOutPart product env data w)) = soldOut product data.
Proof. unfold soldOutPart. destruct (soldOut product data); reflexivity. Qed.

End ValidEvents.

(** X18. The error notification goes out at the fifth failed fetch in a
    row and at the tenth junk page in a row, when notifications are
    enabled: not before, and not again at the checks that follow. *)
Theorem error_notice_only_at_the_thresholds nameFromUrl rev product settings env
    (w : World) q :
  findProduct (p_id product) (products w) = Some q →
  let r := checkProduct nameFromUrl rev product settings env w in
  existsb isErrorNotice (trace r)
  = notificationsEnabled settings
    && match c_fetch env with
       | inl _ => p_errorCount product + 1 =? 5
       | inr data => negb (isValidProductData rev (Some data))
                     && (p_errorCount product + 1 =? 10)
       end.
Proof.
  intros Hq. cbv zeta.
  destruct (c_fetch env) as [err|data] eqn:Hf.
  - rewrite (checkProduct_failure_trace _ _ _ _ _ _ _ _ Hf Hq).
    destruct (p_errorCount product + 1 =? 5), (notificationsEnabled settings); reflexivity.
  - destruct (isValidProductData rev (Some data)) eqn:Hv; cbn [negb andb].
    + rewrite andb_false_r.
      apply findProduct_Some in Hq as [i Hq].
      rewrite (checkProduct_valid_path _ _ _ _ _ _ _ Hf Hv), run_tryCatch.
      destruct (validPath_run rev product settings env data w i q Hq)
        as (_ & _ & _ & _ & _ & _ & _ & Hres & _).
      rewrite Hres. apply validPath_quiet_errorNotice.
    + rewrite (checkProduct_junk_trace _ _ _ _ _ _ _ _ Hf Hv Hq).
      destruct (p_errorCount product + 1 =? 10), (notificationsEnabled settings); reflexivity.
Qed.

Lemma error_notice_only_at_the_thresholds_witness :
  existsb isErrorNotice
    (trace (checkProduct nameFromUrl_fallback Newer shakyProduct DEFAULT_SETTINGS
              (envOf unreachable) (worldOf [shakyProduct])))
  = true
  ∧ existsb isErrorNotice
      (trace (checkProduct nameFromUrl_fallback Newer degradedProduct DEFAULT_SETTINGS
                (envOf unreachable) (worldOf [degradedProduct])))
    = false.
Proof.
  split.
  - rewrite (error_notice_only_at_the_thresholds nameFromUrl_fallback Newer shakyProduct
               DEFAULT_SETTINGS (envOf unreachable) (worldOf [shakyProduct])
               shakyProduct); reflexivity.
  - rewrite (error_notice_only_at_the_thresholds nameFromUrl_fallback Newer
               degradedProduct DEFAULT_SETTINGS (envOf unreachable)
               (worldOf [degradedProduct]) degradedProduct); reflexivity.
Defined.

(** X19. The out-of-stock log entry is written exactly when valid data
    reports [out_of_stock] for a product that was [in_stock]. *)
Theorem sold_out_logged_iff nameFromUrl rev product settings env (w : World) q :
  findProduct (p_id product) (products w) = Some q →
  let r := checkProduct nameFromUrl rev product settings env w in
  fires isSoldOut r
  ↔ ∃ data, c_fetch env = inr data
            ∧ isValidProductData rev (Some data) = true
            ∧ d_stockStatus data = OutOfStock
            ∧ p_stockStatus product = InStock.
Proof.
  intros Hq. cbv zeta. unfold fires.
  destruct (c_fetch env) as [err|data] eqn:Hf.
  - rewrite (checkProduct_failure_trace _ _ _ _ _ _ _ _ Hf Hq).
    split; [|intros (d & [=] & _)].
    destruct (_ && _); cbn; discriminate.
  - destruct (isValidProductData rev (Some data)) eqn:Hv.
    + destruct (checkProduct_valid nameFromUrl rev product settings env data w q Hf Hv Hq)
        as (w1 & w2 & w3 & q1 & _ & _ & _ & ->).
      rewrite !existsb_app, recoveryPart_quiet_soldOut, restockPart_quiet_soldOut,
        soldOutPart_fires, priceDropPart_quiet_soldOut.
      cbn. rewrite !orb_false_r. unfold soldOut.
      split.
      * intros H. apply andb_true_iff in H as [H1 H2].
        exists data. repeat split; auto.
        -- destruct (d_stockStatus data); try discriminate; reflexivity.
        -- destruct (p_stockStatus product); try discriminate; reflexivity.
      * intros (d & [= <-] & _ & -> & ->). reflexivity.
    + rewrite (checkProduct_junk_trace _ _ _ _ _ _ _ _ Hf Hv Hq).
      split; [|intros (d & [= <-] & C & _); congruence].
      destruct (_ && _); cbn; discriminate.
Qed.

Lemma sold_out_logged_iff_witness :
  fires isSoldOut
    (checkProduct nameFromUrl_fallback Newer pausedProduct DEFAULT_SETTINGS
       (envOf (inr unpricedData)) twoProducts).
Proof.
  apply (sold_out_logged_iff nameFromUrl_fallback Newer pausedProduct DEFAULT_SETTINGS
           (envOf (inr unpricedData)) twoProducts pausedProduct); [reflexivity|].
  exists unpricedData. repeat split.
Defined.

(** ** The log *)

Lemma take_app_take {A} (n : nat) (a b : list A) :
  take n (a ++ take n b) = take n (a ++ b).
Proof.
  rewrite !take_app, take_take. f_equal. f_equal. lia.
Qed.

Lemma logged_app (t1 t2 : list Effect) : logged (t1 ++ t2) = logged t1 ++ logged t2.
Proof. unfold logged. apply omap_app. Qed.

Lemma journaled_still {A} (m : M A) :
  (∀ w, logs (final (m w)) = logs w ∧ logged (trace (m w)) = []) → journaled m.
Proof.
  intros H w Hw. destruct (H w) as [-> ->]. cbn.
  symmetry. apply take_ge. exact Hw.
Qed.

Lemma journaled_length {A} (m : M A) (w : World) :
  journaled m → (length (logs w) ≤ MAX_LOGS)%nat →
  (length (logs (final (m w))) ≤ MAX_LOGS)%nat.
Proof. intros H Hw. rewrite (H w Hw). rewrite length_take. lia. Qed.

Lemma journaled_bind {A B} (m : M A) (f : A → M B) :
  journaled m → (∀ a, journaled (f a)) → journaled (m ≫= f).
Proof.
  intros Hm Hf w Hw. rewrite run_bind.
  destruct (result (m w)) as [e|a]; cbn [final trace]; [apply Hm, Hw|].
  rewrite (Hf a _ (journaled_length m w Hm Hw)), (Hm w Hw).
  rewrite take_app_take, logged_app, rev_app_distr, <- app_assoc. reflexivity.
Qed.

Lemma journaled_tryCatch {A} (m : M A) (h : Message → M A) :
  journaled m → (∀ e, journaled (h e)) → journaled (tryCatch m h).
Proof.
  intros Hm Hh w Hw. rewrite run_tryCatch.
  destruct (result (m w)) as [e|a]; cbn [final trace]; [|apply Hm, Hw].
  rewrite (Hh e _ (journaled_length m w Hm Hw)), (Hm w Hw).
  rewrite take_app_take, logged_app, rev_app_distr, <- app_assoc. reflexivity.
Qed.

Lemma journaled_ret {A} (a : A) : journaled (mret a : M A).
Proof. apply journaled_still. intros w. split; reflexivity. Qed.

Lemma journaled_throw {A} (e : Message) : journaled (throw e : M A).
Proof. apply journaled_still. intros w. split; reflexivity. Qed.

Lemma journaled_emit e : logged [e] = [] → journaled (emit e).
Proof. intros H. apply journaled_still. intros w. split; [reflexivity | exact H]. Qed.

Lemma journaled_addLog entry : journaled (addLog entry).
Proof. intros w Hw. reflexivity. Qed.

Lemma journaled_when b (m : M ()) : journaled m → journaled (when b m).
Proof. destruct b; [auto | intros _; apply journaled_ret]. Qed.

Lemma journaled_rejects step o : journaled (rejects step o).
Proof.
  unfold rejects. destruct (rejection o) as [[s err]|]; [|apply journaled_ret].
  destruct (CartStep_eqb s step); [apply journaled_throw | apply journaled_ret].
Qed.

Lemma journaled_getProducts : journaled getProducts.
Proof. apply journaled_still. intros w. split; reflexivity. Qed.

Lemma journaled_updateProduct key u : journaled (updateProduct key u).
Proof.
  apply journaled_still. intros w.
  destruct (list_find (λ p, p_id p = key) (products w)) as [[i q]|] eqn:E.
  - rewrite (updateProduct_run _ _ _ _ _ E). split; reflexivity.
  - rewrite (updateProduct_missing _ _ _ E). split; reflexivity.
Qed.

Lemma journaled_limiterCanRequest now : journaled (limiterCanRequest now).
Proof.
  apply journaled_still. intros w. unfold limiterCanRequest.
  destruct (RateLimiter.canRequest now (limiter w)). split; reflexivity.
Qed.

Lemma journaled_limiterWaitTime now : journaled (limiterWaitTime now).
Proof.
  apply journaled_still. intros w. unfold limiterWaitTime.
  destruct (RateLimiter.waitTime now (limiter w)). split; reflexivity.
Qed.

Lemma journaled_limiterRecord now : journaled (limiterRecord now).
Proof. apply journaled_still. intros w. split; reflexivity. Qed.

Ltac journal_step :=
  lazymatch goal with
  | |- journaled (updateProduct _ _) => apply journaled_updateProduct
  | |- journaled (addLog _) => apply journaled_addLog
  | |- journaled (emit _) => apply journaled_emit; reflexivity
  | |- journaled (rejects _ _) => apply journaled_rejects
  | |- journaled (limiterCanRequest _) => apply journaled_limiterCanRequest
  | |- journaled (limiterWaitTime _) => apply journaled_limiterWaitTime
  | |- journaled (limiterRecord _) => apply journaled_limiterRecord
  | |- journaled getProducts => apply journaled_getProducts
  | |- journaled (when _ _) => apply journaled_when
  | |- journaled (mret _) => apply journaled_ret
  | |- journaled (throw _) => apply journaled_throw
  | |- journaled (tryCatch _ _) => apply journaled_tryCatch; [|intros ?]
  | |- journaled (_ ≫= _) => apply journaled_bind; [|intros ?]
  | |- journaled (if ?b then _ else _) => destruct b
  | |- journaled (match ?x with _ => _ end) => destruct x
  end.

Ltac journal := repeat journal_step.

Lemma addToBagAttempt_journaled product cart attempt :
  journaled (addToBagAttempt product cart attempt).
Proof. unfold addToBagAttempt, settle, sleep. journal. Qed.

Lemma addToBagAttempts_journaled product cart attempts lastError :
  journaled (addToBagAttempts product cart attempts lastError).
Proof.
  revert lastError. induction attempts as [|attempt rest IH]; intros lastError;
    cbn [addToBagAttempts]; unfold sleep; journal;
    first [apply IH | apply addToBagAttempt_journaled].
Qed.

Lemma triggerAddToCart_journaled rev product cart :
  journaled (triggerAddToCart rev product cart).
Proof.
  destruct rev; cbn [triggerAddToCart];
    [unfold settle, sleep; journal | apply addToBagAttempts_journaled].
Qed.

Lemma checkProduct_journaled nameFromUrl rev product settings env :
  journaled (checkProduct nameFromUrl rev product settings env).
Proof.
  unfold checkProduct. apply journaled_tryCatch.
  - apply journaled_bind.
    + unfold fetchProductData.
      destruct (c_fetch env); [apply journaled_throw | apply journaled_ret].
    + intros data. destruct (negb _).
      * unfold junkPath. cbv zeta. journal.
      * unfold validPath, recoveryPart, restockPart, soldOutPart, priceDropPart,
          persistPart.
        journal. apply triggerAddToCart_journaled.
  - intros err. unfold failurePath. journal.
Qed.

Lemma tickItem_journaled nameFromUrl rev env i product :
  journaled (tickItem nameFromUrl rev env i product).
Proof.
  unfold tickItem, sleep. cbv zeta.
  apply journaled_bind; [apply journaled_limiterCanRequest|]. intros ok.
  apply journaled_bind; [journal|]. intros _.
  destruct (_ && _); [apply journaled_ret|].
  journal. apply checkProduct_journaled.
Qed.

Lemma tickLoop_journaled nameFromUrl rev env i eligible :
  journaled (tickLoop nameFromUrl rev env i eligible).
Proof.
  revert i. induction eligible as [|product rest IH]; intros i; cbn [tickLoop].
  - apply journaled_ret.
  - apply journaled_bind; [apply tickItem_journaled | intros _; apply IH].
Qed.

Lemma monitorTick_journaled nameFromUrl rev env :
  journaled (monitorTick nameFromUrl rev env).
Proof.
  intros w Hw. unfold monitorTick.
  destruct (isChecking w); [cbn; symmetry; apply take_ge; exact Hw|].
  unfold tryFinally. cbn [final trace logs withChecking].
  match goal with |- logs (final (?m ?w')) = _ =>
    assert (J : journaled m); [|apply (J w'); exact Hw] end.
  apply journaled_bind; [apply journaled_getProducts|]. intros ps.
  destruct (_ =? _)%nat; [apply journaled_ret|].
  unfold refreshBadge. journal. apply tickLoop_journaled.
Qed.

(** X20. The stored log is the record of the log calls a check and a tick
    make: nothing else is written to it, the entries that were there are
    neither changed nor reordered, and only the oldest ones fall off the
    end at [MAX_LOGS]. *)
Theorem stored_log_follows_the_calls nameFromUrl rev (w : World) :
  (length (logs w) ≤ MAX_LOGS)%nat →
  (∀ product settings env,
     let r := checkProduct nameFromUrl rev product settings env w in
     logs (final r) = take MAX_LOGS (List.rev (logged (trace r)) ++ logs w)
     ∧ (length (logs (final r)) ≤ MAX_LOGS)%nat)
  ∧ (∀ env,
       let r := monitorTick nameFromUrl rev env w in
       logs (final r) = take MAX_LOGS (List.rev (logged (trace r)) ++ logs w)
       ∧ (length (logs (final r)) ≤ MAX_LOGS)%nat).
Proof.
  intros Hw. split.
  - intros product settings env. cbv zeta. split.
    + apply checkProduct_journaled. exact Hw.
    + apply journaled_length; [apply checkProduct_journaled | exact Hw].
  - intros env. cbv zeta. split.
    + apply monitorTick_journaled. exact Hw.
    + apply journaled_length; [apply monitorTick_journaled | exact Hw].
Qed.

Lemma stored_log_follows_the_calls_witness :
  l_event <$> logs (final (monitorTick nameFromUrl_fallback Newer restockTick twoProducts))
  = [ev_check; ev_price_change; ev_in_stock].
Proof.
  destruct (stored_log_follows_the_calls nameFromUrl_fallback Newer twoProducts)
    as [_ H]; [vm_compute; lia|].
  destruct (H restockTick) as [-> _]. reflexivity.
Defined.

(** ** The backoff gate of the tick *)

Lemma backoffDelay_le (rnd : Q) (n : Z) :
  0 <= n → (0 <= rnd)%Q → (rnd < 1)%Q → backoffDelay rnd n <= 360000.
Proof.
  intros Hn H0 H1.
  destruct (jitter_factor_bounds rnd 20 H0 H1) as [_ Hhi]; [lra|].
  assert (Hf : (1 + (rnd * 2 - 1) * (20 / 100) <= 6 # 5)%Q).
  { eapply Qle_trans; [exact Hhi|].
    unfold Qdiv. change (/ 100)%Q with (1 # 100)%Q. lra. }
  pose proof (backoff_ceiling_ge n Hn) as Hge.
  assert (Hle : (Math_min (backoff_base * Qpower 2 n) backoff_cap <= 300000)%Q).
  { eapply Qle_trans; [apply Math_min_le_r|]. unfold backoff_cap. lra. }
  unfold backoffDelay, jitter. apply Math_round_le.
  change (inject_Z 360000) with 360000%Q.
  destruct (jitter_factor_bounds rnd 20 H0 H1) as [Hlo _]; [lra|].
  assert (Hpos : (0 <= 1 + (rnd * 2 - 1) * (20 / 100))%Q).
  { eapply Qle_trans; [|exact Hlo].
    unfold Qdiv. change (/ 100)%Q with (1 # 100)%Q. lra. }
  nra.
Qed.

(** A check of a stored product returns and stamps the record. *)
Lemma checkProduct_stamps nameFromUrl rev product settings env (w : World) q :
  findProduct (p_id product) (products w) = Some q →
  let r := checkProduct nameFromUrl rev product settings env w in
  result r = inr ()
  ∧ ∃ q', findProduct (p_id product) (products (final r)) = Some q'
          ∧ p_lastChecked q' = Some (c_now env).
Proof.
  intros Hq. cbv zeta.
  destruct (c_fetch env) as [err|data] eqn:Hf.
  - destruct (checkProduct_failure nameFromUrl rev product settings env err w q Hf Hq)
      as (Hres & Hfind & _).
    split; [exact Hres|]. eexists. split; [exact Hfind|].
    destruct (p_errorCount product + 1 =? 5); reflexivity.
  - destruct (isValidProductData rev (Some data)) eqn:Hv.
    + destruct (checkProduct_valid nameFromUrl rev product settings env data w q Hf Hv Hq)
        as (w1 & w2 & w3 & q1 & E1 & Hres & Hfind & _).
      split; [exact Hres|]. eexists. split; [exact Hfind|].
      unfold merge; cbn [p_lastChecked].
      unfold validUpdates, updatesAfterRestock, updatesAfterRecovery.
      destruct (decreased _ _), (restocked _ _), (recovered _); reflexivity.
    + destruct (checkProduct_junk nameFromUrl rev product settings env data w q Hf Hv Hq)
        as (nameFix & Hres & Hfind & _).
      split; [exact Hres|]. eexists. split; [exact Hfind|]. reflexivity.
Qed.

(** An iteration of the tick: the rate limiter gate, which changes the
    limiter alone and may pause, and then the rest of the iteration. *)
Lemma tickItem_run nameFromUrl rev env i product (w : World) :
  let item := t_item env i in
  let held :=
    (0 <? p_errorCount product)
    && (i_backoffNow item - default 0 (p_lastChecked product)
        <? Z.max (backoffDelay (i_backoffRnd item) (p_errorCount product))
                 (if MonitorState_eqb (p_monitorState product) Error
                  then 5 * 60 * 1000 else 0)) in
  let rest : M () :=
    if held then mret ()
    else
      tryCatch
        (checkProduct nameFromUrl rev product (t_settings env) (i_check item);;
         limiterRecord (i_recordNow item))
        (λ err, emit (ConsoleError err));;
      sleep (jitter (i_pauseRnd item) 2000 (jitterPercent (t_settings env))) in
  ∃ (w1 : World) (pause : list Effect),
    products w1 = products w ∧ logs w1 = logs w
    ∧ (pause = [] ∨ ∃ ms, pause = [Slept ms])
    ∧ tickItem nameFromUrl rev env i product w
      = MkRun (result (rest w1)) (final (rest w1)) (pause ++ trace (rest w1)).
Proof.
  cbv zeta. unfold tickItem. cbv zeta.
  assert (Hc : ∃ ok r, limiterCanRequest (i_gateNow (t_item env i)) w
                       = MkRun (inr ok) (withLimiter r w) []).
  { unfold limiterCanRequest.
    destruct (RateLimiter.canRequest _ (limiter w)) as [ok r]. eauto. }
  destruct Hc as (ok & r & Hc).
  rewrite run_bind, Hc. cbn [result final trace app]. rewrite run_bind.
  destruct ok; cbn [negb when].
  - cbn [mret M_ret result final trace app].
    exists (withLimiter r w), []. repeat split; auto.
  - assert (Hw : ∃ ms r', limiterWaitTime (i_gateNow (t_item env i)) (withLimiter r w)
                          = MkRun (inr ms) (withLimiter r' (withLimiter r w)) []).
    { unfold limiterWaitTime.
      destruct (RateLimiter.waitTime _ (limiter (withLimiter r w))) as [ms r']. eauto. }
    destruct Hw as (ms & r' & Hw).
    rewrite run_bind, Hw.
    cbn [result final trace app sleep emit].
    exists (withLimiter r' (withLimiter r w)), [Slept ms]. repeat split; eauto.
Qed.

(** X21. The backoff gate of the tick. A stored product without errors is
    checked at every tick, and one with errors at the latest six minutes
    after its last check; a product in the error state is left alone (no
    write, no log entry, at most the pause of the rate limiter) while its
    last check is less than five minutes old. *)
Theorem backoff_holds_error_products_five_to_six_minutes nameFromUrl rev env i
    product (w : World) q :
  let item := t_item env i in
  let since := i_backoffNow item - default 0 (p_lastChecked product) in
  let r := tickItem nameFromUrl rev env i product w in
  findProduct (p_id product) (products w) = Some q →
  0 <= p_errorCount product →
  (0 <= i_backoffRnd item)%Q → (i_backoffRnd item < 1)%Q →
  (p_errorCount product = 0 ∨ 360000 <= since →
   ∃ q', findProduct (p_id product) (products (final r)) = Some q'
         ∧ p_lastChecked q' = Some (c_now (i_check item)))
  ∧ (p_monitorState product = Error → 0 < p_errorCount product → since < 300000 →
     products (final r) = products w ∧ logs (final r) = logs w
     ∧ (trace r = [] ∨ ∃ ms, trace r = [Slept ms])).
Proof.
  cbv zeta. intros Hq Hn H0 H1.
  destruct (tickItem_run nameFromUrl rev env i product w)
    as (w1 & pause & Hps & Hlogs & Hpause & ->).
  cbv zeta. split.
  - intros Hdue.
    assert (Hheld : (0 <? p_errorCount product)
                    && (i_backoffNow (t_item env i) - default 0 (p_lastChecked product)
                        <? Z.max (backoffDelay (i_backoffRnd (t_item env i))
                                               (p_errorCount product))
                                 (if MonitorState_eqb (p_monitorState product) Error
                                  then 5 * 60 * 1000 else 0)) = false).
    { destruct Hdue as [Hzero|Hlate].
      - rewrite Hzero. reflexivity.
      - apply andb_false_iff. right. apply Z.ltb_ge.
        pose proof (backoffDelay_le _ _ Hn H0 H1).
        destruct (MonitorState_eqb _ _); lia. }
    rewrite Hheld. cbn [final].
    rewrite <- Hps in Hq.
    destruct (checkProduct_stamps nameFromUrl rev product (t_settings env)
                (i_check (t_item env i)) w1 q Hq) as (Hres & q' & Hfind & Hstamp).
    exists q'. split; [|exact Hstamp].
    rewrite run_bind, run_tryCatch, run_bind, Hres.
    cbn [result final trace limiterRecord products withLimiter sleep emit].
    exact Hfind.
  - intros Herr Hpos Hsoon.
    assert (Hheld : (0 <? p_errorCount product)
                    && (i_backoffNow (t_item env i) - default 0 (p_lastChecked product)
                        <? Z.max (backoffDelay (i_backoffRnd (t_item env i))
                                               (p_errorCount product))
                                 (if MonitorState_eqb (p_monitorState product) Error
                                  then 5 * 60 * 1000 else 0)) = true).
    { apply andb_true_iff. split; [apply Z.ltb_lt; exact Hpos|].
      apply Z.ltb_lt. rewrite Herr. cbn [MonitorState_eqb]. lia. }
    rewrite Hheld. cbn [mret M_ret result final trace].
    rewrite app_nil_r. auto.
Qed.

Lemma backoff_holds_error_products_five_to_six_minutes_witness :
  products (final (tickItem nameFromUrl_fallback Newer restockTick 0 degradedProduct
                     (worldOf [degradedProduct])))
  = [degradedProduct].
Proof.
  destruct (backoff_holds_error_products_five_to_six_minutes nameFromUrl_fallback Newer
              restockTick 0 degradedProduct (worldOf [degradedProduct]) degradedProduct)
    as [_ H]; [reflexivity | evaluate | evaluate | evaluate |].
  destruct H as (H & _); [reflexivity | evaluate | evaluate |].
  exact H.
Defined.

(** ** Add-to-bag: a success and the write that follows it *)

Lemma attemptNumbers_eq : attemptNumbers = [1; 2; 3].
Proof. reflexivity. Qed.

(** An attempt that gets a success reply: it logs the success, stores the
    purchase limit when the reply carries one, and fails after all when
    that write throws. *)
Lemma addToBagAttempt_success product cart attempt (w : World) resp :
  let o := attemptOutcome cart attempt in
  rejection o = None → response o = Some resp → r_success resp = true →
  let w1 := withLogs (take MAX_LOGS (successEntry product cart attempt resp :: logs w)) w in
  addToBagAttempt product cart attempt w
  = if learnedLimit resp then
      match list_find (λ p, p_id p = p_id product) (products w) with
      | Some (i, q) =>
          MkRun (inr None)
            (withProducts
               (<[i := merge q (limitUpdate resp)]> (products w)) w1)
            (approach product o ++ [Logged (successEntry product cart attempt resp)]
             ++ (if existing o then [] else [TabRemoved]))
      | None =>
          MkRun (inr (Some (NotFoundMsg (p_id product)))) w1
            (approach product o ++ [Logged (successEntry product cart attempt resp)])
      end
    else
      MkRun (inr None) w1
        (approach product o ++ [Logged (successEntry product cart attempt resp)]
         ++ (if existing o then [] else [TabRemoved])).
Proof.
  cbv zeta. unfold addToBagAttempt, approach, successEntry, learnedLimit, limitUpdate.
  destruct (attemptOutcome cart attempt) as [ex rej resp0].
  cbn [existing rejection response]. intros -> -> Hs.
  destruct ex; run; rewrite Hs; run.
  all: destruct (r_pageMax resp) as [m|]; [destruct (0 <? m)|]; run; try reflexivity.
  all: destruct (list_find (λ p, p_id p = p_id product) (products w)) as [[i q]|] eqn:E.
  all: try (erewrite updateProduct_run by (cbn [products withLogs]; exact E); run; reflexivity).
  all: try (erewrite updateProduct_missing by (cbn [products withLogs]; exact E); run; reflexivity).
Qed.

(** X22. When the first attempt of the newer [triggerAddToCart] succeeds
    the automation stops there: one request to the content script, one log
    entry, no retry pause; the purchase limit the page reported is stored,
    and a tab the attempt opened is closed. *)
Theorem add_to_bag_ends_at_the_first_success product cart (w : World) resp q :
  let o := attemptOutcome cart 1 in
  rejection o = None → response o = Some resp → r_success resp = true →
  findProduct (p_id product) (products w) = Some q →
  let r := triggerAddToCart Newer product cart w in
  result r = inr ()
  ∧ trace r = approach product o ++ [Logged (successEntry product cart 1 resp)]
              ++ (if existing o then [] else [TabRemoved])
  ∧ length (List.filter isCartRequest (trace r)) = 1%nat
  ∧ retryPauses (trace r) = []
  ∧ findProduct (p_id product) (products (final r))
    = Some (if learnedLimit resp then merge q (limitUpdate resp) else q).
Proof.
  cbv zeta. intros Hrej Hresp Hs Hq.
  apply findProduct_Some in Hq as [i Hq].
  cbn [triggerAddToCart]. rewrite attemptNumbers_eq. cbn [addToBagAttempts].
  rewrite run_bind, (addToBagAttempt_success _ _ _ _ _ Hrej Hresp Hs), Hq.
  assert (Htrace : ∀ tail : list Effect,
            tail = [] ∨ tail = [TabRemoved] →
            length (List.filter isCartRequest
                      (approach product (attemptOutcome cart 1)
                       ++ [Logged (successEntry product cart 1 resp)] ++ tail)) = 1%nat
            ∧ retryPauses (approach product (attemptOutcome cart 1)
                           ++ [Logged (successEntry product cart 1 resp)] ++ tail) = []).
  { intros tail [-> | ->]; unfold approach;
      destruct (existing (attemptOutcome cart 1)); split; reflexivity. }
  assert (Htail : (if existing (attemptOutcome cart 1) then [] else [TabRemoved]) = []
                  ∨ (if existing (attemptOutcome cart 1) then [] else [TabRemoved])
                    = [TabRemoved]).
  { destruct (existing _); auto. }
  destruct (Htrace _ Htail) as [Hcount Hpauses].
  destruct (learnedLimit resp);
    cbn [result final trace mret M_ret products withProducts withLogs];
    rewrite !app_nil_r;
    (split; [reflexivity|]); (split; [reflexivity|]);
    (split; [exact Hcount|]); (split; [exact Hpauses|]).
  - apply findProduct_Some. exists i.
    eapply list_find_insert_same; [exact Hq | reflexivity].
  - apply findProduct_Some. exists i. exact Hq.
Qed.

Lemma add_to_bag_ends_at_the_first_success_witness :
  length (List.filter isCartRequest
            (trace (triggerAddToCart Newer sampleProduct obligingCart sampleWorld)))
  = 1%nat
  ∧ p_maxPurchaseQty
      <$> findProduct "p1"
            (products (final (triggerAddToCart Newer sampleProduct obligingCart
                                sampleWorld)))
    = Some (Some 2).
Proof.
  destruct (add_to_bag_ends_at_the_first_success sampleProduct obligingCart sampleWorld
              {| r_success := true; r_quantityRequested := Some 2;
                 r_pageMax := Some 2; r_warning := None; r_error := None |}
              sampleProduct)
    as (_ & _ & Hcount & _ & Hfind); try reflexivity.
  split; [exact Hcount|]. exact (f_equal (fmap p_maxPurchaseQty) Hfind).
Defined.

(** One attempt whose success cannot be recorded, and what the loop does
    after it. *)
Lemma addToBagAttempts_unrecorded product cart attempt rest lastError (w : World) resp :
  let o := attemptOutcome cart attempt in
  rejection o = None → response o = Some resp → r_success resp = true →
  learnedLimit resp = true →
  findProduct (p_id product) (products w) = None →
  let w1 := withLogs (take MAX_LOGS (successEntry product cart attempt resp :: logs w)) w in
  let next := addToBagAttempts product cart rest (NotFoundMsg (p_id product)) w1 in
  addToBagAttempts product cart (attempt :: rest) lastError w
  = MkRun (result next) (final next)
      ((approach product o ++ [Logged (successEntry product cart attempt resp)])
       ++ (if existing o then [] else [TabRemoved])
       ++ (if attempt <? ADD_CART_MAX_RETRIES
           then [Slept (ADD_CART_BASE_DELAY * 2 ^ (attempt - 1))] else [])
       ++ trace next).
Proof.
  cbv zeta. intros Hrej Hresp Hs Hl Habs.
  apply findProduct_None in Habs.
  cbn [addToBagAttempts].
  rewrite run_bind, (addToBagAttempt_success _ _ _ _ _ Hrej Hresp Hs), Hl, Habs.
  cbn [result final trace]. rewrite betweenAttempts_run.
  unfold createdTab. rewrite Hrej, andb_true_r.
  destruct (existing (attemptOutcome cart attempt)); reflexivity.
Qed.

(** X23. A success that cannot be recorded is not a success to the retry
    loop: when the product is no longer stored and the page reports a
    purchase limit, each of the three attempts sends the purchase request
    and logs its success, and the failure is logged at the end. *)
Theorem add_to_bag_repeats_a_purchase_it_cannot_record product cart (w : World) :
  findProduct (p_id product) (products w) = None →
  (∀ attempt, 1 <= attempt <= 3 →
     rejection (attemptOutcome cart attempt) = None
     ∧ ∃ resp, response (attemptOutcome cart attempt) = Some resp
               ∧ r_success resp = true ∧ learnedLimit resp = true) →
  let r := triggerAddToCart Newer product cart w in
  length (List.filter isCartRequest (trace r)) = 3%nat
  ∧ l_event <$> logged (trace r)
    = [ev_add_to_cart; ev_add_to_cart; ev_add_to_cart; ev_error]
  ∧ retryPauses (trace r) = [3000; 6000]
  ∧ products (final r) = products w.
Proof.
  cbv zeta. intros Habs Hall.
  destruct (Hall 1 ltac:(lia)) as (Hrej1 & resp1 & Hresp1 & Hs1 & Hl1).
  destruct (Hall 2 ltac:(lia)) as (Hrej2 & resp2 & Hresp2 & Hs2 & Hl2).
  destruct (Hall 3 ltac:(lia)) as (Hrej3 & resp3 & Hresp3 & Hs3 & Hl3).
  cbn [triggerAddToCart]. rewrite attemptNumbers_eq.
  rewrite (addToBagAttempts_unrecorded _ _ _ _ _ _ _ Hrej1 Hresp1 Hs1 Hl1 Habs).
  rewrite (addToBagAttempts_unrecorded _ _ _ _ _ _ _ Hrej2 Hresp2 Hs2 Hl2)
    by exact Habs.
  rewrite (addToBagAttempts_unrecorded _ _ _ _ _ _ _ Hrej3 Hresp3 Hs3 Hl3)
    by exact Habs.
  cbn [addToBagAttempts]. run. unfold approach.
  destruct (existing (attemptOutcome cart 1)), (existing (attemptOutcome cart 2)),
    (existing (attemptOutcome cart 3)); repeat split; reflexivity.
Qed.

Lemma add_to_bag_repeats_a_purchase_it_cannot_record_witness :
  length (List.filter isCartRequest
            (trace (triggerAddToCart Newer pausedProduct obligingCart sampleWorld)))
  = 3%nat.
Proof.
  destruct (add_to_bag_repeats_a_purchase_it_cannot_record pausedProduct obligingCart
              sampleWorld) as (H & _).
  - reflexivity.
  - intros attempt _. split; [reflexivity|]. eexists. repeat split.
  - exact H.
Defined.

(** ** Strings *)

Module JsStringFacts.
Import JsString.

Lemma lowerChar_idem (c : ascii) : lowerChar (lowerChar c) = lowerChar c.
Proof. destruct c as [[] [] [] [] [] [] [] []]; reflexivity. Qed.

Lemma isWhiteSpace_lowerChar (c : ascii) : isWhiteSpace (lowerChar c) = isWhiteSpace c.
Proof. destruct c as [[] [] [] [] [] [] [] []]; reflexivity. Qed.

Lemma toLowerCase_idem (s : string) : toLowerCase (toLowerCase s) = toLowerCase s.
Proof. induction s as [|c s IH]; cbn; [reflexivity|]. rewrite lowerChar_idem, IH. reflexivity. Qed.

Lemma toLowerCase_length (s : string) : String.length (toLowerCase s) = String.length s.
Proof. induction s as [|c s IH]; cbn; [reflexivity|]. rewrite IH. reflexivity. Qed.

Lemma trimStart_toLowerCase (s : string) :
  trimStart (toLowerCase s) = toLowerCase (trimStart s).
Proof.
  induction s as [|c s IH]; cbn; [reflexivity|].
  rewrite isWhiteSpace_lowerChar. destruct (isWhiteSpace c); [exact IH | reflexivity].
Qed.

Lemma trimEnd_toLowerCase (s : string) :
  trimEnd (toLowerCase s) = toLowerCase (trimEnd s).
Proof.
  induction s as [|c s IH]; cbn; [reflexivity|].
  rewrite IH, isWhiteSpace_lowerChar.
  destruct (trimEnd s); cbn; [destruct (isWhiteSpace c)|]; reflexivity.
Qed.

Lemma trim_toLowerCase (s : string) : trim (toLowerCase s) = toLowerCase (trim s).
Proof. unfold trim. rewrite trimStart_toLowerCase, trimEnd_toLowerCase. reflexivity. Qed.

Lemma includes_unfold (s j : string) :
  includes s j
  = String.prefix j s || match s with
                         | EmptyString => false
                         | String _ s' => includes s' j
                         end.
Proof.
  destruct s as [|a s]; cbn [includes];
    [destruct (String.prefix j EmptyString) | destruct (String.prefix j (String a s))];
    reflexivity.
Qed.

Lemma trimEnd_split (s : string) :
  ∃ pad, blank pad = true ∧ s = (trimEnd s ++ pad)%string.
Proof.
  induction s as [|c s (pad & Hpad & IH)]; [exists EmptyString; split; reflexivity|].
  cbn [trimEnd]. destruct (trimEnd s) as [|d rest] eqn:E.
  - cbn in IH. subst s. destruct (isWhiteSpace c) eqn:Ec.
    + exists (String c pad). cbn. rewrite Ec, Hpad. split; reflexivity.
    + exists pad. split; [exact Hpad | reflexivity].
  - exists pad. split; [exact Hpad|]. cbn. rewrite IH at 1. reflexivity.
Qed.

Lemma prefix_nil (s : string) : String.prefix EmptyString s = true.
Proof. destruct s; reflexivity. Qed.

Lemma prefix_pad (j : string) :
  endsSolid j = true →
  ∀ u pad, blank pad = true →
    String.prefix j (u ++ pad)%string = String.prefix j u.
Proof.
  induction j as [|c j IH]; [discriminate|]. intros Hj u pad Hpad.
  destruct j as [|d j'].
  - cbn in Hj. destruct u as [|a u]; simpl.
    + destruct pad as [|b pad]; [reflexivity|]. cbn in Hpad.
      apply andb_true_iff in Hpad as [Hb _].
      simpl.
      destruct (ascii_dec c b) as [->|]; [|reflexivity].
      rewrite Hb in Hj. discriminate.
    + destruct (ascii_dec c a); [rewrite !prefix_nil|]; reflexivity.
  - assert (Hj' : endsSolid (String d j') = true) by exact Hj.
    destruct u as [|a u].
    + simpl. destruct pad as [|b pad]; [reflexivity|].
      cbn in Hpad. apply andb_true_iff in Hpad as [_ Hpad].
      simpl. destruct (ascii_dec c b); [|reflexivity].
      apply (IH Hj' EmptyString pad Hpad).
    + simpl. destruct (ascii_dec c a); [|reflexivity].
      apply (IH Hj' u pad Hpad).
Qed.

Lemma includes_blank (j pad : string) :
  endsSolid j = true → blank pad = true → includes pad j = false.
Proof.
  intros Hj. induction pad as [|b pad IH]; intros Hpad.
  - rewrite includes_unfold.
    rewrite <- (prefix_pad j Hj EmptyString EmptyString eq_refl).
    destruct j; [discriminate | reflexivity].
  - rewrite includes_unfold.
    change (String b pad) with (EmptyString ++ String b pad)%string at 1.
    rewrite (prefix_pad j Hj EmptyString _ Hpad).
    cbn in Hpad. apply andb_true_iff in Hpad as [_ Hpad].
    rewrite (IH Hpad). destruct j; [discriminate | reflexivity].
Qed.

Lemma includes_pad (j u pad : string) :
  endsSolid j = true → blank pad = true →
  includes (u ++ pad)%string j = includes u j.
Proof.
  intros Hj Hpad. induction u as [|a u IH].
  - change (EmptyString ++ pad)%string with pad. rewrite (includes_blank j pad Hj Hpad).
    rewrite includes_unfold. destruct j; [discriminate | reflexivity].
  - rewrite (includes_unfold (String a u ++ pad)%string), (includes_unfold (String a u)).
    rewrite (prefix_pad j Hj _ _ Hpad).
    change (String a u ++ pad)%string with (String a (u ++ pad)%string).
    cbv iota. rewrite IH. reflexivity.
Qed.

Lemma includes_trimEnd (s j : string) :
  endsSolid j = true → includes (trimEnd s) j = includes s j.
Proof.
  intros Hj. destruct (trimEnd_split s) as (pad & Hpad & E).
  rewrite E at 2. symmetry. apply includes_pad; assumption.
Qed.

Lemma includes_trimStart (s j : string) :
  startsSolid j = true → includes (trimStart s) j = includes s j.
Proof.
  intros Hj. induction s as [|a s IH]; [reflexivity|].
  cbn [trimStart]. destruct (isWhiteSpace a) eqn:Ea; [|reflexivity].
  rewrite IH. rewrite (includes_unfold (String a s)).
  destruct j as [|c j]; [discriminate|]. cbn [String.prefix].
  destruct (ascii_dec c a) as [->|]; [|reflexivity].
  cbn in Hj. rewrite Ea in Hj. discriminate.
Qed.

Lemma includes_trim (s j : string) :
  startsSolid j = true → endsSolid j = true →
  includes (trim s) j = includes s j.
Proof.
  intros H1 H2. unfold trim.
  rewrite includes_trimEnd by exact H2. apply includes_trimStart. exact H1.
Qed.

End JsStringFacts.

(** ** The two classifiers *)

(** X24. Both classifiers look at the name up to letter case: a candidate
    and the same candidate with its name in lower case get the same
    verdict. *)
Theorem classifier_ignores_letter_case (rev : Revision) (d : Data) :
  isValidProductData rev (Some (withName (JsString.toLowerCase <$> d_name d) d))
  = isValidProductData rev (Some d).
Proof.
  unfold isValidProductData, withName.
  cbn [d_name d_price d_imageUrl].
  destruct (d_name d) as [[|c n]|];
    [destruct rev; reflexivity | | destruct rev; reflexivity].
  change (JsString.toLowerCase <$> Some (String c n))
    with (Some (String (JsString.lowerChar c) (JsString.toLowerCase n))).
  cbv iota beta.
  assert (E1 : JsString.toLowerCase (String (JsString.lowerChar c) (JsString.toLowerCase n))
               = JsString.toLowerCase (String c n))
    by apply (JsStringFacts.toLowerCase_idem (String c n)).
  assert (E2 : JsString.trim (String (JsString.lowerChar c) (JsString.toLowerCase n))
               = JsString.toLowerCase (JsString.trim (String c n)))
    by apply (JsStringFacts.trim_toLowerCase (String c n)).
  rewrite E1, E2, JsStringFacts.toLowerCase_length.
  reflexivity.
Qed.

Lemma junkNames_solid :
  forallb (λ j, startsSolid j && endsSolid j) junkPhrases
  = true.
Proof. reflexivity. Qed.

Lemma older_junk_is_newer_junk (name : string) :
  existsb (λ j, JsString.includes name j) junkNames = true →
  existsb (λ j, JsString.includes (JsString.trim name) j) junkPhrases = true.
Proof.
  intros H. apply existsb_exists in H as (j & Hj & Hinc).
  apply existsb_exists. exists j. split.
  - unfold junkNames in Hj. unfold junkPhrases. cbn in Hj |- *. tauto.
  - assert (Hsolid : startsSolid j && endsSolid j = true).
    { pose proof junkNames_solid as Hall. rewrite forallb_forall in Hall.
      apply Hall. unfold junkNames in Hj. unfold junkPhrases. cbn in Hj |- *. tauto. }
    apply andb_true_iff in Hsolid as [H1 H2].
    rewrite JsStringFacts.includes_trim by assumption. exact Hinc.
Qed.

(** X25. The newer classifier only tightened the older one: what it
    accepts, the older one accepts as well. *)
Theorem newer_classifier_is_stricter (d : Data) :
  isValidProductData Newer (Some d) = true →
  isValidProductData Older (Some d) = true.
Proof.
  unfold isValidProductData.
  destruct (d_name d) as [[|c n]|]; try discriminate.
  destruct (String.length (JsString.trim (String c n)) <? 3)%nat; [discriminate|].
  destruct (existsb (λ j, JsString.includes (JsString.toLowerCase (String c n)) j)
                    junkNames) eqn:E; [|reflexivity].
  apply older_junk_is_newer_junk in E. rewrite E. discriminate.
Qed.

Lemma newer_classifier_is_stricter_witness :
  isValidProductData Older (Some restockedData) = true.
Proof. apply (newer_classifier_is_stricter restockedData). reflexivity. Defined.

(** ** The settings of the options page in the engine *)

(** X26. With the settings the options page stores, the pause between two
    products of a tick lies between one and three seconds, and the alarm
    period is the check interval itself, between ten seconds and ten
    minutes: the floor of ten seconds in [ensureAlarmRunning] never binds. *)
Theorem stored_settings_pace_the_tick (el : OptionsPage.Form) (rnd : Q) :
  (0 <= rnd)%Q → (rnd < 1)%Q →
  let settings := OptionsPage.stored (OptionsPage.saveSettings el) in
  1000 <= jitter rnd 2000 (jitterPercent settings) <= 3000
  ∧ (Math_max (checkIntervalSeconds settings / 60) (10 / 60)
     == checkIntervalSeconds settings / 60)%Q
  ∧ (1 # 6 <= checkIntervalSeconds settings / 60 <= 10)%Q.
Proof.
  intros H0 H1. cbv zeta.
  cbn [OptionsPage.stored OptionsPage.saveSettings jitterPercent checkIntervalSeconds
       OptionsPage.s_jitterPercent OptionsPage.s_checkIntervalSeconds].
  set (pct := OptionsPage.clamp (OptionsPage.orElse (OptionsPage.el_jitterPercent el) 15) 0 50).
  set (ci := OptionsPage.clamp (OptionsPage.orElse (OptionsPage.el_checkInterval el) 30) 10 600).
  assert (Hpct : 0 <= pct <= 50) by (apply clamp_range; lia).
  assert (Hci : 10 <= ci <= 600) by (apply clamp_range; lia).
  assert (Hp0 : (0 <= inject_Z pct)%Q).
  { change 0%Q with (inject_Z 0). rewrite <- Zle_Qle. lia. }
  assert (Hp50 : (inject_Z pct <= 50)%Q).
  { change 50%Q with (inject_Z 50). rewrite <- Zle_Qle. lia. }
  assert (Hc10 : (10 <= inject_Z ci)%Q).
  { change 10%Q with (inject_Z 10). rewrite <- Zle_Qle. lia. }
  assert (Hc600 : (inject_Z ci <= 600)%Q).
  { change 600%Q with (inject_Z 600). rewrite <- Zle_Qle. lia. }
  destruct (jitter_factor_bounds rnd (inject_Z pct) H0 H1 Hp0) as [Hlo Hhi].
  assert (Hq : (inject_Z pct / 100 <= 1 # 2)%Q).
  { unfold Qdiv. change (/ 100)%Q with (1 # 100)%Q. lra. }
  split; [split|split].
  - unfold jitter. apply Math_round_ge. change (inject_Z 1000) with 1000%Q. lra.
  - unfold jitter. apply Math_round_le. change (inject_Z 3000) with 3000%Q. lra.
  - unfold Math_max.
    destruct (Qle_bool (inject_Z ci / 60) (10 / 60)) eqn:E; [|reflexivity].
    apply Qle_bool_iff in E. unfold Qdiv in *.
    change (/ 60)%Q with (1 # 60)%Q in *. lra.
  - unfold Qdiv. change (/ 60)%Q with (1 # 60)%Q. lra.
Qed.

Lemma stored_settings_pace_the_tick_witness :
  1000 <= jitter (9 # 10) 2000
            (jitterPercent (OptionsPage.stored (OptionsPage.saveSettings sloppyForm)))
  <= 3000.
Proof. apply (stored_settings_pace_the_tick sloppyForm (9 # 10)); evaluate. Defined.

(** ** Reading the log *)

(** X27. The pages of [getLogs] tile the log: no entry is skipped or
    repeated between a page and the next; the entry logged last heads the
    first page; after [clearLogs] every page is empty. *)
Theorem log_pages_tile_the_log (limit more : nat) (entry : LogEntry) (w : World) :
  (∃ page1 page2,
     result (getLogs limit 0 w) = inr page1
     ∧ result (getLogs more limit w) = inr page2
     ∧ result (getLogs (limit + more) 0 w) = inr (page1 ++ page2))
  ∧ result ((addLog entry;; getLogs (S limit) 0) w)
    = inr (entry :: take (Nat.min limit (MAX_LOGS - 1)) (logs w))
  ∧ result ((clearLogs;; getLogs limit more) w) = inr [].
Proof.
  split; [|split].
  - eexists _, _. cbn [getLogs result]. split; [reflexivity|]. split; [reflexivity|].
    rewrite drop_0. f_equal. symmetry. apply take_take_drop.
  - rewrite run_bind. cbn [addLog getLogs result final trace logs withLogs].
    rewrite drop_0. f_equal.
    change MAX_LOGS with (S (MAX_LOGS - 1)).
    cbn [take]. rewrite take_take. reflexivity.
  - rewrite run_bind. cbn [clearLogs getLogs result final trace logs withLogs].
    rewrite drop_nil, take_nil. reflexivity.
Qed.

(** ** Two more messages *)

(** X28. [REMOVE_PRODUCT] succeeds for every id, known or not: the records
    with the id are gone, the others stay, the alarm is left set exactly
    when a product remains to monitor, and the badge is refreshed. *)
Theorem REMOVE_PRODUCT_forgets_and_rearms (settings : Settings) (alarm : option Q)
    (id : string) (w : World) :
  let r := REMOVE_PRODUCT settings alarm id w in
  findProduct id (products (final r)) = None
  ∧ (∀ other, other ≠ id →
       findProduct other (products (final r)) = findProduct other (products w))
  ∧ trace r = [BadgeRefreshed (badgeCount (products (final r)))]
  ∧ ∃ alarm',
      result r = inr alarm'
      ∧ (alarm' = None
         ↔ ∀ p, In p (products w) → p_id p ≠ id → p_monitorState p = Paused).
Proof.
  cbv zeta. unfold REMOVE_PRODUCT, removeProduct.
  rewrite run_bind, run_bind.
  cbn [getProducts saveProducts result final trace app].
  set (w' := withProducts _ w).
  destruct (ensureAlarmRunning_run settings alarm w') as (Hfin & Htr & alarm' & Hres & Hnone).
  rewrite run_bind, Hres, Hfin, Htr. cbn [result final trace app].
  rewrite run_bind. unfold refreshBadge. rewrite run_bind.
  cbn [getProducts emit result final trace app mret M_ret].
  assert (Hin : ∀ p, In p (products w') ↔ In p (products w) ∧ p_id p ≠ id).
  { intros p. subst w'. cbn [products withProducts]. rewrite List.filter_In.
    rewrite negb_true_iff, String.eqb_neq. tauto. }
  split; [|split; [|split]].
  - apply findProduct_absent. intros C.
    apply in_map_iff in C as (p & E & Hp). apply Hin in Hp. tauto.
  - intros other Hne. subst w'. cbn [products withProducts].
    apply findProduct_filter_other. exact Hne.
  - reflexivity.
  - exists alarm'. split; [reflexivity|]. rewrite Hnone.
    split; intros H p.
    + intros Hp Hid. apply H, Hin. tauto.
    + intros Hp. apply Hin in Hp as [Hp Hid]. apply H; assumption.
Qed.

(** X29. [CHECK_NOW]: an unknown id is answered without any effect; a known
    one has its stored record checked, whatever its monitor state, then
    the badge is refreshed with the count of the store after the check. *)
Theorem CHECK_NOW_checks_the_stored_record nameFromUrl rev (id : string)
    (settings : Settings) (env : CheckEnv) (w : World) :
  let r := checkNow nameFromUrl rev id settings env w in
  match findProduct id (products w) with
  | None => r = MkRun (inr false) w []
  | Some q =>
      let check := checkProduct nameFromUrl rev q settings env w in
      result r = inr true
      ∧ final r = final check
      ∧ trace r = trace check ++ [BadgeRefreshed (badgeCount (products (final check)))]
      ∧ ∃ q', findProduct id (products (final r)) = Some q'
              ∧ p_lastChecked q' = Some (c_now env)
  end.
Proof.
  cbv zeta. unfold checkNow, getProduct. rewrite !run_bind.
  cbn [getProducts result final trace mret M_ret app].
  destruct (findProduct id (products w)) as [q|] eqn:E; [|reflexivity].
  pose proof (findProduct_In _ _ _ E) as [_ Hid]. subst id.
  destruct (checkProduct_stamps nameFromUrl rev q settings env w q E)
    as (Hres & q' & Hfind & Hstamp).
  rewrite run_bind, Hres. cbn [result final trace].
  rewrite run_bind. unfold refreshBadge. rewrite run_bind.
  cbn [getProducts emit result final trace app mret M_ret].
  split; [reflexivity|]. split; [reflexivity|]. split; [reflexivity|].
  exists q'. split; [exact Hfind | exact Hstamp].
Qed.

(** ** The end of a tick *)

(** X30. A tick that has a product to monitor returns, clears the
    single-flight flag, and ends by closing the monitor tab and refreshing
    the badge, whatever the checks of its products did; it rotates the user
    agent at most once, before the first check. *)
Theorem tick_always_closes_the_monitor_tab nameFromUrl rev env (w : World) :
  isChecking w = false →
  List.filter eligibleProduct (products w) ≠ [] →
  let r := monitorTick nameFromUrl rev env w in
  let loop := tickLoop nameFromUrl rev env 0 (List.filter eligibleProduct (products w))
                (withChecking true w) in
  result r = inr ()
  ∧ isChecking (final r) = false
  ∧ trace r
    = (if Qle_bool (1 # 10) (t_rotateRnd env) then [] else [UserAgentRotated])
      ++ trace loop
      ++ [MonitorTabClosed; BadgeRefreshed (badgeCount (products (final r)))].
Proof.
  intros Hc Hne. cbv zeta. unfold monitorTick. rewrite Hc.
  unfold tryFinally. cbn [result final trace isChecking withChecking].
  rewrite run_bind. cbn [getProducts result final trace products withChecking app].
  destruct (List.filter eligibleProduct (products w)) as [|p ps] eqn:E; [congruence|].
  cbn [length Nat.eqb].
  set (w1 := withChecking true w).
  assert (Hrot : ∀ (k : M ()) (w' : World),
            (when (negb (Qle_bool (1 # 10) (t_rotateRnd env))) (emit UserAgentRotated);; k) w'
            = MkRun (result (k w')) (final (k w'))
                ((if Qle_bool (1 # 10) (t_rotateRnd env) then [] else [UserAgentRotated])
                 ++ trace (k w'))).
  { intros k w'. rewrite run_bind.
    destruct (Qle_bool (1 # 10) (t_rotateRnd env)); reflexivity. }
  rewrite Hrot. cbn [result final trace].
  rewrite run_bind.
  destruct (tickLoop_returns nameFromUrl rev env 0 (p :: ps) w1) as [[] Hloop].
  rewrite Hloop. cbn [result final trace].
  rewrite run_bind. cbn [emit result final trace app].
  unfold refreshBadge. rewrite run_bind.
  cbn [getProducts emit result final trace app mret M_ret products withChecking].
  split; [reflexivity|]. split; [reflexivity|]. reflexivity.
Qed.

Lemma tick_always_closes_the_monitor_tab_witness :
  ∃ t, trace (monitorTick nameFromUrl_fallback Newer restockTick twoProducts)
       = t ++ [MonitorTabClosed; BadgeRefreshed 1].
Proof.
  destruct (tick_always_closes_the_monitor_tab nameFromUrl_fallback Newer restockTick
              twoProducts) as (_ & _ & H); [reflexivity | discriminate |].
  eexists. rewrite H. reflexivity.
Defined.
